(** * BlackRoad Agents: job lifecycle and self-healing control logic

    A shallow embedding of the job orchestration and self-healing code of
    the repository (src/durable-objects/index.js, src/jobs/scheduler.js,
    src/utils/helpers.js and the two worker entry files), followed by the
    properties established about it.

    Conventions of the embedding:
    - a JS object used as a JSON document is a record whose optional
      members have type [option _] ([None] is [undefined]);
    - counters and millisecond values are [N];
    - a KV namespace or Durable Object storage is a [gmap string _];
    - [async] functions are run to completion: a promise that resolves is
      a returned value, a promise that rejects is an explicit error value;
    - [new Date()], [Date.now()] and the random part of [generateId] are
      inputs of the operation that reads them. *)

From Stdlib Require Import NArith List Bool Lia.
From stdpp Require Import base option strings gmap pretty.
Import ListNotations.

Local Open Scope N_scope.


(* ===================================================================== *)
(** ** JavaScript primitives used by the predicates *)
(* ===================================================================== *)

Module JS.

(** [x < b] and [x >= b] where [x] may be [undefined]: the comparison
    converts [undefined] to [NaN] and is then false. *)
Definition lt (x : option N) (b : N) : bool :=
  match x with Some v => v <? b | None => false end.

Definition ge (x : option N) (b : N) : bool :=
  match x with Some v => b <=? v | None => false end.

(** [s.startsWith(pat)], the inner loop of [includes]. *)
Fixpoint startsWith (pat s : string) : bool :=
  match pat, s with
  | EmptyString, _ => true
  | String c p, String d t => if Ascii.eqb c d then startsWith p t else false
  | String _ _, EmptyString => false
  end.

(** [s.includes(pat)]: case-sensitive substring search. *)
Fixpoint includes (s pat : string) : bool :=
  startsWith pat s ||
  match s with
  | EmptyString => false
  | String _ t => includes t pat
  end.

(** [x?.includes(pat)] used as a condition: [undefined] is falsy. *)
Definition includes_opt (x : option string) (pat : string) : bool :=
  match x with Some s => includes s pat | None => false end.

(** Numbers that an action can compute: [Math.pow(2, undefined)] is
    [NaN], which is not [undefined]. *)
Inductive Number := NaN | Num (n : N).

(** [Math.pow(2, x) * 1000] for a counter [x]. *)
Definition pow2_times_1000 (x : option N) : Number :=
  match x with Some a => Num (2 ^ a * 1000) | None => NaN end.

End JS.

(* ===================================================================== *)
(** ** Self-healing vocabulary (IssueType, Severity, HealingAction) *)
(* ===================================================================== *)

Inductive IssueType :=
  | JOB_FAILURE | CRON_FAILURE | SYNC_FAILURE | DEAD_LETTER
  | HEALTH_DEGRADATION | COHESION_DRIFT | RATE_LIMIT | API_ERROR.

Definition IssueType_value (t : IssueType) : string :=
  match t with
  | JOB_FAILURE => "job_failure"
  | CRON_FAILURE => "cron_failure"
  | SYNC_FAILURE => "sync_failure"
  | DEAD_LETTER => "dead_letter"
  | HEALTH_DEGRADATION => "health_degradation"
  | COHESION_DRIFT => "cohesion_drift"
  | RATE_LIMIT => "rate_limit"
  | API_ERROR => "api_error"
  end.

Inductive Severity := LOW | MEDIUM | HIGH | CRITICAL.

Definition Severity_value (s : Severity) : N :=
  match s with LOW => 1 | MEDIUM => 2 | HIGH => 3 | CRITICAL => 4 end.

Inductive HealingAction :=
  | RETRY | SKIP | ESCALATE | ROLLBACK | RESET | NOTIFY | LEARN.

(** The [context] member of an issue: the members that the scans and the
    failure handlers put there. *)
Record Ctx := mkCtx {
  ctx_jobId : option string;
  ctx_jobType : option string;
  ctx_attempts : option N;
  ctx_severity : option N;
  ctx_error : option string;
  ctx_consecutiveFailures : option N;
  ctx_driftScore : option N;
  ctx_messageId : option string;
  ctx_body : option string;
  ctx_retryCount : option N
}.

Definition emptyCtx : Ctx :=
  mkCtx None None None None None None None None None None.

(** What an action closure resolves to. *)
Record ActionResult := mkActionResult {
  success : option bool;
  action : option HealingAction;
  message : option string;
  delay : option JS.Number;
  error : option string
}.

(** An [async] action either resolves to a result or throws. *)
Inductive ActionOutcome :=
  | Resolves (r : ActionResult)
  | Throws (msg : string).

(* ===================================================================== *)
(** ** DecisionNode *)
(* ===================================================================== *)

#[warnings="-register-all"] Inductive DecisionNode := Node {
  node_name : string;
  node_condition : Ctx -> bool;
  node_action : option (Ctx -> ActionOutcome);
  node_children : list DecisionNode;
  node_fallback : option DecisionNode
}.

Record EvalResult := mkEval {
  matched : bool;
  result : option ActionResult
}.

(** The [try]/[catch] around the action: the value of the local [result]
    after it.  A thrown error becomes [{ success: false, error }]; without
    an action [result] stays [null]. *)
Definition run_action (act : option (Ctx -> ActionOutcome)) (ctx : Ctx)
  : option ActionResult :=
  match act with
  | None => None
  | Some f =>
      match f ctx with
      | Resolves r => Some r
      | Throws msg => Some (mkActionResult (Some false) None None None (Some msg))
      end
  end.

Definition truthy {A} (x : option A) : bool :=
  match x with Some _ => true | None => false end.

Definition truthy_bool (x : option bool) : bool :=
  match x with Some b => b | None => false end.

(** [DecisionNode.evaluate]. *)
Fixpoint evaluate (n : DecisionNode) (ctx : Ctx) {struct n} : EvalResult :=
  match n with
  | Node _ cond act kids fb =>
      if negb (cond ctx) then mkEval false None
      else
        let res := run_action act ctx in
        let returned_early :=
          match res with Some r => truthy_bool (success r) | None => false end in
        if returned_early then mkEval true res
        else
          let fix try_children (cs : list DecisionNode) : option EvalResult :=
            match cs with
            | [] => None
            | child :: rest =>
                let childResult := evaluate child ctx in
                if matched childResult then Some childResult
                else try_children rest
            end in
          match try_children kids with
          | Some childResult => childResult
          | None =>
              match fb with
              | Some f => evaluate f ctx
              | None => mkEval (truthy res) res
              end
          end
  end.

(** The children loop of [evaluate], as a function of its own. *)
Fixpoint first_matching (cs : list DecisionNode) (ctx : Ctx) : option EvalResult :=
  match cs with
  | [] => None
  | child :: rest =>
      let childResult := evaluate child ctx in
      if matched childResult then Some childResult
      else first_matching rest ctx
  end.

(* ===================================================================== *)
(** ** The standard trees of [_buildDecisionTrees] *)
(* ===================================================================== *)

Definition always : Ctx -> bool := fun _ => true.

Definition ok (a : HealingAction) (msg : string) (d : option JS.Number)
  : ActionOutcome :=
  Resolves (mkActionResult (Some true) (Some a) (Some msg) d None).

Definition job_failure_tree : DecisionNode :=
  Node "job_failure_handler" always None
    [ Node "transient_error"
        (fun ctx => JS.lt (ctx_attempts ctx) 3)
        (Some (fun ctx =>
           ok RETRY "Scheduling retry"
              (Some (JS.pow2_times_1000 (ctx_attempts ctx)))))
        [] None;
      Node "persistent_error"
        (fun ctx => JS.ge (ctx_attempts ctx) 3
                    && JS.lt (ctx_severity ctx) (Severity_value CRITICAL))
        (Some (fun _ =>
           ok SKIP "Skipping after max retries, creating learning" None))
        [] None ]
    (Some (Node "escalate" always
        (Some (fun _ => ok ESCALATE "Escalating to human attention" None))
        [] None)).

Definition cron_failure_tree : DecisionNode :=
  Node "cron_failure_handler" always None
    [ Node "temporary_issue"
        (fun ctx => JS.lt (ctx_consecutiveFailures ctx) 3)
        (Some (fun _ => ok LEARN "Logging failure for pattern analysis" None))
        [] None;
      Node "systematic_issue"
        (fun ctx => JS.ge (ctx_consecutiveFailures ctx) 3)
        (Some (fun _ =>
           ok ESCALATE "Multiple consecutive failures - needs investigation" None))
        [] None ]
    None.

Definition sync_failure_tree : DecisionNode :=
  Node "sync_failure_handler" always None
    [ Node "rate_limited"
        (fun ctx => JS.includes_opt (ctx_error ctx) "rate limit")
        (Some (fun _ =>
           ok RETRY "Rate limited - backing off" (Some (JS.Num 60000))))
        [] None;
      Node "network_error"
        (fun ctx => JS.includes_opt (ctx_error ctx) "network"
                    || JS.includes_opt (ctx_error ctx) "timeout")
        (Some (fun _ =>
           ok RETRY "Network error - retrying with backoff" (Some (JS.Num 5000))))
        [] None;
      Node "auth_error"
        (fun ctx => JS.includes_opt (ctx_error ctx) "401"
                    || JS.includes_opt (ctx_error ctx) "403")
        (Some (fun _ =>
           ok ESCALATE "Authentication error - needs manual intervention" None))
        [] None ]
    (Some (Node "unknown_sync_error" always
        (Some (fun _ => ok LEARN "Unknown error - learning for future" None))
        [] None)).

Definition cohesion_drift_tree : DecisionNode :=
  Node "cohesion_drift_handler" always None
    [ Node "minor_drift"
        (fun ctx => JS.lt (ctx_driftScore ctx) 20)
        (Some (fun _ => ok NOTIFY "Minor cohesion drift detected" None))
        [] None;
      Node "significant_drift"
        (fun ctx => JS.ge (ctx_driftScore ctx) 20
                    && JS.lt (ctx_driftScore ctx) 50)
        (Some (fun _ =>
           ok LEARN "Significant drift - creating recommendations" None))
        [] None;
      Node "critical_drift"
        (fun ctx => JS.ge (ctx_driftScore ctx) 50)
        (Some (fun _ =>
           ok ESCALATE "Critical cohesion drift - immediate attention needed" None))
        [] None ]
    None.

(** [this.decisionTrees] after [_buildDecisionTrees]: a lookup by issue
    type that is [undefined] for the four types without a tree. *)
Definition _buildDecisionTrees (t : IssueType) : option DecisionNode :=
  match t with
  | JOB_FAILURE => Some job_failure_tree
  | CRON_FAILURE => Some cron_failure_tree
  | SYNC_FAILURE => Some sync_failure_tree
  | COHESION_DRIFT => Some cohesion_drift_tree
  | DEAD_LETTER | HEALTH_DEGRADATION | RATE_LIMIT | API_ERROR => None
  end.

(* ===================================================================== *)
(** ** Values shared by the modules *)
(* ===================================================================== *)

(** Every job status string that occurs in the repository. *)
Inductive JobState :=
  | PENDING | RUNNING | COMPLETED | FAILED | HEALING | ESCALATED | CANCELLED.

Definition JobState_eqb (a b : JobState) : bool :=
  match a, b with
  | PENDING, PENDING | RUNNING, RUNNING | COMPLETED, COMPLETED
  | FAILED, FAILED | HEALING, HEALING | ESCALATED, ESCALATED
  | CANCELLED, CANCELLED => true
  | _, _ => false
  end.

(** The states after which the specification allows no transition. *)
Definition terminal (s : JobState) : bool :=
  match s with
  | COMPLETED | CANCELLED | FAILED | ESCALATED => true
  | PENDING | RUNNING | HEALING => false
  end.

(** A call that returns or throws. *)
Inductive Outcome (A : Type) :=
  | Returned (a : A)
  | Thrown (msg : string).
Arguments Returned {A} a.
Arguments Thrown {A} msg.

(** What the operation reads from its surroundings: [new Date()] as an
    ISO string, [Date.now()], and the tail that [generateId] appends. *)
Record Ambient := mkAmbient {
  isoNow : string;
  msNow : N;
  idTail : string
}.

(* ===================================================================== *)
(** ** src/utils/helpers.js *)
(* ===================================================================== *)

Module Helpers.

(** [generateId(prefix)]: the prefix, an underscore, and a tail made of
    the timestamp and random digits. *)
Definition generateId (prefix : string) (amb : Ambient) : string :=
  prefix +:+ "_" +:+ idTail amb.

Inductive RetryResult (A : Type) :=
  | Done (a : A)
  | GaveUp (lastError : option string).
Arguments Done {A} a.
Arguments GaveUp {A} lastError.

(** The delay computed inside the [catch] of [retryWithBackoff], for the
    loop variable [attempt] (counted from 0). *)
Definition backoffDelay (baseDelay : N) (attempt : nat) : N :=
  baseDelay * 2 ^ N.of_nat attempt.

(** The guard around the sleep: another iteration will follow. *)
Definition willRetry (attempt maxRetries : nat) : bool :=
  (attempt <? maxRetries - 1)%nat.

(** The [for] loop of [retryWithBackoff]: [todo] iterations remain,
    [attempt] is the loop variable, [slept] the delays passed to [sleep]
    so far.  [fn k] is the outcome of the call made in iteration [k]. *)
Fixpoint retryLoop {A} (fn : nat -> Outcome A) (maxRetries : nat)
  (baseDelay : N) (todo attempt : nat) (lastError : option string)
  (slept : list N) : list N * RetryResult A :=
  match todo with
  | O => (slept, GaveUp lastError)
  | S todo' =>
      match fn attempt with
      | Returned a => (slept, Done a)
      | Thrown e =>
          let slept' :=
            if willRetry attempt maxRetries
            then slept ++ [backoffDelay baseDelay attempt]
            else slept in
          retryLoop fn maxRetries baseDelay todo' (S attempt) (Some e) slept'
      end
  end.

(** [retryWithBackoff(fn, maxRetries = 4, baseDelay = 2000)]. *)
Definition retryWithBackoff {A} (fn : nat -> Outcome A)
  (maxRetries : nat) (baseDelay : N) : list N * RetryResult A :=
  retryLoop fn maxRetries baseDelay maxRetries 0 None [].

Definition defaultMaxRetries : nat := 4.

End Helpers.

(** The Retry/Backoff Controller as the specification words it, to be
    compared with the expressions of the code. *)
Module BackoffSpec.

Definition nextDelay (base : N) (attempt : N) : N := base * 2 ^ (attempt - 1).


End BackoffSpec.

(* ===================================================================== *)
(** ** The KV namespaces of the worker environment *)
(* ===================================================================== *)

(** A job document of [JOB_QUEUE], as [JobScheduler.createJob] builds it. *)
Record Job := mkJob {
  job_id : string;
  job_type : string;
  status : JobState;
  priority : N;
  payload : list (string * string);
  createdAt : string;
  updatedAt : string;
  attempts : N;
  maxAttempts : N;
  job_result : option string;
  job_error : option string
}.

(** An issue as the scans and failure handlers build it. *)
Record Issue := mkIssue {
  issue_id : string;
  issue_type : IssueType;
  issue_severity : Severity;
  issue_description : string;
  issue_context : Ctx
}.

(** The JSON document stored under [issue:<id>]. *)
Record IssueDoc := mkIssueDoc {
  doc_id : option string;
  doc_type : option IssueType;
  doc_severity : option Severity;
  doc_description : option string;
  doc_context : option Ctx;
  detectedAt : option string;
  resolved : option bool;
  resolvedAt : option string;
  resolution : option string;
  retryScheduledAt : option string;
  retryDelay : option JS.Number;
  escalated : option bool
}.

(** [{...null}]: the document with no member. *)
Definition emptyDoc : IssueDoc :=
  mkIssueDoc None None None None None None None None None None None None.

(** [{...issue}]. *)
Definition spread (i : Issue) : IssueDoc :=
  mkIssueDoc (Some (issue_id i)) (Some (issue_type i))
    (Some (issue_severity i)) (Some (issue_description i))
    (Some (issue_context i)) None None None None None None None.

(** The document stored under [escalation:<id>]. *)
Record Escalation := mkEscalation {
  esc_issueId : string;
  esc_type : IssueType;
  esc_severity : Severity;
  esc_description : string;
  esc_context : Ctx;
  escalatedAt : string
}.

Record LogEntry := mkLogEntry {
  log_timestamp : string;
  log_level : string;
  log_event : string;
  log_data : list (string * string)
}.

(** The documents of [AGENT_STATE]. *)
Inductive StateValue :=
  | VIssue (d : IssueDoc)
  | VEscalation (e : Escalation)
  | VLog (l : LogEntry)
  | VText (s : string).

(** The documents of [LEARNING_MEMORY]. *)
Record Learning := mkLearning {
  learning_id : string;
  issueType : IssueType;
  outcome : string;
  learning_context : Ctx;
  learning_createdAt : string
}.

Record Env := mkEnv {
  AGENT_STATE : gmap string StateValue;
  JOB_QUEUE : gmap string Job;
  LEARNING_MEMORY : gmap string Learning
}.

Definition with_AGENT_STATE (f : gmap string StateValue -> gmap string StateValue)
  (e : Env) : Env :=
  mkEnv (f (AGENT_STATE e)) (JOB_QUEUE e) (LEARNING_MEMORY e).

Definition with_JOB_QUEUE (f : gmap string Job -> gmap string Job)
  (e : Env) : Env :=
  mkEnv (AGENT_STATE e) (f (JOB_QUEUE e)) (LEARNING_MEMORY e).

Definition with_LEARNING_MEMORY (f : gmap string Learning -> gmap string Learning)
  (e : Env) : Env :=
  mkEnv (AGENT_STATE e) (JOB_QUEUE e) (f (LEARNING_MEMORY e)).

Definition logKey (amb : Ambient) (event : string) : string :=
  "log:" +:+ pretty (msNow amb) +:+ ":" +:+ event.

(** [logEvent(env, level, event, data)] of helpers.js: one put under
    [log:<Date.now()>:<event>]. *)
Definition logEvent (amb : Ambient) (level event : string)
  (data : list (string * string)) (e : Env) : Env :=
  with_AGENT_STATE
    (insert (logKey amb event)
            (VLog (mkLogEntry (isoNow amb) level event data))) e.

(** [a || d] for a number: [undefined] and [0] are falsy. *)
Definition orN (a : option N) (d : N) : N :=
  match a with
  | Some 0 | None => d
  | Some v => v
  end.

(** [a || d] for a string: [undefined] and the empty string are falsy. *)
Definition orS (a : option string) (d : string) : string :=
  match a with
  | Some EmptyString | None => d
  | Some v => v
  end.

(* ===================================================================== *)
(** ** src/jobs/scheduler.js *)
(* ===================================================================== *)

Module JobScheduler.

(** The options of [createJob] as the callers inside the repository
    build them ([_scheduleRetry], [runRepoSyncCheck]): strings, natural
    numbers and flat objects.  The API worker passes a JSON body that
    nobody has validated; [UntypedJobs.createJob] below is the same
    object literal on arbitrary values. *)
Record Options := mkOptions {
  opt_type : option string;
  opt_priority : option N;
  opt_payload : option (list (string * string));
  opt_maxAttempts : option N
}.

(** The [updates] argument of [updateJob]. *)
Record Updates := mkUpdates {
  upd_status : option JobState;
  upd_attempts : option N;
  upd_result : option string;
  upd_error : option string
}.

Definition createJob (amb : Ambient) (options : Options) (e : Env) : Env * Job :=
  let job :=
    mkJob (Helpers.generateId "job" amb)
          (orS (opt_type options) "custom")
          PENDING
          (orN (opt_priority options) 5)
          (default [] (opt_payload options))
          (isoNow amb) (isoNow amb)
          0
          (orN (opt_maxAttempts options) 3)
          None None in
  let e1 := with_JOB_QUEUE (insert (job_id job) job) e in
  let e2 := logEvent amb "info" "job_created"
              [("jobId", job_id job); ("type", job_type job)] e1 in
  (e2, job).

(** [{...job, ...updates, updatedAt}]. *)
Definition merge (amb : Ambient) (job : Job) (u : Updates) : Job :=
  mkJob (job_id job) (job_type job)
        (default (status job) (upd_status u))
        (priority job) (payload job) (createdAt job)
        (isoNow amb)
        (default (attempts job) (upd_attempts u))
        (maxAttempts job)
        (match upd_result u with Some r => Some r | None => job_result job end)
        (match upd_error u with Some r => Some r | None => job_error job end).

Definition updateJob (amb : Ambient) (jobId : string) (u : Updates) (e : Env)
  : Env * Outcome Job :=
  match JOB_QUEUE e !! jobId with
  | None => (e, Thrown ("Job not found: " +:+ jobId))
  | Some job =>
      let updatedJob := merge amb job u in
      (with_JOB_QUEUE (insert jobId updatedJob) e, Returned updatedJob)
  end.

Definition builtin (t : string) : bool :=
  String.eqb t "health_check" || String.eqb t "repo_sync"
  || String.eqb t "self_heal".

(** [executeJob]: the three built-in runners are given by [run]; every
    other type throws. *)
Definition executeJob (run : Job -> Env -> Env * Outcome string)
  (job : Job) (e : Env) : Env * Outcome string :=
  if builtin (job_type job) then run job e
  else (e, Thrown ("Unknown job type: " +:+ job_type job)).

(** [processQueuedJob(jobData)], [jobData] already parsed. *)
Definition processQueuedJob (run : Job -> Env -> Env * Outcome string)
  (amb : Ambient) (job : Job) (e : Env) : Env * Outcome string :=
  match updateJob amb (job_id job)
          (mkUpdates (Some RUNNING) (Some (attempts job + 1)) None None) e with
  | (e1, Thrown msg) => (e1, Thrown msg)
  | (e1, Returned _) =>
      let on_error (e' : Env) (msg : string) : Env * Outcome string :=
        let st := if maxAttempts job <=? attempts job then FAILED else PENDING in
        match updateJob amb (job_id job)
                (mkUpdates (Some st) None None (Some msg)) e' with
        | (e3, Thrown msg') => (e3, Thrown msg')
        | (e3, Returned _) => (e3, Thrown msg)
        end in
      match executeJob run job e1 with
      | (e2, Returned r) =>
          match updateJob amb (job_id job)
                  (mkUpdates (Some COMPLETED) None (Some r) None) e2 with
          | (e3, Returned _) => (e3, Returned r)
          | (e3, Thrown msg) => on_error e3 msg
          end
      | (e2, Thrown msg) => on_error e2 msg
      end
  end.

End JobScheduler.

(* ===================================================================== *)
(** ** The Self-Healing Engine (second part of durable-objects/index.js) *)
(* ===================================================================== *)

Module SelfHealingEngine.

Record Stats := mkStats {
  issuesDetected : N;
  issuesResolved : N;
  escalations : N;
  learnings : N
}.

Record Engine := mkEngine {
  env : Env;
  decisionTrees : IssueType -> option DecisionNode;
  stats : Stats
}.

(** [new SelfHealingEngine(env)]. *)
Definition constructor (e : Env) : Engine :=
  mkEngine e _buildDecisionTrees (mkStats 0 0 0 0).

Definition with_env (f : Env -> Env) (g : Engine) : Engine :=
  mkEngine (f (env g)) (decisionTrees g) (stats g).

Definition with_stats (f : Stats -> Stats) (g : Engine) : Engine :=
  mkEngine (env g) (decisionTrees g) (f (stats g)).

Definition inc_issuesDetected (s : Stats) : Stats :=
  mkStats (issuesDetected s + 1) (issuesResolved s) (escalations s) (learnings s).
Definition inc_issuesResolved (s : Stats) : Stats :=
  mkStats (issuesDetected s) (issuesResolved s + 1) (escalations s) (learnings s).
Definition inc_escalations (s : Stats) : Stats :=
  mkStats (issuesDetected s) (issuesResolved s) (escalations s + 1) (learnings s).
Definition inc_learnings (s : Stats) : Stats :=
  mkStats (issuesDetected s) (issuesResolved s) (escalations s) (learnings s + 1).

Definition issueKey (id : string) : string := "issue:" +:+ id.
Definition escalationKey (id : string) : string := "escalation:" +:+ id.

(** [AGENT_STATE.get(key, 'json')] read as an issue document; what is
    stored under an [issue:] key is an issue document. *)
Definition getIssueDoc (key : string) (e : Env) : option IssueDoc :=
  match AGENT_STATE e !! key with
  | Some (VIssue d) => Some d
  | _ => None
  end.

(** [_scheduleRetry(issue, delay = 5000)]. *)
Definition _scheduleRetry (amb : Ambient) (issue : Issue)
  (delay : option JS.Number) (e : Env) : Env :=
  let delay := default (JS.Num 5000) delay in
  let (e1, _) :=
    JobScheduler.createJob amb
      (JobScheduler.mkOptions (Some "retry_issue") (Some 8)
         (Some [("issueId", issue_id issue);
                ("originalType", IssueType_value (issue_type issue))])
         None) e in
  let d := spread issue in
  with_AGENT_STATE
    (insert (issueKey (issue_id issue))
       (VIssue (mkIssueDoc (doc_id d) (doc_type d) (doc_severity d)
                  (doc_description d) (doc_context d) (detectedAt d)
                  (resolved d) (resolvedAt d) (resolution d)
                  (Some (isoNow amb)) (Some delay) (escalated d)))) e1.

(** [_markResolved(issue, resolution)]. *)
Definition _markResolved (amb : Ambient) (issue : Issue) (why : string)
  (e : Env) : Env :=
  let d := default emptyDoc (getIssueDoc (issueKey (issue_id issue)) e) in
  with_AGENT_STATE
    (insert (issueKey (issue_id issue))
       (VIssue (mkIssueDoc (doc_id d) (doc_type d) (doc_severity d)
                  (doc_description d) (doc_context d) (detectedAt d)
                  (Some true) (Some (isoNow amb)) (Some why)
                  (retryScheduledAt d) (retryDelay d) (escalated d)))) e.

(** [_createLearning(issue, outcome)]. *)
Definition _createLearning (amb : Ambient) (issue : Issue) (out : string)
  (e : Env) : Env :=
  let learning :=
    mkLearning (Helpers.generateId "learning" amb) (issue_type issue) out
               (issue_context issue) (isoNow amb) in
  let e1 := with_LEARNING_MEMORY (insert (learning_id learning) learning) e in
  logEvent amb "info" "learning_created"
    [("learningId", learning_id learning);
     ("issueType", IssueType_value (issue_type issue))] e1.

(** [_escalateIssue(issue)]: the escalation document and a log entry. *)
Definition _escalateIssue (amb : Ambient) (issue : Issue) (e : Env) : Env :=
  let escalation :=
    mkEscalation (issue_id issue) (issue_type issue) (issue_severity issue)
                 (issue_description issue) (issue_context issue) (isoNow amb) in
  let e1 :=
    with_AGENT_STATE
      (insert (escalationKey (issue_id issue)) (VEscalation escalation)) e in
  logEvent amb "warn" "issue_escalated"
    [("issueId", issue_id issue);
     ("type", IssueType_value (issue_type issue));
     ("severity", pretty (Severity_value (issue_severity issue)));
     ("description", issue_description issue);
     ("escalatedAt", isoNow amb)] e1.

(** [_notify(issue, message)]. *)
Definition _notify (amb : Ambient) (issue : Issue) (msg : option string)
  (e : Env) : Env :=
  logEvent amb "info" "notification"
    [("issueId", issue_id issue); ("message", default "" msg)] e.

(** [_resetState(issue)]. *)
Definition _resetState (amb : Ambient) (issue : Issue) (e : Env) : Env :=
  let e1 :=
    match issue_type issue, ctx_jobId (issue_context issue) with
    | JOB_FAILURE, Some jid =>
        if String.eqb jid "" then e else with_JOB_QUEUE (delete jid) e
    | _, _ => e
    end in
  _markResolved amb issue "State reset" e1.

Definition HealingAction_value (a : HealingAction) : string :=
  match a with
  | RETRY => "retry" | SKIP => "skip" | ESCALATE => "escalate"
  | ROLLBACK => "rollback" | RESET => "reset" | NOTIFY => "notify"
  | LEARN => "learn"
  end.

(** [_executeAction(issue, action)]. *)
Definition _executeAction (amb : Ambient) (issue : Issue) (act : ActionResult)
  (g : Engine) : Engine :=
  let g :=
    with_env
      (logEvent amb "info" "healing_action"
         [("issueId", issue_id issue);
          ("action", from_option HealingAction_value "" (action act))]) g in
  match action act with
  | Some RETRY => with_env (_scheduleRetry amb issue (delay act)) g
  | Some SKIP =>
      let g := with_env (_markResolved amb issue "Skipped after max attempts") g in
      let g := with_env (_createLearning amb issue "skipped") g in
      with_stats inc_issuesResolved g
  | Some ESCALATE =>
      let g := with_env (_escalateIssue amb issue) g in
      with_stats inc_escalations g
  | Some LEARN =>
      let g := with_env (_createLearning amb issue "learned") g in
      with_stats inc_learnings g
  | Some NOTIFY => with_env (_notify amb issue (message act)) g
  | Some RESET =>
      let g := with_env (_resetState amb issue) g in
      with_stats inc_issuesResolved g
  | Some ROLLBACK | None => g
  end.

Definition noTreeReply : ActionResult :=
  mkActionResult None (Some ESCALATE)
    (Some "No decision tree for issue type") None None.

Definition unmatchedReply : ActionResult :=
  mkActionResult None (Some ESCALATE)
    (Some "Decision tree did not match") None None.

(** The first statements of [handleIssue]: count the issue, store it
    with [resolved: false], log it. *)
Definition recordIssue (amb : Ambient) (issue : Issue) (g : Engine) : Engine :=
  let g := with_stats inc_issuesDetected g in
  let d := spread issue in
  let g :=
    with_env
      (with_AGENT_STATE
         (insert (issueKey (issue_id issue))
            (VIssue (mkIssueDoc (doc_id d) (doc_type d) (doc_severity d)
                       (doc_description d) (doc_context d)
                       (Some (isoNow amb)) (Some false)
                       (resolvedAt d) (resolution d) (retryScheduledAt d)
                       (retryDelay d) (escalated d))))) g in
  with_env
    (logEvent amb "info" "issue_detected"
       [("issueId", issue_id issue);
        ("type", IssueType_value (issue_type issue));
        ("severity", pretty (Severity_value (issue_severity issue)))]) g.

(** [handleIssue(issue)]. *)
Definition handleIssue (amb : Ambient) (issue : Issue) (g : Engine)
  : Engine * ActionResult :=
  let g := recordIssue amb issue g in
  match decisionTrees g (issue_type issue) with
  | None =>
      let g :=
        with_env
          (logEvent amb "warn" "no_decision_tree"
             [("type", IssueType_value (issue_type issue))]) g in
      (g, noTreeReply)
  | Some tree =>
      let r := evaluate tree (issue_context issue) in
      match matched r, result r with
      | true, Some act => (_executeAction amb issue act g, act)
      | _, _ => (g, unmatchedReply)
      end
  end.

(** The message of a queue delivery. *)
Record Message := mkMessage {
  msg_id : string;
  msg_body : string;
  msg_retryCount : N
}.

Definition deadLetterIssue (amb : Ambient) (m : Message) : Issue :=
  mkIssue (Helpers.generateId "issue" amb) DEAD_LETTER MEDIUM
    ("Dead letter message: " +:+ msg_id m)
    (mkCtx None None None None None None None
           (Some (msg_id m)) (Some (msg_body m)) (Some (msg_retryCount m))).

(** [handleDeadLetter(message)]; the reply of [handleIssue] is dropped. *)
Definition handleDeadLetter (amb : Ambient) (m : Message) (g : Engine) : Engine :=
  fst (handleIssue amb (deadLetterIssue amb m) g).

(** The issue that [_scanForJobIssues] pushes for a failed job. *)
Definition jobFailureIssue (amb : Ambient) (job : Job) : Issue :=
  mkIssue (Helpers.generateId "issue" amb) JOB_FAILURE
    (if String.eqb (job_type job) "critical" then HIGH else MEDIUM)
    ("Job " +:+ job_id job +:+ " failed: " +:+ default "null" (job_error job))
    (mkCtx (Some (job_id job)) (Some (job_type job)) (Some (attempts job))
           None (job_error job) None None None None None).

End SelfHealingEngine.

(* ===================================================================== *)
(** ** HTTP replies *)
(* ===================================================================== *)

(** [Response.json(body, { status })] and [createResponse(body, status)]:
    the status code and the members of the JSON body. *)
Record Response := mkResponse {
  http_status : N;
  http_body : list (string * string)
}.

Definition is_error (r : Response) : bool := 400 <=? http_status r.

(* ===================================================================== *)
(** ** The SelfHealer Durable Object (first part of index.js) *)
(* ===================================================================== *)

Module SelfHealer.

Record HIssue := mkHIssue {
  h_id : string;
  h_type : option string;
  h_context : option string;
  h_resolved : bool;
  h_escalated : bool;
  h_escalatedAt : option string;
  h_escalationReason : option string;
  h_resolution : option string
}.

Record HLearning := mkHLearning {
  l_id : string;
  l_issueType : option string;
  l_outcome : string;
  l_context : option string;
  l_resolution : option string;
  l_createdAt : string
}.

Inductive Stored :=
  | SIssue (i : HIssue)
  | SLearning (l : HLearning)
  | SText (s : string).

(** [createLearning(issue, outcome)]. *)
Definition createLearning (amb : Ambient) (issue : HIssue) (out : string)
  (st : gmap string Stored) : gmap string Stored :=
  let learningId := "learning_" +:+ pretty (msNow amb) in
  <[ "learning:" +:+ learningId :=
       SLearning (mkHLearning learningId (h_type issue) out (h_context issue)
                              (h_resolution issue) (isoNow amb)) ]> st.

(** [escalateIssue(request)] with body [{ issueId, reason }]. *)
Definition escalateIssue (amb : Ambient) (issueId : string)
  (reason : option string) (st : gmap string Stored)
  : gmap string Stored * Response :=
  match st !! ("issue:" +:+ issueId) with
  | Some (SIssue issue) =>
      let issue' :=
        mkHIssue (h_id issue) (h_type issue) (h_context issue)
                 (h_resolved issue) true (Some (isoNow amb)) reason
                 (h_resolution issue) in
      let st1 := <[ "issue:" +:+ issueId := SIssue issue' ]> st in
      (createLearning amb issue' "escalated" st1,
       mkResponse 200 [("ok", "true")])
  | _ => (st, mkResponse 404 [("error", "Issue not found")])
  end.

End SelfHealer.

(* ===================================================================== *)
(** ** The JobOrchestrator Durable Object (first part of index.js) *)
(* ===================================================================== *)

Module JobOrchestrator.

(** A job document of the orchestrator's storage; instants are
    milliseconds. *)
Record OJob := mkOJob {
  o_id : string;
  o_type : string;
  o_priority : N;
  o_status : JobState;
  o_scheduledFor : N;
  o_attempts : N;
  o_maxAttempts : N;
  o_startedAt : option N;
  o_cancelledAt : option N;
  o_completedAt : option N;
  o_result : option string;
  o_error : option string
}.

Inductive Stored :=
  | SJob (j : OJob)
  | SInstant (t : N).

Definition jobKey (id : string) : string := "job:" +:+ id.

Definition getJob (id : string) (st : gmap string Stored) : option OJob :=
  match st !! jobKey id with
  | Some (SJob j) => Some j
  | _ => None
  end.

Definition notFound : Response := mkResponse 404 [("error", "Job not found")].

(** [cancelJob(request)] with body [{ jobId }]. *)
Definition cancelJob (amb : Ambient) (jobId : string) (st : gmap string Stored)
  : gmap string Stored * Response :=
  match getJob jobId st with
  | None => (st, notFound)
  | Some job =>
      if JobState_eqb (o_status job) RUNNING
      then (st, mkResponse 400 [("error", "Cannot cancel running job")])
      else
        let job' :=
          mkOJob (o_id job) (o_type job) (o_priority job) CANCELLED
                 (o_scheduledFor job) (o_attempts job) (o_maxAttempts job)
                 (o_startedAt job) (Some (msNow amb)) (o_completedAt job)
                 (o_result job) (o_error job) in
        (<[ jobKey jobId := SJob job' ]> st, mkResponse 200 [("ok", "true")])
  end.

(** [runJob(request)] with body [{ jobId }], up to the point where it
    hands [executeJob] to [waitUntil]. *)
Definition runJob (amb : Ambient) (jobId : string) (st : gmap string Stored)
  : gmap string Stored * Response :=
  match getJob jobId st with
  | None => (st, notFound)
  | Some job =>
      let job' :=
        mkOJob (o_id job) (o_type job) (o_priority job) RUNNING
               (o_scheduledFor job) (o_attempts job + 1) (o_maxAttempts job)
               (Some (msNow amb)) (o_cancelledAt job) (o_completedAt job)
               (o_result job) (o_error job) in
      (<[ jobKey jobId := SJob job' ]> st, mkResponse 200 [("status", "started")])
  end.

(** [executeJob(jobId)]; [work] is the outcome of the body of its [try]
    (the simulated work of the source always returns). *)
Definition executeJob (amb : Ambient) (work : Outcome unit) (jobId : string)
  (st : gmap string Stored) : gmap string Stored :=
  match getJob jobId st with
  | None => st
  | Some job =>
      let job' :=
        match work with
        | Returned _ =>
            mkOJob (o_id job) (o_type job) (o_priority job) COMPLETED
                   (o_scheduledFor job) (o_attempts job) (o_maxAttempts job)
                   (o_startedAt job) (o_cancelledAt job) (Some (msNow amb))
                   (Some "{success:true}") (o_error job)
        | Thrown msg =>
            mkOJob (o_id job) (o_type job) (o_priority job)
                   (if o_maxAttempts job <=? o_attempts job then FAILED else PENDING)
                   (o_scheduledFor job) (o_attempts job) (o_maxAttempts job)
                   (o_startedAt job) (o_cancelledAt job) (o_completedAt job)
                   (o_result job) (Some msg)
        end in
      <[ "lastJobRun" := SInstant (msNow amb) ]>
        (<[ jobKey jobId := SJob job' ]> st)
  end.

(** One iteration of the loop of [alarm] over the listed entries.  Each
    iteration reads the clock for its test, and an executed job reads it
    again when it completes, after its timer: [tick key] and [done key]
    are what the iteration for the entry under [key] reads at these two
    moments. *)
Definition alarmStep (tick done : string -> Ambient) (work : Outcome unit)
  (st : gmap string Stored) (entry : string * Stored) : gmap string Stored :=
  match entry with
  | (key, SJob job) =>
      if JobState_eqb (o_status job) PENDING
         && (o_scheduledFor job <=? msNow (tick key))
      then executeJob (done key) work (o_id job) st
      else st
  | (_, SInstant _) => st
  end.

(** [alarm()]: the entries are listed once, before the loop. *)
Definition alarm (tick done : string -> Ambient) (work : Outcome unit)
  (st : gmap string Stored) : gmap string Stored :=
  foldl (alarmStep tick done work) st
    (filter (fun kv => JS.startsWith "job:" (fst kv)) (map_to_list st)).

End JobOrchestrator.

(* ===================================================================== *)
(** ** The API worker: [cancelJob] of the DELETE /api/jobs/:id route *)
(* ===================================================================== *)

Module Api.

(** [cancelJob(jobId, env)]: deletes the document, whatever its status. *)
Definition cancelJob (jobId : string) (e : Env) : Env * Response :=
  (with_JOB_QUEUE (delete jobId) e,
   mkResponse 200 [("status", "cancelled"); ("jobId", jobId)]).

End Api.

(* ===================================================================== *)
(** ** The agent-jobs worker: [processJob] and [retryStrategy] *)
(* ===================================================================== *)

Module Worker.

Record WJob := mkWJob {
  w_id : string;
  w_type : string;
  w_state : JobState;
  w_attempts : N;
  w_maxAttempts : N;
  w_healingAttempts : N;
  w_startedAt : option string;
  w_completedAt : option string;
  w_result : option string;
  w_lastError : option string;
  w_escalatedAt : option string
}.

(** What one call of [processJob] leaves behind: the job object after
    its in-place updates, every document handed to [saveJobToKV] (oldest
    first, the healing jobs of [attemptSelfHealing] included), every
    delay handed to [sleep] (those of the [retryStrategy] that
    [attemptSelfHealing] runs included), the number of executions of a
    job body so far, and how the call ended. *)
Record Run := mkRun {
  final : WJob;
  saved : list WJob;
  slept : list N;
  executions : nat;
  ended : Outcome string
}.

(** The delay of the auto-retry branch. *)
Definition retryDelay (job : WJob) : N := 2 ^ w_attempts job * 1000.

(** The [delays] of [retryStrategy]. *)
Definition delays : list N := [2000; 4000; 8000; 16000].

Definition retryablePatterns : list string :=
  ["rate limit"; "timeout"; "network"; "ECONNRESET"; "502"; "503"; "504"].

Section WithCollaborators.

(** [work k]: the outcome of the [switch] over the job type in the
    execution number [k].  [healed job]: whether the strategy that
    [attemptSelfHealing] picks for an error that is not retryable
    ([fallbackStrategy] for the types repo_sync and cohesiveness_check,
    [quantumJumpStrategy] for the others) returned; both return an
    object, which is truthy, and when they throw [attemptSelfHealing]
    returns false.  [toLowerCase]: the string method of that name.
    [uuid k]: the [crypto.randomUUID()] drawn after execution [k]. *)
Variable work : nat -> Outcome string.
Variable healed : WJob -> bool.
Variable amb : Ambient.
Variable toLowerCase : string -> string.
Variable uuid : nat -> string.

Definition start (job : WJob) : WJob :=
  mkWJob (w_id job) (w_type job) RUNNING (w_attempts job + 1)
         (w_maxAttempts job) (w_healingAttempts job) (Some (isoNow amb))
         (w_completedAt job) (w_result job) (w_lastError job)
         (w_escalatedAt job).

Definition complete (r : string) (job : WJob) : WJob :=
  mkWJob (w_id job) (w_type job) COMPLETED (w_attempts job)
         (w_maxAttempts job) (w_healingAttempts job) (w_startedAt job)
         (Some (isoNow amb)) (Some r) (w_lastError job) (w_escalatedAt job).

Definition healing_retry (msg : string) (job : WJob) : WJob :=
  mkWJob (w_id job) (w_type job) HEALING (w_attempts job)
         (w_maxAttempts job) (w_healingAttempts job) (w_startedAt job)
         (w_completedAt job) (w_result job) (Some msg) (w_escalatedAt job).

Definition healing_exhausted (job : WJob) : WJob :=
  mkWJob (w_id job) (w_type job) HEALING (w_attempts job)
         (w_maxAttempts job) (w_healingAttempts job + 1) (w_startedAt job)
         (w_completedAt job) (w_result job) (w_lastError job)
         (w_escalatedAt job).

Definition escalate (job : WJob) : WJob :=
  mkWJob (w_id job) (w_type job) ESCALATED (w_attempts job)
         (w_maxAttempts job) (w_healingAttempts job) (w_startedAt job)
         (w_completedAt job) (w_result job) (w_lastError job)
         (Some (isoNow amb)).

(** [isRetryableError(error)] on the message of the error. *)
Definition isRetryableError (msg : string) : bool :=
  existsb (fun pattern => JS.includes (toLowerCase msg) (toLowerCase pattern))
          retryablePatterns.

(** The healing job that [attemptSelfHealing] saves first, with the
    members that [WJob] keeps ([config] and [createdAt] are not among
    them, for this job as for the others). *)
Definition healingJob (k : nat) : WJob :=
  mkWJob (uuid k) "self_heal" RUNNING 0 3 0 None None None None None.

(** [attemptSelfHealing(error, env, { jobId, type })] as [processJob]
    calls it: whether its result is truthy, and the saves and sleeps
    after it.  The context has no [job] member, so for a retryable
    error the loop of [retryStrategy] executes nothing and sleeps each
    of its delays, and its result object is truthy. *)
Definition attemptSelfHealing (msg : string) (job : WJob) (k : nat)
  (sv : list WJob) (sl : list N) : bool * list WJob * list N :=
  let sv1 := sv ++ [healingJob k] in
  if isRetryableError msg then (true, sv1, sl ++ delays)
  else (healed job, sv1, sl).

(** [processJob(job, env, ctx)]; [fuel] bounds the depth of the
    recursive call of the auto-retry branch. *)
Fixpoint processJobFrom (fuel : nat) (job : WJob) (k : nat)
  (sv : list WJob) (sl : list N) : option Run :=
  match fuel with
  | O => None
  | S fuel' =>
      let job1 := start job in
      let sv1 := sv ++ [job1] in
      match work k with
      | Returned r =>
          let job2 := complete r job1 in
          Some (mkRun job2 (sv1 ++ [job2]) sl (S k) (Returned r))
      | Thrown msg =>
          if w_attempts job1 <? w_maxAttempts job1 then
            let job2 := healing_retry msg job1 in
            processJobFrom fuel' job2 (S k) (sv1 ++ [job2])
                           (sl ++ [retryDelay job2])
          else
            let job2 := healing_exhausted job1 in
            let sv2 := sv1 ++ [job2] in
            let '(ok, sv3, sl3) := attemptSelfHealing msg job2 k sv2 sl in
            if ok then Some (mkRun job2 sv3 sl3 (S k) (Thrown msg))
            else
              let job3 := escalate job2 in
              Some (mkRun job3 (sv3 ++ [job3]) sl3 (S k) (Thrown msg))
      end
  end.

(** The recursion stops once [attempts] reaches [maxAttempts]. *)
Definition enough (job : WJob) : nat :=
  S (N.to_nat (w_maxAttempts job - w_attempts job)).

Definition processJob (job : WJob) (k : nat) : option Run :=
  processJobFrom (enough job) job k [] [].

Definition resetAttempts (job : WJob) : WJob :=
  mkWJob (w_id job) (w_type job) (w_state job) 0
         (w_maxAttempts job) (w_healingAttempts job) (w_startedAt job)
         (w_completedAt job) (w_result job) (w_lastError job)
         (w_escalatedAt job).

Record StrategyResult := mkStrategyResult {
  sr_success : bool;
  sr_attempts : nat
}.

(** The loop of [retryStrategy(context, env)] over [delays]; [i] is the
    loop variable, [job] is [context.job].  The result carries the job
    object, the saved documents, the sleeps and the execution count. *)
Fixpoint retryLoop (ds : list N) (i : nat) (job : option WJob) (k : nat)
  (sv : list WJob) (sl : list N)
  : option (StrategyResult * option WJob * list WJob * list N * nat) :=
  match ds with
  | [] => Some (mkStrategyResult false (length delays), job, sv, sl, k)
  | d :: rest =>
      let sl1 := sl ++ [d] in
      match job with
      | None => retryLoop rest (S i) None k sv sl1
      | Some j =>
          match processJobFrom (enough (resetAttempts j)) (resetAttempts j)
                               k sv sl1 with
          | None => None
          | Some run =>
              match ended run with
              | Returned _ =>
                  Some (mkStrategyResult true (S i), Some (final run),
                        saved run, slept run, executions run)
              | Thrown _ =>
                  retryLoop rest (S i) (Some (final run)) (executions run)
                            (saved run) (slept run)
              end
          end
      end
  end.

Definition retryStrategy (job : option WJob) (k : nat) :=
  retryLoop delays 0 job k [] [].

End WithCollaborators.

End Worker.

(* ===================================================================== *)
(** ** The engine's status and scans *)
(* ===================================================================== *)

Module EngineScan.

(** [getActiveIssues()]: the documents under the [issue:] prefix whose
    [resolved] member is falsy, each with the key it was listed under.
    The order of the KV listing is not modelled. *)
Definition getActiveIssues (e : Env) : list (string * IssueDoc) :=
  omap (fun kv : string * StateValue =>
          match kv with
          | (k, VIssue d) =>
              if JS.startsWith "issue:" k && negb (truthy_bool (resolved d))
              then Some (k, d) else None
          | _ => None
          end)
       (map_to_list (AGENT_STATE e)).

(** [{ id: key.name, ...issue }]: the [id] member of a listed issue. *)
Definition listedId (entry : string * IssueDoc) : string :=
  default (fst entry) (doc_id (snd entry)).

Record Status := mkStatus {
  healthy : bool;
  status_stats : SelfHealingEngine.Stats;
  activeIssues : nat;
  lastScan : option StateValue
}.

(** [getStatus()]. *)
Definition getStatus (g : SelfHealingEngine.Engine) : Status :=
  let active := getActiveIssues (SelfHealingEngine.env g) in
  mkStatus (Nat.eqb (length active) 0) (SelfHealingEngine.stats g)
           (length active)
           (AGENT_STATE (SelfHealingEngine.env g) !! "last_heal_scan").

(** [_scanForJobIssues()]: one issue per listed job whose status is
    'failed'; [ambOf k] is what the iteration for key [k] reads from its
    surroundings. *)
Definition _scanForJobIssues (ambOf : string -> Ambient) (e : Env) : list Issue :=
  omap (fun kv : string * Job =>
          if JobState_eqb (status (snd kv)) FAILED
          then Some (SelfHealingEngine.jobFailureIssue (ambOf (fst kv)) (snd kv))
          else None)
       (map_to_list (JOB_QUEUE e)).

(** The drift score and the severity that [_scanForCohesionIssues]
    computes from the stored list of inconsistencies; nothing is pushed
    for a missing or empty list. *)
Definition cohesionDrift {A} (cohesionData : option (list A))
  : option (N * Severity) :=
  match cohesionData with
  | Some (x :: rest) =>
      let driftScore := N.of_nat (length (x :: rest)) * 10 in
      Some (driftScore, if 50 <=? driftScore then HIGH else MEDIUM)
  | _ => None
  end.

(** The severity that [handleCronFailure] gives the issue it reports,
    from the updated failure count. *)
Definition cronSeverity (count : N) : Severity :=
  if 3 <=? count then HIGH else LOW.

Record ScanResults := mkScanResults {
  issuesFound : nat;
  actionsTaken : list ActionResult
}.

(** The three loops of [runFullScan]: every found issue goes through
    [handleIssue], whose reply is appended to the actions. *)
Fixpoint handleAll (issues : list (Ambient * Issue))
  (g : SelfHealingEngine.Engine) (acts : list ActionResult)
  : SelfHealingEngine.Engine * list ActionResult :=
  match issues with
  | [] => (g, acts)
  | (amb, issue) :: rest =>
      let (g1, act) := SelfHealingEngine.handleIssue amb issue g in
      handleAll rest g1 (acts ++ [act])
  end.

(** [runFullScan()], the results of the three scans given: [jobIssues],
    [syncIssues] and [cohesionIssues], each issue with the surroundings
    of its [handleIssue] call; [t0] and [t1] are the surroundings at the
    start and at the end. *)
Definition runFullScan (t0 t1 : Ambient)
  (jobIssues syncIssues cohesionIssues : list (Ambient * Issue))
  (g : SelfHealingEngine.Engine) : SelfHealingEngine.Engine * ScanResults :=
  let g := SelfHealingEngine.with_env
             (logEvent t0 "info" "heal_scan_started" []) g in
  let (g, acts) := handleAll jobIssues g [] in
  let (g, acts) := handleAll syncIssues g acts in
  let (g, acts) := handleAll cohesionIssues g acts in
  let found := (length jobIssues + length syncIssues
                + length cohesionIssues)%nat in
  let g := SelfHealingEngine.with_env
             (with_AGENT_STATE (insert "last_heal_scan" (VText (isoNow t1)))) g in
  let g := SelfHealingEngine.with_env
             (logEvent t1 "info" "heal_scan_completed"
                [("issuesFound", pretty found)]) g in
  (g, mkScanResults found acts).

End EngineScan.

(* ===================================================================== *)
(** ** The repo sync manager: [analyzeTree] and [analyzeCohesion] *)
(* ===================================================================== *)

Module RepoSyncManager.

(** An entry of a git tree listing. *)
Record TreeItem := mkItem {
  item_path : string;
  item_type : string
}.

(** A member of [filesByType]: a count, or the text that [+ 1] made of
    a value that was not a number. *)
Inductive TableValue :=
  | Count (n : N)
  | Text (s : string).

(** [filesByType] starts as the object literal [{}]; the map holds its
    own properties. *)
Record TreeAnalysis := mkTreeAnalysis {
  totalFiles : N;
  totalDirs : N;
  watchedFiles : list string;
  filesByType : gmap string TableValue
}.

(** The character '.'. *)
Definition dot : Ascii.ascii := Ascii.ascii_of_nat 46.

(** [path.split('.').pop()]: what follows the last dot, or the whole
    path when it has no dot. *)
Fixpoint lastSegment (s : string) : string :=
  match s with
  | EmptyString => EmptyString
  | String c t =>
      if JS.includes t "." then lastSegment t
      else if Ascii.eqb c dot then t
      else String c t
  end.

(** [path.split('.').pop() || 'none']. *)
Definition extension (p : string) : string :=
  orS (Some (lastSegment p)) "none".

(** The loop over [watchPatterns] with its [break]: whether some pattern
    matches the path. *)
Fixpoint watched (p : string) (watchPatterns : list string) : bool :=
  match watchPatterns with
  | [] => false
  | pat :: rest =>
      if JS.startsWith pat p || JS.includes p pat then true
      else watched p rest
  end.

Section WithPrototype.

(** [filesByType] inherits from [Object.prototype]: for a name that
    [Object.prototype] has ("constructor", "toString", ...),
    [inherited name] is the text that the member gives when a number is
    added to it. *)
Variable inherited : string -> option string.

(** [(filesByType[ext] || 0) + 1]: an own count is incremented; a
    missing member counts from 0; an own text, and an inherited member,
    is truthy and gets "1" appended. *)
Definition plusOne (tbl : gmap string TableValue) (ext : string) : TableValue :=
  match tbl !! ext with
  | Some (Count n) => Count (orN (Some n) 0 + 1)
  | Some (Text s) => if String.eqb s "" then Count 1 else Text (s +:+ "1")
  | None =>
      match inherited ext with
      | Some text => Text (text +:+ "1")
      | None => Count 1
      end
  end.

(** [filesByType[ext] = v]: the name [__proto__] is the accessor of
    [Object.prototype], whose setter ignores a value that is not an
    object; every other name becomes an own property. *)
Definition assign (tbl : gmap string TableValue) (ext : string)
  (v : TableValue) : gmap string TableValue :=
  if String.eqb ext "__proto__" then tbl else <[ ext := v ]> tbl.

(** The body of the loop of [analyzeTree] for one item. *)
Definition analyzeItem (watchPatterns : list string)
  (a : TreeAnalysis) (item : TreeItem) : TreeAnalysis :=
  if String.eqb (item_type item) "blob" then
    let ext := extension (item_path item) in
    mkTreeAnalysis
      (totalFiles a + 1) (totalDirs a)
      (if watched (item_path item) watchPatterns
       then watchedFiles a ++ [item_path item] else watchedFiles a)
      (assign (filesByType a) ext (plusOne (filesByType a) ext))
  else if String.eqb (item_type item) "tree" then
    mkTreeAnalysis (totalFiles a) (totalDirs a + 1) (watchedFiles a)
                   (filesByType a)
  else a.

(** [analyzeTree(tree, watchPatterns)]. *)
Definition analyzeTree (tree : list TreeItem) (watchPatterns : list string)
  : TreeAnalysis :=
  fold_left (analyzeItem watchPatterns) tree (mkTreeAnalysis 0 0 [] ∅).

End WithPrototype.

(** The [patterns] member of a cached scrape, by category. *)
Record Patterns := mkPatterns {
  p_configs : option (list string);
  p_trinity : option (list string);
  p_types : option (list string);
  p_docs : option (list string)
}.

(** A cached scrape, with the member that [analyzeCohesion] reads. *)
Record Scrape := mkScrape {
  scrape_patterns : option Patterns
}.

Record Inconsistency := mkInconsistency {
  inc_type : string;
  inc_severity : string;
  inc_message : string;
  inc_repos : list string
}.

Record Recommendation := mkRecommendation {
  rec_type : string;
  rec_message : string;
  rec_repos : list string
}.

Record CohesionAnalysis := mkCohesionAnalysis {
  inconsistencies : list Inconsistency;
  recommendations : list Recommendation;
  cohesionScore : N
}.

(** [data.patterns?.<category>?.length > 0]. *)
Definition hasFiles (category : Patterns -> option (list string))
  (data : Scrape) : bool :=
  match scrape_patterns data with
  | Some p => match category p with Some (_ :: _) => true | _ => false end
  | None => false
  end.

(** [s.endsWith(suffix)]. *)
Definition endsWith (s suffix : string) : bool :=
  (String.length suffix <=? String.length s)%nat
  && String.eqb
       (String.substring (String.length s - String.length suffix)
                         (String.length suffix) s)
       suffix.

(** [data.patterns?.configs?.some(f => f.endsWith('package.json'))]. *)
Definition hasPackageJson (data : Scrape) : bool :=
  match scrape_patterns data with
  | Some p =>
      match p_configs p with
      | Some fs => existsb (fun f => endsWith f "package.json") fs
      | None => false
      end
  | None => false
  end.

(** [repoData[repo]] on the entries of the object. *)
Fixpoint repoOf (repoData : list (string * Scrape)) (repo : string)
  : option Scrape :=
  match repoData with
  | [] => None
  | (name, data) :: rest =>
      if String.eqb name repo then Some data else repoOf rest repo
  end.

(** [Object.keys(repoData).filter(repo =>
     !repoData[repo].patterns?.<category>?.length)]. *)
Definition reposWithout (category : Patterns -> option (list string))
  (repoData : list (string * Scrape)) : list string :=
  List.filter
    (fun repo => match repoOf repoData repo with
                 | Some data => negb (hasFiles category data)
                 | None => true
                 end)
    (map fst repoData).

(** [analyzeCohesion(repoData)]; [repoData] is the list of the entries
    of the object, in insertion order. *)
Definition analyzeCohesion (repoData : list (string * Scrape))
  : CohesionAnalysis :=
  let a := mkCohesionAnalysis [] [] 100 in
  let trinityRepos := List.filter (fun kv => hasFiles p_trinity (snd kv)) repoData in
  let a :=
    if (0 <? length trinityRepos)%nat
       && (length trinityRepos <? length (map fst repoData))%nat
    then mkCohesionAnalysis
           (inconsistencies a ++
              [mkInconsistency "missing_trinity" "medium"
                 "Some repos missing Trinity system files"
                 (reposWithout p_trinity repoData)])
           (recommendations a) (cohesionScore a - 10)
    else a in
  let packageJsonRepos := List.filter (fun kv => hasPackageJson (snd kv)) repoData in
  let a :=
    if (1 <? length packageJsonRepos)%nat
    then mkCohesionAnalysis (inconsistencies a)
           (recommendations a ++
              [mkRecommendation "verify_dependencies"
                 "Multiple repos with package.json - verify dependency versions are aligned"
                 (map fst packageJsonRepos)])
           (cohesionScore a)
    else a in
  let reposWithoutDocs := reposWithout p_docs repoData in
  let a :=
    if (0 <? length reposWithoutDocs)%nat
    then mkCohesionAnalysis
           (inconsistencies a ++
              [mkInconsistency "missing_docs" "low"
                 "Some repos missing documentation" reposWithoutDocs])
           (recommendations a) (cohesionScore a - 5)
    else a in
  let reposWithTypes := List.filter (fun kv => hasFiles p_types (snd kv)) repoData in
  if (1 <? length reposWithTypes)%nat
  then mkCohesionAnalysis (inconsistencies a)
         (recommendations a ++
            [mkRecommendation "shared_types"
               "Multiple repos with type definitions - consider consolidating"
               (map fst reposWithTypes)])
         (cohesionScore a)
  else a.

End RepoSyncManager.

(* ===================================================================== *)
(** ** The quick self-heal of the scheduler: re-queueing failed jobs *)
(* ===================================================================== *)

Module QuickSelfHeal.

Record Results := mkResults {
  issues_detected : N;
  issues_resolved : N;
  actions : list (string * string)
}.

(** The test of the first loop of [runQuickSelfHeal]. *)
Definition retryable (job : Job) : bool :=
  JobState_eqb (status job) FAILED && (attempts job <? maxAttempts job).

Definition toPending : JobScheduler.Updates :=
  JobScheduler.mkUpdates (Some PENDING) None None None.

(** The body of the first loop of [runQuickSelfHeal] for one listed key:
    the job is read again, and a failed job below its limit is set back
    to pending. *)
Definition retryStep (amb : Ambient) (acc : Env * Results) (key : string)
  : Env * Results :=
  let (e, r) := acc in
  match JOB_QUEUE e !! key with
  | Some job =>
      if retryable job then
        match JobScheduler.updateJob amb key toPending e with
        | (e1, Returned _) =>
            (e1, mkResults (issues_detected r + 1) (issues_resolved r + 1)
                   (actions r ++ [("retry_job", key)]))
        | (e1, Thrown msg) =>
            (e1, mkResults (issues_detected r + 1) (issues_resolved r)
                   (actions r ++ [("retry_failed", key)]))
        end
      else (e, r)
  | None => (e, r)
  end.

(** The first loop of [runQuickSelfHeal]: the keys of JOB_QUEUE are
    listed once, before the loop. *)
Definition retryFailedJobs (amb : Ambient) (e : Env) : Env * Results :=
  foldl (retryStep amb) (e, mkResults 0 0 [])
        (map fst (map_to_list (JOB_QUEUE e))).

End QuickSelfHeal.


(* ===================================================================== *)
(** ** The orchestrator's [getStatus] and [listJobs] *)
(* ===================================================================== *)

Module OrchestratorStatus.

Import JobOrchestrator.

(** [storage.list({ prefix: 'job:' })]; the order of the listing is not
    modelled. *)
Definition list_jobs (st : gmap string Stored) : list (string * Stored) :=
  filter (fun kv => JS.startsWith "job:" (fst kv)) (map_to_list st).

(** [j.status === s] on a listed value. *)
Definition hasStatus (s : JobState) (v : Stored) : bool :=
  match v with
  | SJob j => JobState_eqb (o_status j) s
  | SInstant _ => false
  end.

(** [listJobs()]: the listed values. *)
Definition listJobs (st : gmap string Stored) : list Stored :=
  map snd (list_jobs st).

Record Status := mkStatus {
  totalJobs : nat;
  pending : nat;
  running : nat;
  completed : nat;
  failed : nat;
  lastRun : option Stored
}.

(** [getStatus()]. *)
Definition getStatus (st : gmap string Stored) : Status :=
  let jobs := listJobs st in
  mkStatus (length jobs)
           (length (List.filter (hasStatus PENDING) jobs))
           (length (List.filter (hasStatus RUNNING) jobs))
           (length (List.filter (hasStatus COMPLETED) jobs))
           (length (List.filter (hasStatus FAILED) jobs))
           (st !! "lastJobRun").

End OrchestratorStatus.

(* ===================================================================== *)
(** ** helpers.js: [truncate] *)
(* ===================================================================== *)

Module HelpersText.

(** [str.substring(0, end)]: a negative [end] counts as 0 and one beyond
    the length as the length. *)
Definition substring0 (end_ : Z) (str : string) : string :=
  String.substring 0 (Z.to_nat end_) str.

(** [truncate(str, maxLength = 100)]. *)
Definition truncate (str : string) (maxLength : Z) : string :=
  if (Z.of_nat (String.length str) <=? maxLength)%Z then str
  else substring0 (maxLength - 3) str +:+ "...".

Definition defaultMaxLength : Z := 100.

End HelpersText.

(* ===================================================================== *)
(** ** The API worker: the jobs routes and the queue consumer *)
(* ===================================================================== *)

Module ApiJobs.

(** The reply of a jobs route: the status code and either the job
    document of the body or its [error] member. *)
Record JobReply := mkJobReply {
  reply_status : N;
  reply_job : option Job;
  reply_error : option string
}.

(** [getJob(jobId, env)]; in [{ id: jobId, ...job }] the [id] of the
    stored document wins. *)
Definition getJob (jobId : string) (e : Env) : JobReply :=
  match JOB_QUEUE e !! jobId with
  | None => mkJobReply 404 None (Some "Job not found")
  | Some job => mkJobReply 200 (Some job) None
  end.

(** [createJob(request, env)] with the parsed body. *)
Definition createJob (amb : Ambient) (body : JobScheduler.Options) (e : Env)
  : Env * JobReply :=
  let out := JobScheduler.createJob amb body e in
  (fst out, mkJobReply 201 (Some (snd out)) None).

End ApiJobs.

Module QueueConsumer.

(** How the consumer settles a message. *)
Inductive Settlement := Ack | Retry.

Section WithRunner.

(** [run]: the built-in job bodies of the scheduler; [jobOf m]: the job
    data that [processQueuedJob] reads from [message.body]. *)
Variable run : Job -> Env -> Env * Outcome string.
Variable jobOf : SelfHealingEngine.Message -> Job.

(** The body of the loop of [queue(batch, env, ctx)] for one message. *)
Definition deliver (amb : Ambient) (m : SelfHealingEngine.Message) (e : Env)
  : Env * Settlement :=
  match JobScheduler.processQueuedJob run amb (jobOf m) e with
  | (e1, Returned _) => (e1, Ack)
  | (e1, Thrown err) =>
      let e2 :=
        logEvent amb "error" "queue_error"
          [("messageId", SelfHealingEngine.msg_id m); ("error", err)] e1 in
      if SelfHealingEngine.msg_retryCount m <? 3 then (e2, Retry)
      else
        (SelfHealingEngine.env
           (SelfHealingEngine.handleDeadLetter amb m
              (SelfHealingEngine.constructor e2)),
         Ack)
  end.

(** [queue(batch, env, ctx)]: the messages in order, each with what its
    iteration reads from its surroundings. *)
Definition queue (batch : list (Ambient * SelfHealingEngine.Message)) (e : Env)
  : Env * list Settlement :=
  foldl (fun acc am =>
           let out := deliver (fst am) (snd am) (fst acc) in
           (fst out, snd acc ++ [snd out]))
        (e, []) batch.

End WithRunner.

End QueueConsumer.

(* ===================================================================== *)
(** ** The SelfHealer Durable Object: [getStatus] and the listings *)
(* ===================================================================== *)

Module SelfHealerStatus.

Import SelfHealer.

(** [storage.list({ prefix })]; the order of the listing is not
    modelled. *)
Definition listPrefix (prefix : string) (st : gmap string Stored)
  : list (string * Stored) :=
  filter (fun kv => JS.startsWith prefix (fst kv)) (map_to_list st).

(** [i.resolved] and [i.escalated] on a listed value. *)
Definition isResolved (v : Stored) : bool :=
  match v with
  | SIssue i => h_resolved i
  | _ => false
  end.

Definition isEscalated (v : Stored) : bool :=
  match v with
  | SIssue i => h_escalated i
  | _ => false
  end.

(** [listIssues()] and [getLearnings()]. *)
Definition listIssues (st : gmap string Stored) : list Stored :=
  snd <$> listPrefix "issue:" st.

Definition getLearnings (st : gmap string Stored) : list Stored :=
  snd <$> listPrefix "learning:" st.

Record Status := mkStatus {
  healthy : bool;
  activeIssues : nat;
  resolvedIssues : nat;
  escalatedIssues : nat;
  totalLearnings : nat;
  lastHealingRun : option Stored
}.

(** [getStatus()]. *)
Definition getStatus (st : gmap string Stored) : Status :=
  let issues := listIssues st in
  let active := filter (fun i => negb (isResolved i)) issues in
  let resolved := filter (fun i => isResolved i) issues in
  let escalated := filter (fun i => isEscalated i) issues in
  mkStatus (Nat.eqb (length active) 0) (length active) (length resolved)
           (length escalated) (length (listPrefix "learning:" st))
           (st !! "lastHealingRun").

End SelfHealerStatus.

(* ===================================================================== *)
(** ** [createJob] on an options object that nobody has validated *)
(* ===================================================================== *)

(** The values of a parsed JSON body.  The API worker hands the body of
    POST /api/jobs to [createJob] as it is, so a member of the options
    can be any of them. *)
Module Json.

(** A number literal parses to a double: a sign, a mantissa and a binary
    exponent, or an infinity when the literal overflows. *)
Inductive Number :=
  | Finite (negative : bool) (mantissa : N) (exponent : Z)
  | Infinite (negative : bool).

(** [Undefined] stands for a missing member; [Obj] for an object or an
    array, with the members that the model keeps. *)
Inductive Value :=
  | Undefined
  | Null
  | Bool (b : bool)
  | Num (x : Number)
  | Str (s : string)
  | Obj (members : list (string * string)).

(** The conversion to boolean of [||]. *)
Definition truthy (v : Value) : bool :=
  match v with
  | Undefined | Null => false
  | Bool b => b
  | Num (Finite _ m _) => negb (m =? 0)
  | Num (Infinite _) => true
  | Str s => negb (String.eqb s "")
  | Obj _ => true
  end.

(** [v || d]. *)
Definition or (v d : Value) : Value := if truthy v then v else d.

Definition ofN (n : N) : Value := Num (Finite false n 0).


End Json.

Module UntypedJobs.

Record RawOptions := mkRawOptions {
  raw_type : Json.Value;
  raw_priority : Json.Value;
  raw_payload : Json.Value;
  raw_maxAttempts : Json.Value
}.

(** The job document that [createJob] builds. *)
Record Document := mkDocument {
  d_id : string;
  d_type : Json.Value;
  d_status : JobState;
  d_priority : Json.Value;
  d_payload : Json.Value;
  d_createdAt : string;
  d_updatedAt : string;
  d_attempts : N;
  d_maxAttempts : Json.Value;
  d_result : option string;
  d_error : option string
}.

(** The object literal of [createJob(options)]. *)
Definition createJob (amb : Ambient) (options : RawOptions) : Document :=
  mkDocument (Helpers.generateId "job" amb)
             (Json.or (raw_type options) (Json.Str "custom"))
             PENDING
             (Json.or (raw_priority options) (Json.ofN 5))
             (Json.or (raw_payload options) (Json.Obj []))
             (isoNow amb) (isoNow amb)
             0
             (Json.or (raw_maxAttempts options) (Json.ofN 3))
             None None.



End UntypedJobs.
(* ===================================================================== *)
(** ** Vocabulary of the statements and sample inputs *)
(* ===================================================================== *)

(** [pat] occurs in [s]. *)
Definition contains (s pat : string) : Prop :=
  exists pre post, s = pre +:+ pat +:+ post.

Definition unmatched (ctx : Ctx) (c : DecisionNode) : Prop :=
  matched (evaluate c ctx) = false.

(** The action of [n] did not make [evaluate] return early: it is absent,
    it threw, or its result has a falsy [success]. *)
Definition no_success (n : DecisionNode) (ctx : Ctx) : Prop :=
  forall r, run_action (node_action n) ctx = Some r ->
            truthy_bool (success r) = false.

(** A matched evaluation carrying a successful action result. *)
Definition decided (a : HealingAction) (msg : string) (d : option JS.Number)
  : EvalResult :=
  mkEval true (Some (mkActionResult (Some true) (Some a) (Some msg) d None)).

(** The healing action that an evaluation selected, if any. *)
Definition action_of (r : EvalResult) : option HealingAction :=
  match result r with Some res => action res | None => None end.

(** [attempts < 3], as a number comparison on the context. *)
Definition few_attempts (ctx : Ctx) : Prop :=
  exists a, ctx_attempts ctx = Some a /\ a < 3.

(** [attempts >= 3] and [severity < CRITICAL]. *)
Definition exhausted_not_critical (ctx : Ctx) : Prop :=
  exists a s, ctx_attempts ctx = Some a /\ 3 <= a /\
              ctx_severity ctx = Some s /\ s < Severity_value CRITICAL.

Definition jobCtx (a : N) (s : Severity) : Ctx :=
  mkCtx None None (Some a) (Some (Severity_value s)) None None None None None None.

(** The error text of the context contains [pat]. *)
Definition error_contains (ctx : Ctx) (pat : string) : Prop :=
  exists e, ctx_error ctx = Some e /\ contains e pat.

Definition syncCtx (e : string) : Ctx :=
  mkCtx None None None None (Some e) None None None None None.

(** The last sentence of the algorithm as the specification words it: a
    node whose action did not succeed, with no matching child and no
    fallback, reports unmatched. *)
Definition unmatched_without_child_or_fallback : Prop :=
  forall n ctx,
    node_condition n ctx = true -> no_success n ctx ->
    Forall (unmatched ctx) (node_children n) -> node_fallback n = None ->
    matched (evaluate n ctx) = false.

(** A node whose action throws, without children or fallback. *)
Definition throwing_leaf : DecisionNode :=
  Node "throwing_leaf" always (Some (fun _ => Throws "boom")) [] None.

Definition someIssue : Issue :=
  mkIssue "issue_1" API_ERROR LOW "upstream failed" emptyCtx.

Definition someAmbient : Ambient :=
  mkAmbient "2024-01-01T00:00:00.000Z" 1704067200000 "lq1k_abc123".

Definition emptyEnv : Env := mkEnv ∅ ∅ ∅.

Definition cronIssue : Issue :=
  mkIssue "issue_2" CRON_FAILURE LOW "Cron failed" emptyCtx.

(** An issue of the cron-failure handler after three consecutive
    failures. *)
Definition cronIssue3 : Issue :=
  mkIssue "issue_3" CRON_FAILURE HIGH "Cron */5 * * * * failed: boom"
    (mkCtx None None None None (Some "boom") (Some 3) None None None None).

(** What a reply adds to [issuesResolved]. *)
Definition resolves (reply : ActionResult) : N :=
  match action reply with
  | Some SKIP | Some RESET => 1
  | _ => 0
  end.

(** A job-failure issue whose context carries a severity. *)
Definition exhaustedIssue : Issue :=
  mkIssue "issue_4" JOB_FAILURE MEDIUM "Job job_1 failed: boom"
    (jobCtx 3 MEDIUM).

Definition afterFirst : SelfHealingEngine.Engine :=
  fst (SelfHealingEngine.handleIssue someAmbient exhaustedIssue
         (SelfHealingEngine.constructor emptyEnv)).

Definition afterSecond : SelfHealingEngine.Engine :=
  fst (SelfHealingEngine.handleIssue someAmbient exhaustedIssue afterFirst).

(** The specification's rule for terminal states, for the two
    operations of the orchestrator that change a job's status on
    request: the operation is refused and the storage is unchanged. *)
Definition terminal_jobs_are_frozen : Prop :=
  forall amb id st job,
    JobOrchestrator.getJob id st = Some job ->
    terminal (JobOrchestrator.o_status job) = true ->
    (is_error (snd (JobOrchestrator.cancelJob amb id st)) = true /\
     fst (JobOrchestrator.cancelJob amb id st) = st) /\
    (is_error (snd (JobOrchestrator.runJob amb id st)) = true /\
     fst (JobOrchestrator.runJob amb id st) = st).

Definition completedJob : JobOrchestrator.OJob :=
  JobOrchestrator.mkOJob "job_7" "cron" 10 COMPLETED 1704067200000 1 3
    (Some 1704067200100) None (Some 1704067201100) (Some "{success:true}") None.

Definition runningJob : JobOrchestrator.OJob :=
  JobOrchestrator.mkOJob "job_8" "cron" 10 RUNNING 1704067200000 1 3
    (Some 1704067200100) None None None None.

Definition pendingJob : JobOrchestrator.OJob :=
  JobOrchestrator.mkOJob "job_9" "cron" 10 PENDING 1704067200000 0 3
    None None None None None.

Definition oneJob (j : JobOrchestrator.OJob) : gmap string JobOrchestrator.Stored :=
  {[ JobOrchestrator.jobKey (JobOrchestrator.o_id j) := JobOrchestrator.SJob j ]}.

Definition runningQueued : Job :=
  mkJob "job_5" "repo_sync" RUNNING 7 [("repoName", "blackroad-os-agents")]
        "2024-01-01T00:00:00.000Z" "2024-01-01T00:00:05.000Z" 1 3 None None.

Definition queueWith (j : Job) : Env :=
  mkEnv ∅ {[ job_id j := j ]} ∅.

Definition noRunner : Job -> Env -> Env * Outcome string :=
  fun _ e => (e, Returned "").

(** A queue delivery of the job currently stored under [id]. *)
Definition deliver (id : string) (e : Env) : Env :=
  match JOB_QUEUE e !! id with
  | Some job => fst (JobScheduler.processQueuedJob noRunner someAmbient job e)
  | None => e
  end.

(** A job of the default type "custom" (no runner: every execution
    throws), created with the default [maxAttempts] of 3. *)
Definition customQueue : Env :=
  fst (JobScheduler.createJob someAmbient
         (JobScheduler.mkOptions None None None None) emptyEnv).

Definition customId : string := Helpers.generateId "job" someAmbient.

Definition counters (e : Env) : option (JobState * N * N) :=
  (fun j => (status j, attempts j, maxAttempts j)) <$> JOB_QUEUE e !! customId.

Definition exhaustedQueued : Job :=
  mkJob "job_6" "custom" PENDING 5 [] "2024-01-01T00:00:00.000Z"
        "2024-01-01T00:03:00.000Z" 3 3 None (Some "Unknown job type: custom").

(** In the agent-jobs worker the counter is incremented before the test
    [attempts < maxAttempts], so a call that starts below [maxAttempts]
    terminates and never saves a document above it. *)
Definition within (j : Worker.WJob) : Prop :=
  Worker.w_attempts j <= Worker.w_maxAttempts j.



(** The delays of attempts 1 to [n], as the controller computes them. *)
Definition cadence (base : N) (n : nat) : list N :=
  map (fun k => BackoffSpec.nextDelay base (N.of_nat k)) (seq 1 n).

(** The calls [from], ..., [from + n - 1] of [fn] throw. *)
Definition throws_from {A} (fn : nat -> Outcome A) (from n : nat) : Prop :=
  forall i, (i < n)%nat -> exists e, fn (from + i)%nat = Thrown e.


Definition alwaysThrows : nat -> Outcome string := fun _ => Thrown "ECONNRESET".

(* ===================================================================== *)
(** ** Vocabulary of the further statements *)
(* ===================================================================== *)

(** The Learning that [_createLearning(issue, outcome)] stores. *)
Definition learningOf (amb : Ambient) (issue : Issue) (out : string) : Learning :=
  mkLearning (Helpers.generateId "learning" amb) (issue_type issue) out
             (issue_context issue) (isoNow amb).

(** The job that [_scheduleRetry] queues for an issue. *)
Definition retryJobOf (amb : Ambient) (issue : Issue) : Job :=
  mkJob (Helpers.generateId "job" amb) "retry_issue" PENDING 8
        [("issueId", issue_id issue);
         ("originalType", IssueType_value (issue_type issue))]
        (isoNow amb) (isoNow amb) 0 3 None None.

(** What a list of replies adds to [issuesResolved]. *)
Definition resolvedBy (acts : list ActionResult) : N :=
  foldr N.add 0 (map resolves acts).

(** The sum of the counts of an extension table; a text is no count. *)
Definition countOf (m : gmap string RepoSyncManager.TableValue) : N :=
  map_fold (fun _ v acc =>
              match v with
              | RepoSyncManager.Count n => n + acc
              | RepoSyncManager.Text _ => acc
              end) 0 m.

(** Every member of the table is a positive count. *)
Definition allCounts (m : gmap string RepoSyncManager.TableValue) : Prop :=
  forall k v, m !! k = Some v ->
              exists n, v = RepoSyncManager.Count n /\ 1 <= n.

(** An extension that names nothing of [Object.prototype]. *)
Definition plain (inherited : string -> option string) (ext : string) : Prop :=
  inherited ext = None /\ ext <> "__proto__".

Definition isBlob (item : RepoSyncManager.TreeItem) : bool :=
  String.eqb (RepoSyncManager.item_type item) "blob".

Definition isTree (item : RepoSyncManager.TreeItem) : bool :=
  String.eqb (RepoSyncManager.item_type item) "tree".

(** An inconsistency of the given type is reported. *)
Definition reported (t : string) (a : RepoSyncManager.CohesionAnalysis) : Prop :=
  exists inc, In inc (RepoSyncManager.inconsistencies a)
              /\ RepoSyncManager.inc_type inc = t.

(** Two cached scrapes: one with Trinity files and documentation, one
    with neither. *)
Definition fullScrape : RepoSyncManager.Scrape :=
  RepoSyncManager.mkScrape
    (Some (RepoSyncManager.mkPatterns (Some ["package.json"])
             (Some [".trinity/README.md"]) None (Some ["README.md"]))).

Definition bareScrape : RepoSyncManager.Scrape :=
  RepoSyncManager.mkScrape (Some (RepoSyncManager.mkPatterns None None None None)).

Definition twoRepos : list (string * RepoSyncManager.Scrape) :=
  [("blackroad-os-agents", fullScrape); ("lucidia-ai", bareScrape)].

(** What the first loop of [runQuickSelfHeal] makes of a stored job. *)
Definition requeued (amb : Ambient) (job : Job) : Job :=
  if QuickSelfHeal.retryable job
  then JobScheduler.merge amb job QuickSelfHeal.toPending
  else job.

(** The number of listed keys whose job is failed and below its limit. *)
Definition retryableAmong (e : Env) (keys : list string) : nat :=
  length (List.filter
            (fun k => match JOB_QUEUE e !! k with
                      | Some job => QuickSelfHeal.retryable job
                      | None => false
                      end) keys).


(** The test of the loop of [alarm]: a pending job whose time has come. *)
Definition due (amb : Ambient) (job : JobOrchestrator.OJob) : bool :=
  JobState_eqb (JobOrchestrator.o_status job) PENDING
  && (JobOrchestrator.o_scheduledFor job <=? msNow amb).

(** The document that [executeJob] stores for [job] when the body of its
    [try] ends as [work]. *)
Definition finished (amb : Ambient) (work : Outcome unit)
  (job : JobOrchestrator.OJob) : JobOrchestrator.OJob :=
  match work with
  | Returned _ =>
      JobOrchestrator.mkOJob
        (JobOrchestrator.o_id job) (JobOrchestrator.o_type job)
        (JobOrchestrator.o_priority job) COMPLETED
        (JobOrchestrator.o_scheduledFor job) (JobOrchestrator.o_attempts job)
        (JobOrchestrator.o_maxAttempts job) (JobOrchestrator.o_startedAt job)
        (JobOrchestrator.o_cancelledAt job) (Some (msNow amb))
        (Some "{success:true}") (JobOrchestrator.o_error job)
  | Thrown msg =>
      JobOrchestrator.mkOJob
        (JobOrchestrator.o_id job) (JobOrchestrator.o_type job)
        (JobOrchestrator.o_priority job)
        (if JobOrchestrator.o_maxAttempts job <=? JobOrchestrator.o_attempts job
         then FAILED else PENDING)
        (JobOrchestrator.o_scheduledFor job) (JobOrchestrator.o_attempts job)
        (JobOrchestrator.o_maxAttempts job) (JobOrchestrator.o_startedAt job)
        (JobOrchestrator.o_cancelledAt job) (JobOrchestrator.o_completedAt job)
        (JobOrchestrator.o_result job) (Some msg)
  end.

(** Every job document sits under the key of its own id, as
    [scheduleJob] stores it. *)
Definition keyedByOwnId (entry : string * JobOrchestrator.Stored) : bool :=
  match snd entry with
  | JobOrchestrator.SJob j =>
      String.eqb (fst entry) (JobOrchestrator.jobKey (JobOrchestrator.o_id j))
  | JobOrchestrator.SInstant _ => true
  end.

Definition wellKeyed (st : gmap string JobOrchestrator.Stored) : bool :=
  forallb keyedByOwnId (map_to_list st).

(** The same for a list of entries. *)
Definition ownKeys (l : list (string * JobOrchestrator.Stored)) : Prop :=
  forall k j, (k, JobOrchestrator.SJob j) ∈ l ->
              k = JobOrchestrator.jobKey (JobOrchestrator.o_id j).

(** [v] is the completion instant that a job of the listing [all],
    pending and due in its own iteration, wrote to [lastJobRun]. *)
Definition stamped (tick done : string -> Ambient)
  (all : list (string * JobOrchestrator.Stored))
  (v : option JobOrchestrator.Stored) : Prop :=
  exists k j,
    (k, JobOrchestrator.SJob j) ∈ all /\ due (tick k) j = true /\
    v = Some (JobOrchestrator.SInstant (msNow (done k))).

(** The listed values whose status is none of the four that [getStatus]
    counts. *)
Definition uncounted (v : JobOrchestrator.Stored) : bool :=
  negb (OrchestratorStatus.hasStatus PENDING v
        || OrchestratorStatus.hasStatus RUNNING v
        || OrchestratorStatus.hasStatus COMPLETED v
        || OrchestratorStatus.hasStatus FAILED v).

Definition orchestratorStore : gmap string JobOrchestrator.Stored :=
  {[ "job:a" :=
       JobOrchestrator.SJob
         (JobOrchestrator.mkOJob "a" "cron" 10 PENDING 5 0 3
                                 None None None None None) ]}.

(** An instant one second after [someAmbient]. *)
Definition laterAmbient : Ambient :=
  mkAmbient (isoNow someAmbient) (msNow someAmbient + 1000) (idTail someAmbient).

(** The number of listed values under [prefix] that satisfy [f], and
    what one entry adds to it. *)
Definition tally (prefix : string) (f : SelfHealer.Stored -> bool)
  (st : gmap string SelfHealer.Stored) : nat :=
  length (filter (fun v => f v) (snd <$> SelfHealerStatus.listPrefix prefix st)).

Definition adds (prefix : string) (f : SelfHealer.Stored -> bool)
  (k : string) (v : option SelfHealer.Stored) : nat :=
  match v with
  | Some x => if JS.startsWith prefix k && f x then 1 else 0
  | None => 0
  end.

(** The key under which [createLearning] stores its learning. *)
Definition learningKey (amb : Ambient) : string :=
  "learning:" +:+ "learning_" +:+ pretty (msNow amb).

Definition healerStore : gmap string SelfHealer.Stored :=
  {[ "issue:i1" :=
       SelfHealer.SIssue
         (SelfHealer.mkHIssue "i1" (Some "job_failure") None false false
                              None None None) ]}.
(* ===================================================================== *)
(** * Properties *)
(* ===================================================================== *)

(* --------------------------------------------------------------------- *)
(** ** Substring search *)
(* --------------------------------------------------------------------- *)

Lemma startsWith_spec (pat s : string) :
  JS.startsWith pat s = true <-> exists post, s = pat +:+ post.
Proof.
  revert s. induction pat as [|c p IH]; intros s; simpl.
  - split; [intros _; exists s; reflexivity | reflexivity].
  - destruct s as [|d t].
    + split; [discriminate | intros [post H]; discriminate].
    + destruct (Ascii.eqb_spec c d) as [->|Hne].
      * rewrite IH. split; intros [post H]; exists post.
        -- simpl. now rewrite H.
        -- simpl in H. now inversion H.
      * split; [discriminate|].
        intros [post H]. simpl in H. inversion H. congruence.
Qed.

Lemma includes_spec (s pat : string) :
  JS.includes s pat = true <-> contains s pat.
Proof.
  unfold contains. induction s as [|c t IH]; simpl.
  - rewrite orb_false_r, startsWith_spec. split.
    + intros [post H]. exists EmptyString, post. exact H.
    + intros [pre [post H]]. destruct pre; simpl in H.
      * exists post. exact H.
      * discriminate.
  - rewrite orb_true_iff, startsWith_spec, IH. split.
    + intros [[post H] | [pre [post H]]].
      * exists EmptyString, post. exact H.
      * exists (String c pre), post. simpl. now rewrite H.
    + intros [pre [post H]]. destruct pre as [|c' pre]; simpl in H.
      * left. exists post. exact H.
      * right. inversion H. exists pre, post. reflexivity.
Qed.

Lemma includes_false (s pat : string) :
  JS.includes s pat = false <-> ~ contains s pat.
Proof.
  rewrite <- includes_spec. destruct (JS.includes s pat); split; congruence.
Qed.

(* --------------------------------------------------------------------- *)
(** ** The evaluator, one node at a time *)
(* --------------------------------------------------------------------- *)

Lemma evaluate_unfold nm cond act kids fb ctx :
  evaluate (Node nm cond act kids fb) ctx =
  if negb (cond ctx) then mkEval false None
  else
    let res := run_action act ctx in
    if match res with Some r => truthy_bool (success r) | None => false end
    then mkEval true res
    else match first_matching kids ctx with
         | Some childResult => childResult
         | None => match fb with
                   | Some f => evaluate f ctx
                   | None => mkEval (truthy res) res
                   end
         end.
Proof.
  simpl. destruct (negb (cond ctx)); [reflexivity|].
  destruct (match run_action act ctx with
            | Some r => truthy_bool (success r) | None => false end);
    [reflexivity|].
  assert (E : forall cs,
    (fix try_children (cs : list DecisionNode) : option EvalResult :=
       match cs with
       | [] => None
       | child :: rest =>
           if matched (evaluate child ctx) then Some (evaluate child ctx)
           else try_children rest
       end) cs = first_matching cs ctx).
  { induction cs as [|c cs IH]; simpl; [reflexivity|]. now rewrite IH. }
  now rewrite E.
Qed.

Lemma first_matching_none (cs : list DecisionNode) (ctx : Ctx) :
  first_matching cs ctx = None <-> Forall (unmatched ctx) cs.
Proof.
  induction cs as [|c cs IH]; simpl.
  - split; [constructor | reflexivity].
  - destruct (matched (evaluate c ctx)) eqn:E.
    + split; [discriminate|]. intros H. inversion H; subst.
      unfold unmatched in *. congruence.
    + rewrite IH. split.
      * intros H. constructor; assumption.
      * intros H. now inversion H.
Qed.

Lemma first_matching_first (pre post : list DecisionNode) c ctx :
  Forall (unmatched ctx) pre ->
  matched (evaluate c ctx) = true ->
  first_matching (pre ++ c :: post) ctx = Some (evaluate c ctx).
Proof.
  induction 1 as [|x pre Hx _ IH]; intros Hc; simpl.
  - now rewrite Hc.
  - unfold unmatched in Hx. rewrite Hx. now apply IH.
Qed.

Lemma no_success_guard n ctx :
  no_success n ctx ->
  match run_action (node_action n) ctx with
  | Some r => truthy_bool (success r)
  | None => false
  end = false.
Proof.
  unfold no_success. intros H.
  destruct (run_action (node_action n) ctx) as [r|]; [now apply H | reflexivity].
Qed.

(* --------------------------------------------------------------------- *)
(** ** The job-failure tree *)
(* --------------------------------------------------------------------- *)

Lemma lt_true_iff (x : option N) (b : N) :
  JS.lt x b = true <-> exists v, x = Some v /\ v < b.
Proof.
  destruct x as [v|]; simpl.
  - rewrite N.ltb_lt. split; [eauto | intros [w [[= ->] H]]; exact H].
  - split; [discriminate | intros [w [[=] _]]].
Qed.

Lemma ge_true_iff (x : option N) (b : N) :
  JS.ge x b = true <-> exists v, x = Some v /\ b <= v.
Proof.
  destruct x as [v|]; simpl.
  - rewrite N.leb_le. split; [eauto | intros [w [[= ->] H]]; exact H].
  - split; [discriminate | intros [w [[=] _]]].
Qed.

Lemma transient_cond (ctx : Ctx) :
  JS.lt (ctx_attempts ctx) 3 = true <-> few_attempts ctx.
Proof. apply lt_true_iff. Qed.

Lemma persistent_cond (ctx : Ctx) :
  JS.ge (ctx_attempts ctx) 3 && JS.lt (ctx_severity ctx) (Severity_value CRITICAL)
    = true <-> exhausted_not_critical ctx.
Proof.
  rewrite andb_true_iff, ge_true_iff, lt_true_iff.
  unfold exhausted_not_critical. split.
  - intros [[a [Ha Hle]] [s [Hs Hlt]]]. exists a, s. auto.
  - intros [a [s [Ha [Hle [Hs Hlt]]]]]. split; eauto.
Qed.

(** C1. Evaluation of the job-failure tree on any context: RETRY with a
    delay of 2^attempts seconds (in milliseconds) when attempts < 3; SKIP
    when attempts >= 3 and severity < CRITICAL; otherwise no child matches
    and the fallback node yields ESCALATE.  In particular attempts = 1
    gives RETRY after 2000 ms, attempts = 3 with MEDIUM gives SKIP and
    attempts = 3 with CRITICAL gives ESCALATE. *)
Theorem job_failure_tree_decides (ctx : Ctx) :
  (forall a, ctx_attempts ctx = Some a -> a < 3 ->
     evaluate job_failure_tree ctx =
       decided RETRY "Scheduling retry" (Some (JS.Num (2 ^ a * 1000)))) /\
  (exhausted_not_critical ctx ->
     evaluate job_failure_tree ctx =
       decided SKIP "Skipping after max retries, creating learning" None) /\
  (~ few_attempts ctx -> ~ exhausted_not_critical ctx ->
     first_matching (node_children job_failure_tree) ctx = None /\
     evaluate job_failure_tree ctx =
       decided ESCALATE "Escalating to human attention" None) /\
  evaluate job_failure_tree (jobCtx 1 MEDIUM) =
    decided RETRY "Scheduling retry" (Some (JS.Num 2000)) /\
  evaluate job_failure_tree (jobCtx 3 MEDIUM) =
    decided SKIP "Skipping after max retries, creating learning" None /\
  evaluate job_failure_tree (jobCtx 3 CRITICAL) =
    decided ESCALATE "Escalating to human attention" None.
Proof.
  unfold job_failure_tree.
  split; [|split; [|split; [|repeat split; reflexivity]]].
  - intros a Ha Hlt.
    rewrite evaluate_unfold. cbn -[N.pow N.mul].
    rewrite Ha. cbn -[N.pow N.mul].
    apply N.ltb_lt in Hlt. rewrite Hlt. reflexivity.
  - intros H.
    assert (Hp := proj2 (persistent_cond ctx) H).
    assert (Ht : JS.lt (ctx_attempts ctx) 3 = false).
    { destruct H as [a [s [Ha [Hle _]]]]. rewrite Ha. simpl.
      apply N.ltb_ge. exact Hle. }
    rewrite evaluate_unfold. cbn -[N.pow N.mul JS.lt JS.ge Severity_value].
    rewrite Ht. cbn -[N.pow N.mul JS.lt JS.ge Severity_value].
    rewrite Hp. reflexivity.
  - intros Hn1 Hn2.
    assert (Ht : JS.lt (ctx_attempts ctx) 3 = false).
    { destruct (JS.lt (ctx_attempts ctx) 3) eqn:E; [|reflexivity].
      exfalso. apply Hn1, transient_cond, E. }
    assert (Hp : JS.ge (ctx_attempts ctx) 3
                 && JS.lt (ctx_severity ctx) (Severity_value CRITICAL) = false).
    { destruct (JS.ge (ctx_attempts ctx) 3
                && JS.lt (ctx_severity ctx) (Severity_value CRITICAL)) eqn:E;
        [|reflexivity].
      exfalso. apply Hn2, persistent_cond, E. }
    split.
    + cbn -[N.pow N.mul JS.lt JS.ge Severity_value].
      rewrite Ht. cbn -[N.pow N.mul JS.lt JS.ge Severity_value].
      rewrite Hp. reflexivity.
    + rewrite evaluate_unfold. cbn -[N.pow N.mul JS.lt JS.ge Severity_value].
      rewrite Ht. cbn -[N.pow N.mul JS.lt JS.ge Severity_value].
      rewrite Hp. reflexivity.
Qed.

Lemma job_failure_tree_decides_witness :
  evaluate job_failure_tree (jobCtx 2 HIGH) =
    decided RETRY "Scheduling retry" (Some (JS.Num 4000)) /\
  evaluate job_failure_tree (jobCtx 5 LOW) =
    decided SKIP "Skipping after max retries, creating learning" None /\
  evaluate job_failure_tree emptyCtx =
    decided ESCALATE "Escalating to human attention" None.
Proof.
  split; [|split].
  - apply (proj1 (job_failure_tree_decides (jobCtx 2 HIGH)) 2);
      reflexivity.
  - apply (proj1 (proj2 (job_failure_tree_decides (jobCtx 5 LOW)))).
    exists 5, 1. repeat split; discriminate.
  - apply (proj1 (proj2 (proj2 (job_failure_tree_decides emptyCtx)))).
    + intros [a [H _]]. discriminate H.
    + intros [a [s [H _]]]. discriminate H.
Defined.

(** The context that the job scan builds has no [severity] member (the
    severity sits on the issue, next to [context]), so the
    [persistent_error] node never matches an issue that comes from the
    scan: it is retried or escalated. *)
Lemma scanned_job_failure_never_skips (amb : Ambient) (job : Job) :
  let ctx := issue_context (SelfHealingEngine.jobFailureIssue amb job) in
  action_of (evaluate job_failure_tree ctx) =
    Some (if attempts job <? 3 then RETRY else ESCALATE).
Proof.
  cbv zeta. unfold job_failure_tree. rewrite evaluate_unfold.
  cbn -[N.pow N.mul N.ltb N.leb].
  destruct (attempts job <? 3) eqn:E; cbn -[N.pow N.mul N.ltb N.leb].
  - reflexivity.
  - rewrite andb_false_r. reflexivity.
Qed.

(* --------------------------------------------------------------------- *)
(** ** The sync-failure tree *)
(* --------------------------------------------------------------------- *)

Lemma includes_opt_true (x : option string) (pat : string) :
  JS.includes_opt x pat = true <-> exists e, x = Some e /\ contains e pat.
Proof.
  destruct x as [e|]; simpl.
  - rewrite includes_spec. split; [eauto | intros [e' [[= ->] H]]; exact H].
  - split; [discriminate | intros [e' [[=] _]]].
Qed.

Lemma includes_opt_false (ctx : Ctx) (pat : string) :
  ~ error_contains ctx pat -> JS.includes_opt (ctx_error ctx) pat = false.
Proof.
  intros H. destruct (JS.includes_opt (ctx_error ctx) pat) eqn:E; [|reflexivity].
  exfalso. apply H. apply includes_opt_true. exact E.
Qed.

Lemma includes_opt_error (ctx : Ctx) (pat : string) :
  error_contains ctx pat -> JS.includes_opt (ctx_error ctx) pat = true.
Proof. intros H. apply includes_opt_true. exact H. Qed.

(** C5. Evaluation of the sync-failure tree on any context, the cases
    read in the order of the tree: RETRY with the fixed delay 60000 ms
    when the error text contains "rate limit"; failing that, RETRY with
    5000 ms when it contains "network" or "timeout"; failing that,
    ESCALATE when it contains "401" or "403"; and for every other error
    text no child matches and the fallback node yields LEARN (so for
    "disk full"). *)
Theorem sync_failure_tree_decides (ctx : Ctx) :
  (error_contains ctx "rate limit" ->
     evaluate sync_failure_tree ctx =
       decided RETRY "Rate limited - backing off" (Some (JS.Num 60000))) /\
  (~ error_contains ctx "rate limit" ->
   error_contains ctx "network" \/ error_contains ctx "timeout" ->
     evaluate sync_failure_tree ctx =
       decided RETRY "Network error - retrying with backoff"
               (Some (JS.Num 5000))) /\
  (~ error_contains ctx "rate limit" ->
   ~ error_contains ctx "network" -> ~ error_contains ctx "timeout" ->
   error_contains ctx "401" \/ error_contains ctx "403" ->
     evaluate sync_failure_tree ctx =
       decided ESCALATE "Authentication error - needs manual intervention"
               None) /\
  (~ error_contains ctx "rate limit" ->
   ~ error_contains ctx "network" -> ~ error_contains ctx "timeout" ->
   ~ error_contains ctx "401" -> ~ error_contains ctx "403" ->
     first_matching (node_children sync_failure_tree) ctx = None /\
     evaluate sync_failure_tree ctx =
       decided LEARN "Unknown error - learning for future" None) /\
  evaluate sync_failure_tree (syncCtx "rate limit exceeded") =
    decided RETRY "Rate limited - backing off" (Some (JS.Num 60000)) /\
  evaluate sync_failure_tree (syncCtx "connection timeout") =
    decided RETRY "Network error - retrying with backoff" (Some (JS.Num 5000)) /\
  evaluate sync_failure_tree (syncCtx "401 unauthorized") =
    decided ESCALATE "Authentication error - needs manual intervention" None /\
  evaluate sync_failure_tree (syncCtx "disk full") =
    decided LEARN "Unknown error - learning for future" None.
Proof.
  unfold sync_failure_tree.
  split; [|split; [|split; [|split; [|repeat split; reflexivity]]]].
  - intros H. rewrite evaluate_unfold. cbn -[JS.includes_opt].
    rewrite (includes_opt_error _ _ H). reflexivity.
  - intros N1 H. rewrite evaluate_unfold. cbn -[JS.includes_opt].
    rewrite (includes_opt_false _ _ N1). cbn -[JS.includes_opt].
    assert (E : JS.includes_opt (ctx_error ctx) "network"
                || JS.includes_opt (ctx_error ctx) "timeout" = true).
    { apply orb_true_iff.
      destruct H as [H|H]; [left|right]; apply includes_opt_error, H. }
    rewrite E. reflexivity.
  - intros N1 N2 N3 H. rewrite evaluate_unfold. cbn -[JS.includes_opt].
    rewrite (includes_opt_false _ _ N1), (includes_opt_false _ _ N2),
            (includes_opt_false _ _ N3).
    cbn -[JS.includes_opt].
    assert (E : JS.includes_opt (ctx_error ctx) "401"
                || JS.includes_opt (ctx_error ctx) "403" = true).
    { apply orb_true_iff.
      destruct H as [H|H]; [left|right]; apply includes_opt_error, H. }
    rewrite E. reflexivity.
  - intros N1 N2 N3 N4 N5. split.
    + cbn -[JS.includes_opt].
      rewrite (includes_opt_false _ _ N1), (includes_opt_false _ _ N2),
              (includes_opt_false _ _ N3), (includes_opt_false _ _ N4),
              (includes_opt_false _ _ N5).
      reflexivity.
    + rewrite evaluate_unfold. cbn -[JS.includes_opt].
      rewrite (includes_opt_false _ _ N1), (includes_opt_false _ _ N2),
              (includes_opt_false _ _ N3), (includes_opt_false _ _ N4),
              (includes_opt_false _ _ N5).
      reflexivity.
Qed.

(** Deciding [error_contains] on a literal error text. *)
Ltac present :=
  eexists; split; [reflexivity | apply includes_spec; reflexivity].
Ltac absent :=
  let e := fresh "e" in
  let E := fresh "E" in
  let H := fresh "H" in
  intros [e [E H]]; injection E as <-; apply includes_spec in H;
  discriminate H.

Lemma sync_failure_tree_decides_witness :
  evaluate sync_failure_tree (syncCtx "API rate limit hit") =
    decided RETRY "Rate limited - backing off" (Some (JS.Num 60000)) /\
  evaluate sync_failure_tree (syncCtx "network unreachable") =
    decided RETRY "Network error - retrying with backoff" (Some (JS.Num 5000)) /\
  evaluate sync_failure_tree (syncCtx "Failed to fetch repo: 403") =
    decided ESCALATE "Authentication error - needs manual intervention" None /\
  evaluate sync_failure_tree (syncCtx "disk full") =
    decided LEARN "Unknown error - learning for future" None.
Proof.
  split; [|split; [|split]].
  - apply (proj1 (sync_failure_tree_decides (syncCtx "API rate limit hit"))).
    present.
  - apply (proj1 (proj2
             (sync_failure_tree_decides (syncCtx "network unreachable")))).
    + absent.
    + left. present.
  - apply (proj1 (proj2 (proj2
             (sync_failure_tree_decides (syncCtx "Failed to fetch repo: 403"))))).
    + absent.
    + absent.
    + absent.
    + right. present.
  - apply (proj1 (proj2 (proj2 (proj2
             (sync_failure_tree_decides (syncCtx "disk full")))))).
    + absent.
    + absent.
    + absent.
    + absent.
    + absent.
Defined.

(** The order of the children is the priority: a text that names both a
    rate limit and a timeout is handled by the first child; a context
    without error text (a stale sync) reaches the fallback. *)
Example sync_failure_first_child_wins :
  evaluate sync_failure_tree (syncCtx "rate limit: request timeout") =
    decided RETRY "Rate limited - backing off" (Some (JS.Num 60000)) /\
  evaluate sync_failure_tree emptyCtx =
    decided LEARN "Unknown error - learning for future" None.
Proof. split; reflexivity. Qed.

(* --------------------------------------------------------------------- *)
(** ** The evaluation algorithm and its caller *)
(* --------------------------------------------------------------------- *)

Lemma truthy_bool_true (b : option bool) :
  b = Some true -> truthy_bool b = true.
Proof. intros ->. reflexivity. Qed.

Lemma handleIssue_with_tree amb issue g tree :
  SelfHealingEngine.decisionTrees g (issue_type issue) = Some tree ->
  SelfHealingEngine.handleIssue amb issue g =
    let g1 := SelfHealingEngine.recordIssue amb issue g in
    let r := evaluate tree (issue_context issue) in
    match matched r, result r with
    | true, Some act => (SelfHealingEngine._executeAction amb issue act g1, act)
    | _, _ => (g1, SelfHealingEngine.unmatchedReply)
    end.
Proof.
  intros H. unfold SelfHealingEngine.handleIssue.
  replace (SelfHealingEngine.decisionTrees
             (SelfHealingEngine.recordIssue amb issue g) (issue_type issue))
    with (Some tree) by (symmetry; exact H).
  reflexivity.
Qed.

(** C4, counterexample: the node [throwing_leaf] has a true condition, an
    action that fails, no child and no fallback, and its evaluation is
    matched, carrying the failed result; [handleIssue] then returns that
    failed result and not an ESCALATE action. *)
Lemma unmatched_without_child_or_fallback_fails :
  ~ unmatched_without_child_or_fallback /\
  evaluate throwing_leaf emptyCtx =
    mkEval true (Some (mkActionResult (Some false) None None None (Some "boom"))) /\
  action (snd (SelfHealingEngine.handleIssue someAmbient someIssue
                 (SelfHealingEngine.mkEngine emptyEnv
                    (fun _ => Some throwing_leaf)
                    (SelfHealingEngine.mkStats 0 0 0 0)))) = None.
Proof.
  split; [|split; reflexivity].
  intros H.
  specialize (H throwing_leaf emptyCtx).
  assert (E : matched (evaluate throwing_leaf emptyCtx) = false).
  { apply H.
    - reflexivity.
    - intros r [= <-]. reflexivity.
    - constructor.
    - reflexivity. }
  discriminate E.
Qed.

(** C4 (amended). [evaluate] on any node and context: a false condition
    gives unmatched; a true condition with an action that reports success
    returns that result at once; otherwise the children are tried in
    declaration order and the first matched child's evaluation is
    returned; when no child matches, the evaluation of the fallback is
    returned if there is one; with no fallback the node reports unmatched
    when it has no action, and reports matched with the failed result
    when its action ran and failed.  [handleIssue] answers an unmatched
    evaluation with an ESCALATE reply and executes no action. *)
Theorem evaluate_algorithm (n : DecisionNode) (ctx : Ctx) :
  (node_condition n ctx = false -> evaluate n ctx = mkEval false None) /\
  (node_condition n ctx = true ->
   forall r, run_action (node_action n) ctx = Some r ->
             success r = Some true ->
     evaluate n ctx = mkEval true (Some r)) /\
  (node_condition n ctx = true -> no_success n ctx ->
     (forall pre c post,
        node_children n = pre ++ c :: post ->
        Forall (unmatched ctx) pre -> matched (evaluate c ctx) = true ->
        evaluate n ctx = evaluate c ctx) /\
     (Forall (unmatched ctx) (node_children n) ->
        (forall f, node_fallback n = Some f ->
                   evaluate n ctx = evaluate f ctx) /\
        (node_fallback n = None ->
           (node_action n = None -> evaluate n ctx = mkEval false None) /\
           (forall r, run_action (node_action n) ctx = Some r ->
                      evaluate n ctx = mkEval true (Some r))))) /\
  (forall amb issue g,
     SelfHealingEngine.decisionTrees g (issue_type issue) = Some n ->
     ctx = issue_context issue ->
     matched (evaluate n ctx) = false ->
     SelfHealingEngine.handleIssue amb issue g =
       (SelfHealingEngine.recordIssue amb issue g,
        SelfHealingEngine.unmatchedReply) /\
     action SelfHealingEngine.unmatchedReply = Some ESCALATE).
Proof.
  destruct n as [nm cond act kids fb]. cbn [node_condition node_action
    node_children node_fallback].
  split; [|split; [|split]].
  - intros Hc. rewrite evaluate_unfold, Hc. reflexivity.
  - intros Hc r Hr Hs. rewrite evaluate_unfold, Hc. cbn [negb].
    cbv zeta. rewrite Hr, (truthy_bool_true _ Hs). reflexivity.
  - intros Hc Hns.
    pose proof (no_success_guard _ _ Hns) as Hg.
    cbn [node_action] in Hg.
    split.
    + intros pre c post -> Hpre Hm.
      rewrite evaluate_unfold, Hc. cbn [negb]. cbv zeta. rewrite Hg.
      rewrite (first_matching_first _ _ _ _ Hpre Hm). reflexivity.
    + intros Hall. apply first_matching_none in Hall.
      split.
      * intros f ->. rewrite evaluate_unfold, Hc. cbn [negb]. cbv zeta.
        rewrite Hg, Hall. reflexivity.
      * intros ->. split.
        -- intros ->. rewrite evaluate_unfold, Hc. cbn [negb]. cbv zeta.
           cbn [run_action]. rewrite Hall. reflexivity.
        -- intros r Hr. rewrite evaluate_unfold, Hc. cbn [negb]. cbv zeta.
           rewrite Hg, Hall, Hr. reflexivity.
  - intros amb issue g Htree -> Hm. split; [|reflexivity].
    rewrite (handleIssue_with_tree _ _ _ _ Htree). cbv zeta.
    rewrite Hm. reflexivity.
Qed.

Lemma evaluate_algorithm_witness :
  evaluate (Node "never" (fun _ => false) None [] None) emptyCtx
    = mkEval false None /\
  evaluate job_failure_tree (jobCtx 3 CRITICAL)
    = decided ESCALATE "Escalating to human attention" None /\
  evaluate cron_failure_tree emptyCtx = mkEval false None /\
  evaluate throwing_leaf emptyCtx
    = mkEval true (Some (mkActionResult (Some false) None None None (Some "boom"))) /\
  SelfHealingEngine.handleIssue someAmbient cronIssue
      (SelfHealingEngine.constructor emptyEnv)
    = (SelfHealingEngine.recordIssue someAmbient cronIssue
         (SelfHealingEngine.constructor emptyEnv),
       SelfHealingEngine.unmatchedReply).
Proof.
  split; [|split; [|split; [|split]]].
  - apply (proj1 (evaluate_algorithm _ emptyCtx)). reflexivity.
  - pose proof (evaluate_algorithm job_failure_tree (jobCtx 3 CRITICAL))
      as [_ [_ [H _]]].
    destruct H as [_ H]; [reflexivity | intros r [=] |].
    destruct H as [H _]; [repeat constructor |].
    rewrite (H _ eq_refl). reflexivity.
  - pose proof (evaluate_algorithm cron_failure_tree emptyCtx)
      as [_ [_ [H _]]].
    destruct H as [_ H]; [reflexivity | intros r [=] |].
    destruct H as [_ H]; [repeat constructor |].
    apply H; reflexivity.
  - pose proof (evaluate_algorithm throwing_leaf emptyCtx)
      as [_ [_ [H _]]].
    destruct H as [_ H]; [reflexivity | intros r [= <-]; reflexivity |].
    destruct H as [_ H]; [constructor |].
    apply H; reflexivity.
  - apply (proj2 (proj2 (proj2
             (evaluate_algorithm cron_failure_tree emptyCtx)))).
    + reflexivity.
    + reflexivity.
    + reflexivity.
Defined.

(* --------------------------------------------------------------------- *)
(** ** Keys of AGENT_STATE *)
(* --------------------------------------------------------------------- *)

Lemma escalationKey_issueKey (a b : string) :
  SelfHealingEngine.escalationKey a <> SelfHealingEngine.issueKey b.
Proof. discriminate. Qed.

Lemma logKey_escalationKey (amb : Ambient) (ev a : string) :
  logKey amb ev <> SelfHealingEngine.escalationKey a.
Proof. discriminate. Qed.

Lemma logKey_issueKey (amb : Ambient) (ev a : string) :
  logKey amb ev <> SelfHealingEngine.issueKey a.
Proof. discriminate. Qed.

Lemma issueKey_inj (a b : string) :
  SelfHealingEngine.issueKey a = SelfHealingEngine.issueKey b -> a = b.
Proof. intros H. now inversion H. Qed.

Lemma logEvent_AGENT_STATE amb level ev data e k :
  k <> logKey amb ev ->
  AGENT_STATE (logEvent amb level ev data e) !! k = AGENT_STATE e !! k.
Proof. intros H. cbn. now rewrite lookup_insert_ne. Qed.

Lemma logEvent_JOB_QUEUE amb level ev data e :
  JOB_QUEUE (logEvent amb level ev data e) = JOB_QUEUE e.
Proof. reflexivity. Qed.

Lemma logEvent_LEARNING_MEMORY amb level ev data e :
  LEARNING_MEMORY (logEvent amb level ev data e) = LEARNING_MEMORY e.
Proof. reflexivity. Qed.

(** [recordIssue] leaves the issue stored with [resolved: false]. *)
Lemma recordIssue_stored amb issue g :
  exists d,
    SelfHealingEngine.getIssueDoc
      (SelfHealingEngine.issueKey (issue_id issue))
      (SelfHealingEngine.env (SelfHealingEngine.recordIssue amb issue g))
      = Some d /\
    resolved d = Some false /\ doc_id d = Some (issue_id issue) /\
    escalated d = None.
Proof.
  eexists. unfold SelfHealingEngine.getIssueDoc, SelfHealingEngine.recordIssue.
  cbn -[logKey SelfHealingEngine.issueKey].
  rewrite lookup_insert_ne by apply logKey_issueKey.
  rewrite lookup_insert_eq. repeat split; reflexivity.
Qed.

(* --------------------------------------------------------------------- *)
(** ** Dead letters *)
(* --------------------------------------------------------------------- *)

(** C10. For every dead-letter message, [handleDeadLetter] passes an
    issue of type DEAD_LETTER to [handleIssue]; [_buildDecisionTrees]
    registers no tree for that type, so [handleIssue] takes the
    missing-tree branch: its reply is the ESCALATE action "No decision
    tree for issue type", the state it leaves is the recorded issue plus
    one log entry (no tree is evaluated and no action executed), no
    escalation document is written, LEARNING_MEMORY and JOB_QUEUE are
    untouched, the escalations, learnings and issuesResolved counters
    keep their values, and the issue is stored with [resolved: false]. *)
Theorem dead_letter_takes_missing_tree_branch
  (amb : Ambient) (m : SelfHealingEngine.Message) (e : Env)
  (st : SelfHealingEngine.Stats) :
  let g := SelfHealingEngine.mkEngine e _buildDecisionTrees st in
  let issue := SelfHealingEngine.deadLetterIssue amb m in
  let out := SelfHealingEngine.handleIssue amb issue g in
  issue_type issue = DEAD_LETTER /\
  _buildDecisionTrees DEAD_LETTER = None /\
  SelfHealingEngine.handleDeadLetter amb m g = fst out /\
  snd out = SelfHealingEngine.noTreeReply /\
  action (snd out) = Some ESCALATE /\
  fst out =
    SelfHealingEngine.with_env
      (logEvent amb "warn" "no_decision_tree"
         [("type", IssueType_value DEAD_LETTER)])
      (SelfHealingEngine.recordIssue amb issue g) /\
  (forall id,
     AGENT_STATE (SelfHealingEngine.env (fst out))
       !! SelfHealingEngine.escalationKey id
     = AGENT_STATE e !! SelfHealingEngine.escalationKey id) /\
  LEARNING_MEMORY (SelfHealingEngine.env (fst out)) = LEARNING_MEMORY e /\
  JOB_QUEUE (SelfHealingEngine.env (fst out)) = JOB_QUEUE e /\
  SelfHealingEngine.escalations (SelfHealingEngine.stats (fst out))
    = SelfHealingEngine.escalations st /\
  SelfHealingEngine.learnings (SelfHealingEngine.stats (fst out))
    = SelfHealingEngine.learnings st /\
  SelfHealingEngine.issuesResolved (SelfHealingEngine.stats (fst out))
    = SelfHealingEngine.issuesResolved st /\
  SelfHealingEngine.issuesDetected (SelfHealingEngine.stats (fst out))
    = SelfHealingEngine.issuesDetected st + 1 /\
  SelfHealingEngine.decisionTrees (fst out) = _buildDecisionTrees /\
  exists d,
    SelfHealingEngine.getIssueDoc
      (SelfHealingEngine.issueKey (issue_id issue))
      (SelfHealingEngine.env (fst out)) = Some d /\
    resolved d = Some false /\ escalated d = None.
Proof.
  cbv zeta.
  repeat match goal with |- _ /\ _ => split end;
    try reflexivity.
  - intros id. cbn -[logKey SelfHealingEngine.issueKey
                     SelfHealingEngine.escalationKey].
    rewrite !lookup_insert_ne;
      auto using logKey_escalationKey, not_eq_sym, escalationKey_issueKey.
  - eexists. unfold SelfHealingEngine.getIssueDoc.
    cbn -[logKey SelfHealingEngine.issueKey].
    rewrite !lookup_insert_ne by apply logKey_issueKey.
    rewrite lookup_insert_eq. repeat split; reflexivity.
Qed.

(* --------------------------------------------------------------------- *)
(** ** Executing ESCALATE *)
(* --------------------------------------------------------------------- *)

Lemma createJob_AGENT_STATE amb o e k :
  k <> logKey amb "job_created" ->
  AGENT_STATE (fst (JobScheduler.createJob amb o e)) !! k = AGENT_STATE e !! k.
Proof. intros H. cbn -[logKey]. now rewrite lookup_insert_ne. Qed.

(** C7, the code at the failing input and in general.  When the engine
    executes an ESCALATE action it writes the escalation document and
    counts the escalation, but LEARNING_MEMORY is left as it was (no
    Learning is created), the learnings counter is unchanged, and the
    stored issue document is not rewritten, so it carries no
    [escalated: true].  For [cronIssue3] handled by a fresh engine: the
    reply is ESCALATE, no Learning exists afterwards, and the stored
    issue has [resolved: false] and no [escalated] member. *)
Theorem engine_escalate_skips_learning_and_flag
  (amb : Ambient) (issue : Issue) (s : option bool) (msg : option string)
  (d : option JS.Number) (err : option string)
  (g : SelfHealingEngine.Engine) :
  let act := mkActionResult s (Some ESCALATE) msg d err in
  let g' := SelfHealingEngine._executeAction amb issue act g in
  LEARNING_MEMORY (SelfHealingEngine.env g')
    = LEARNING_MEMORY (SelfHealingEngine.env g) /\
  SelfHealingEngine.learnings (SelfHealingEngine.stats g')
    = SelfHealingEngine.learnings (SelfHealingEngine.stats g) /\
  SelfHealingEngine.escalations (SelfHealingEngine.stats g')
    = SelfHealingEngine.escalations (SelfHealingEngine.stats g) + 1 /\
  (exists esc,
     AGENT_STATE (SelfHealingEngine.env g')
       !! SelfHealingEngine.escalationKey (issue_id issue)
     = Some (VEscalation esc) /\ esc_issueId esc = issue_id issue) /\
  (forall id,
     AGENT_STATE (SelfHealingEngine.env g') !! SelfHealingEngine.issueKey id
     = AGENT_STATE (SelfHealingEngine.env g) !! SelfHealingEngine.issueKey id) /\
  (let out := SelfHealingEngine.handleIssue someAmbient cronIssue3
                (SelfHealingEngine.constructor emptyEnv) in
   action (snd out) = Some ESCALATE /\
   LEARNING_MEMORY (SelfHealingEngine.env (fst out)) = ∅ /\
   exists doc,
     SelfHealingEngine.getIssueDoc (SelfHealingEngine.issueKey "issue_3")
       (SelfHealingEngine.env (fst out)) = Some doc /\
     escalated doc = None /\ resolved doc = Some false).
Proof.
  cbv zeta. split; [reflexivity|]. split; [reflexivity|].
  split; [reflexivity|]. split; [|split].
  - eexists. cbn -[logKey SelfHealingEngine.escalationKey].
    rewrite lookup_insert_ne by apply logKey_escalationKey.
    rewrite lookup_insert_eq. split; reflexivity.
  - intros id. cbn -[logKey SelfHealingEngine.escalationKey
                     SelfHealingEngine.issueKey].
    rewrite !lookup_insert_ne;
      auto using logKey_issueKey, escalationKey_issueKey.
  - split; [reflexivity|]. split; [reflexivity|].
    eexists. split; [vm_compute; reflexivity|]. split; reflexivity.
Qed.

(** The sibling path: [SelfHealer.escalateIssue] on a stored issue marks
    it [escalated: true], leaves [resolved] as it was, and stores one
    Learning with outcome "escalated". *)
Lemma SelfHealer_escalateIssue_marks_and_learns
  (amb : Ambient) (id : string) (reason : option string)
  (st : gmap string SelfHealer.Stored) (issue : SelfHealer.HIssue) :
  st !! ("issue:" +:+ id) = Some (SelfHealer.SIssue issue) ->
  let out := SelfHealer.escalateIssue amb id reason st in
  http_status (snd out) = 200 /\
  (exists issue',
     fst out !! ("issue:" +:+ id) = Some (SelfHealer.SIssue issue') /\
     SelfHealer.h_escalated issue' = true /\
     SelfHealer.h_resolved issue' = SelfHealer.h_resolved issue) /\
  (exists l,
     fst out !! ("learning:" +:+ "learning_" +:+ pretty (msNow amb))
       = Some (SelfHealer.SLearning l) /\
     SelfHealer.l_outcome l = "escalated").
Proof.
  intros H. unfold SelfHealer.escalateIssue. rewrite H. cbn [fst snd].
  split; [reflexivity|]. split.
  - eexists. unfold SelfHealer.createLearning.
    rewrite lookup_insert_ne by discriminate.
    rewrite lookup_insert_eq. repeat split; reflexivity.
  - eexists. unfold SelfHealer.createLearning.
    rewrite lookup_insert_eq. split; reflexivity.
Qed.

(* --------------------------------------------------------------------- *)
(** ** Handling the same issue again *)
(* --------------------------------------------------------------------- *)

(** C9, counterexample: after a first [handleIssue] the stored record of
    [exhaustedIssue] has [resolved: true] and [issuesResolved] is 1; a
    second [handleIssue] on the same issue brings [issuesResolved] to 2. *)
Lemma rerun_counts_resolved_twice :
  (exists doc,
     SelfHealingEngine.getIssueDoc (SelfHealingEngine.issueKey "issue_4")
       (SelfHealingEngine.env afterFirst) = Some doc /\
     resolved doc = Some true) /\
  SelfHealingEngine.issuesResolved (SelfHealingEngine.stats afterFirst) = 1 /\
  SelfHealingEngine.issuesResolved (SelfHealingEngine.stats afterSecond) = 2.
Proof.
  split; [|split; reflexivity].
  eexists. split; [vm_compute; reflexivity | reflexivity].
Qed.

Lemma executeAction_issuesResolved amb issue act g :
  SelfHealingEngine.issuesResolved
    (SelfHealingEngine.stats (SelfHealingEngine._executeAction amb issue act g))
  = SelfHealingEngine.issuesResolved (SelfHealingEngine.stats g) + resolves act.
Proof.
  unfold SelfHealingEngine._executeAction, resolves.
  destruct (action act) as [[]|]; cbn; lia.
Qed.

(** C9 (amended). [handleIssue] never reads the stored [resolved] flag:
    in every engine state, so also when the stored record of the issue
    already has [resolved: true], it stores the issue again with
    [resolved: false] before consulting the tree, its reply depends only
    on the registered trees and the issue, and it adds one to
    [issuesResolved] exactly when that reply is a SKIP or RESET action. *)
Theorem handleIssue_counts_every_resolution
  (amb : Ambient) (issue : Issue) (g : SelfHealingEngine.Engine) :
  let out := SelfHealingEngine.handleIssue amb issue g in
  SelfHealingEngine.issuesResolved (SelfHealingEngine.stats (fst out))
    = SelfHealingEngine.issuesResolved (SelfHealingEngine.stats g)
      + resolves (snd out) /\
  (forall e st,
     snd (SelfHealingEngine.handleIssue amb issue
            (SelfHealingEngine.mkEngine e (SelfHealingEngine.decisionTrees g) st))
     = snd out) /\
  (exists d,
     SelfHealingEngine.getIssueDoc
       (SelfHealingEngine.issueKey (issue_id issue))
       (SelfHealingEngine.env (SelfHealingEngine.recordIssue amb issue g))
       = Some d /\ resolved d = Some false).
Proof.
  cbv zeta. split; [|split].
  - unfold SelfHealingEngine.handleIssue.
    change (SelfHealingEngine.decisionTrees
              (SelfHealingEngine.recordIssue amb issue g))
      with (SelfHealingEngine.decisionTrees g).
    destruct (SelfHealingEngine.decisionTrees g (issue_type issue)) as [tree|].
    + destruct (evaluate tree (issue_context issue)) as [[] [act|]];
        cbn [matched result fst snd].
      * rewrite executeAction_issuesResolved. reflexivity.
      * cbn. lia.
      * cbn. lia.
      * cbn. lia.
    + cbn. lia.
  - intros e st. unfold SelfHealingEngine.handleIssue.
    change (SelfHealingEngine.decisionTrees
              (SelfHealingEngine.recordIssue amb issue g))
      with (SelfHealingEngine.decisionTrees g).
    change (SelfHealingEngine.decisionTrees
              (SelfHealingEngine.recordIssue amb issue
                 (SelfHealingEngine.mkEngine e
                    (SelfHealingEngine.decisionTrees g) st)))
      with (SelfHealingEngine.decisionTrees g).
    destruct (SelfHealingEngine.decisionTrees g (issue_type issue)) as [tree|];
      [|reflexivity].
    destruct (evaluate tree (issue_context issue)) as [[] [act|]]; reflexivity.
  - destruct (recordIssue_stored amb issue g) as [d [H1 [H2 _]]].
    exists d. split; assumption.
Qed.

(* --------------------------------------------------------------------- *)
(** ** The orchestrator's transitions *)
(* --------------------------------------------------------------------- *)

(** C2, counterexample: a COMPLETED job is cancelled on request (reply
    200, stored status CANCELLED) and is run again on request (reply 200,
    stored status RUNNING, attempts 2). *)
Lemma terminal_jobs_are_not_frozen :
  ~ terminal_jobs_are_frozen /\
  (let out := JobOrchestrator.cancelJob someAmbient "job_7" (oneJob completedJob) in
   http_status (snd out) = 200 /\
   JobOrchestrator.o_status <$> JobOrchestrator.getJob "job_7" (fst out)
     = Some CANCELLED) /\
  (let out := JobOrchestrator.runJob someAmbient "job_7" (oneJob completedJob) in
   http_status (snd out) = 200 /\
   JobOrchestrator.o_status <$> JobOrchestrator.getJob "job_7" (fst out)
     = Some RUNNING /\
   JobOrchestrator.o_attempts <$> JobOrchestrator.getJob "job_7" (fst out)
     = Some 2).
Proof.
  split; [|split; vm_compute; repeat split].
  intros H.
  destruct (H someAmbient "job_7" (oneJob completedJob) completedJob)
    as [[E _] _]; [vm_compute; reflexivity | reflexivity |].
  vm_compute in E. discriminate E.
Qed.

Lemma getJob_insert id j st :
  JobOrchestrator.getJob id
    (<[ JobOrchestrator.jobKey id := JobOrchestrator.SJob j ]> st) = Some j.
Proof. unfold JobOrchestrator.getJob. now rewrite lookup_insert_eq. Qed.

(** C2 (amended). The orchestrator has no rule for terminal states: for
    every stored job whose status is COMPLETED, CANCELLED, FAILED or
    ESCALATED, [cancelJob] replies 200 and stores the job as CANCELLED,
    and [runJob] replies 200 and stores the job as RUNNING with its
    attempts counter incremented.  The only status-dependent refusal of
    these two operations is the 400 reply of [cancelJob] on a RUNNING
    job, which leaves the storage unchanged: [runJob] reads no status at
    all and does the same for a stored job of every status, and
    [cancelJob] cancels a stored job of every status other than
    RUNNING. *)
Theorem terminal_jobs_still_transition
  (amb : Ambient) (id : string) (st : gmap string JobOrchestrator.Stored)
  (job : JobOrchestrator.OJob) :
  JobOrchestrator.getJob id st = Some job ->
  (terminal (JobOrchestrator.o_status job) = true ->
     (exists job',
        JobOrchestrator.cancelJob amb id st
          = (<[ JobOrchestrator.jobKey id := JobOrchestrator.SJob job' ]> st,
             mkResponse 200 [("ok", "true")]) /\
        JobOrchestrator.o_status job' = CANCELLED /\
        JobOrchestrator.o_attempts job' = JobOrchestrator.o_attempts job) /\
     (exists job',
        JobOrchestrator.runJob amb id st
          = (<[ JobOrchestrator.jobKey id := JobOrchestrator.SJob job' ]> st,
             mkResponse 200 [("status", "started")]) /\
        JobOrchestrator.o_status job' = RUNNING /\
        JobOrchestrator.o_attempts job' = JobOrchestrator.o_attempts job + 1)) /\
  (JobOrchestrator.o_status job = RUNNING ->
     JobOrchestrator.cancelJob amb id st
       = (st, mkResponse 400 [("error", "Cannot cancel running job")])) /\
  (JobOrchestrator.o_status job <> RUNNING ->
     exists job',
       JobOrchestrator.cancelJob amb id st
         = (<[ JobOrchestrator.jobKey id := JobOrchestrator.SJob job' ]> st,
            mkResponse 200 [("ok", "true")]) /\
       JobOrchestrator.o_status job' = CANCELLED /\
       JobOrchestrator.o_attempts job' = JobOrchestrator.o_attempts job /\
       JobOrchestrator.o_cancelledAt job' = Some (msNow amb)) /\
  (exists job',
     JobOrchestrator.runJob amb id st
       = (<[ JobOrchestrator.jobKey id := JobOrchestrator.SJob job' ]> st,
          mkResponse 200 [("status", "started")]) /\
     JobOrchestrator.o_status job' = RUNNING /\
     JobOrchestrator.o_attempts job' = JobOrchestrator.o_attempts job + 1 /\
     JobOrchestrator.o_startedAt job' = Some (msNow amb)) /\
  (is_error (snd (JobOrchestrator.cancelJob amb id st)) = true
   <-> JobOrchestrator.o_status job = RUNNING) /\
  is_error (snd (JobOrchestrator.runJob amb id st)) = false.
Proof.
  intros Hget.
  assert (Hcancel : JobOrchestrator.o_status job <> RUNNING ->
            exists job',
              JobOrchestrator.cancelJob amb id st
              = (<[ JobOrchestrator.jobKey id := JobOrchestrator.SJob job' ]> st,
                 mkResponse 200 [("ok", "true")]) /\
              JobOrchestrator.o_status job' = CANCELLED /\
              JobOrchestrator.o_attempts job' = JobOrchestrator.o_attempts job /\
              JobOrchestrator.o_cancelledAt job' = Some (msNow amb)).
  { intros Hne. unfold JobOrchestrator.cancelJob. rewrite Hget.
    destruct (JobOrchestrator.o_status job); try (now contradict Hne);
      cbn [JobState_eqb]; eexists; repeat split. }
  assert (Hrun : exists job',
            JobOrchestrator.runJob amb id st
            = (<[ JobOrchestrator.jobKey id := JobOrchestrator.SJob job' ]> st,
               mkResponse 200 [("status", "started")]) /\
            JobOrchestrator.o_status job' = RUNNING /\
            JobOrchestrator.o_attempts job' = JobOrchestrator.o_attempts job + 1 /\
            JobOrchestrator.o_startedAt job' = Some (msNow amb)).
  { unfold JobOrchestrator.runJob. rewrite Hget. eexists; repeat split. }
  assert (Hrefuse : JobOrchestrator.o_status job = RUNNING ->
            JobOrchestrator.cancelJob amb id st
            = (st, mkResponse 400 [("error", "Cannot cancel running job")])).
  { intros Hr. unfold JobOrchestrator.cancelJob. rewrite Hget, Hr. reflexivity. }
  split; [|split; [exact Hrefuse|split; [exact Hcancel|split; [exact Hrun|split]]]].
  - intros Hterm.
    assert (Hne : JobOrchestrator.o_status job <> RUNNING).
    { intros E. rewrite E in Hterm. discriminate Hterm. }
    split.
    + destruct (Hcancel Hne) as (job' & E & A & B & _). exists job'. auto.
    + destruct Hrun as (job' & E & A & B & _). exists job'. auto.
  - split.
    + intros Herr.
      destruct (JobState_eqb (JobOrchestrator.o_status job) RUNNING) eqn:Eb.
      * destruct (JobOrchestrator.o_status job); try discriminate Eb.
        reflexivity.
      * exfalso.
        assert (Hne : JobOrchestrator.o_status job <> RUNNING).
        { intros E. rewrite E in Eb. discriminate Eb. }
        destruct (Hcancel Hne) as (job' & E & _). rewrite E in Herr.
        discriminate Herr.
    + intros Hr. rewrite (Hrefuse Hr). reflexivity.
  - destruct Hrun as (job' & E & _). rewrite E. reflexivity.
Qed.

Lemma terminal_jobs_still_transition_witness :
  (exists job',
     JobOrchestrator.cancelJob someAmbient "job_7" (oneJob completedJob)
       = (<[ JobOrchestrator.jobKey "job_7" := JobOrchestrator.SJob job' ]>
            (oneJob completedJob),
          mkResponse 200 [("ok", "true")]) /\
     JobOrchestrator.o_status job' = CANCELLED /\
     JobOrchestrator.o_attempts job' = 1) /\
  (exists job',
     JobOrchestrator.runJob someAmbient "job_7" (oneJob completedJob)
       = (<[ JobOrchestrator.jobKey "job_7" := JobOrchestrator.SJob job' ]>
            (oneJob completedJob),
          mkResponse 200 [("status", "started")]) /\
     JobOrchestrator.o_status job' = RUNNING /\
     JobOrchestrator.o_attempts job' = 1 + 1) /\
  JobOrchestrator.cancelJob someAmbient "job_8" (oneJob runningJob)
    = (oneJob runningJob, mkResponse 400 [("error", "Cannot cancel running job")]).
Proof.
  split; [|split].
  - apply (proj1 (terminal_jobs_still_transition someAmbient "job_7"
                    (oneJob completedJob) completedJob
                    (getJob_insert "job_7" completedJob ∅))).
    reflexivity.
  - apply (proj1 (terminal_jobs_still_transition someAmbient "job_7"
                    (oneJob completedJob) completedJob
                    (getJob_insert "job_7" completedJob ∅))).
    reflexivity.
  - apply (proj1 (proj2 (terminal_jobs_still_transition someAmbient "job_8"
                    (oneJob runningJob) runningJob
                    (getJob_insert "job_8" runningJob ∅)))).
    reflexivity.
Defined.

(* --------------------------------------------------------------------- *)
(** ** Cancellation *)
(* --------------------------------------------------------------------- *)

(** The orchestrator's [cancelJob] does what the specification asks: a
    RUNNING job is refused with a 400 reply and the storage is unchanged;
    a PENDING job is stored as CANCELLED with a 200 reply. *)
Lemma orchestrator_cancel_guard
  (amb : Ambient) (id : string) (st : gmap string JobOrchestrator.Stored)
  (job : JobOrchestrator.OJob) :
  JobOrchestrator.getJob id st = Some job ->
  (JobOrchestrator.o_status job = RUNNING ->
     is_error (snd (JobOrchestrator.cancelJob amb id st)) = true /\
     fst (JobOrchestrator.cancelJob amb id st) = st) /\
  (JobOrchestrator.o_status job = PENDING ->
     http_status (snd (JobOrchestrator.cancelJob amb id st)) = 200 /\
     JobOrchestrator.o_status
       <$> JobOrchestrator.getJob id (fst (JobOrchestrator.cancelJob amb id st))
       = Some CANCELLED).
Proof.
  intros Hget. unfold JobOrchestrator.cancelJob. rewrite Hget.
  split; intros ->; cbn [JobState_eqb fst snd].
  - split; reflexivity.
  - split; [reflexivity|]. now rewrite getJob_insert.
Qed.

(** The loop of [alarm] passes over an entry that is not PENDING, so a
    cancelled job is not dispatched by it. *)
Lemma alarmStep_skips_non_pending tick done work st k job :
  JobOrchestrator.o_status job <> PENDING ->
  JobOrchestrator.alarmStep tick done work st (k, JobOrchestrator.SJob job) = st.
Proof.
  intros H. unfold JobOrchestrator.alarmStep.
  destruct (JobOrchestrator.o_status job); try reflexivity.
  now contradict H.
Qed.

(** C6, the code at the failing input and in general.  The API worker's
    [cancelJob] (DELETE /api/jobs/:id) never looks at the status: for
    every job stored in JOB_QUEUE with status RUNNING it replies 200 with
    status "cancelled" and the document is gone afterwards; nothing is
    refused.  So for the running job [runningQueued]. *)
Theorem api_cancel_accepts_running_job (e : Env) (jobId : string) (job : Job) :
  JOB_QUEUE e !! jobId = Some job ->
  status job = RUNNING ->
  let out := Api.cancelJob jobId e in
  is_error (snd out) = false /\
  snd out = mkResponse 200 [("status", "cancelled"); ("jobId", jobId)] /\
  JOB_QUEUE (fst out) !! jobId = None /\
  AGENT_STATE (fst out) = AGENT_STATE e.
Proof.
  intros _ _. cbv zeta. unfold Api.cancelJob. cbn [fst snd].
  repeat split. cbn. apply lookup_delete_eq.
Qed.

Lemma api_cancel_accepts_running_job_witness :
  let out := Api.cancelJob "job_5" (queueWith runningQueued) in
  is_error (snd out) = false /\
  snd out = mkResponse 200 [("status", "cancelled"); ("jobId", "job_5")] /\
  JOB_QUEUE (fst out) !! "job_5" = None /\
  AGENT_STATE (fst out) = AGENT_STATE (queueWith runningQueued).
Proof.
  apply (api_cancel_accepts_running_job (queueWith runningQueued) "job_5"
           runningQueued).
  - reflexivity.
  - reflexivity.
Defined.

(* --------------------------------------------------------------------- *)
(** ** The attempts counter *)
(* --------------------------------------------------------------------- *)

(** C3, the code at the failing input and in general.
    [processQueuedJob] stores [attempts + 1] before running the job and,
    when the job throws, chooses between FAILED and PENDING by comparing
    the attempts value it was given (before the increment) with
    [maxAttempts]: the stored job becomes FAILED only in the execution
    that stores [attempts = maxAttempts + 1] or more, and the counter
    stays above [maxAttempts] in the stored FAILED document.  For a job
    created with the defaults and failing each time: after three
    deliveries it is PENDING with attempts 3 of 3, after the fourth it
    is FAILED with attempts 4 of 3. *)
Theorem processQueuedJob_overshoots_maxAttempts
  (run : Job -> Env -> Env * Outcome string) (amb : Ambient)
  (job : Job) (e : Env) :
  JOB_QUEUE e !! job_id job = Some job ->
  JobScheduler.builtin (job_type job) = false ->
  let out := JobScheduler.processQueuedJob run amb job e in
  (exists j',
     JOB_QUEUE (fst out) !! job_id job = Some j' /\
     attempts j' = attempts job + 1 /\
     maxAttempts j' = maxAttempts job /\
     status j' = (if maxAttempts job <=? attempts job then FAILED else PENDING) /\
     (status j' = FAILED -> maxAttempts j' < attempts j')) /\
  counters customQueue = Some (PENDING, 0, 3) /\
  counters (deliver customId (deliver customId (deliver customId customQueue)))
    = Some (PENDING, 3, 3) /\
  counters (deliver customId (deliver customId (deliver customId
              (deliver customId customQueue))))
    = Some (FAILED, 4, 3).
Proof.
  intros Hget Hb. cbv zeta.
  split; [|repeat split; vm_compute; reflexivity].
  unfold JobScheduler.processQueuedJob, JobScheduler.updateJob,
    JobScheduler.executeJob.
  rewrite Hget, Hb. cbn -[N.leb N.add].
  rewrite lookup_insert_eq. cbn -[N.leb N.add].
  rewrite lookup_insert_eq.
  eexists. split; [reflexivity|]. cbn -[N.leb N.add].
  repeat split.
  destruct (maxAttempts job <=? attempts job) eqn:E; [|discriminate].
  intros _. apply N.leb_le in E. lia.
Qed.

Lemma processQueuedJob_overshoots_maxAttempts_witness :
  exists j',
    JOB_QUEUE (fst (JobScheduler.processQueuedJob noRunner someAmbient
                      exhaustedQueued (queueWith exhaustedQueued)))
      !! "job_6" = Some j' /\
    attempts j' = 3 + 1 /\
    maxAttempts j' = 3 /\
    status j' = FAILED /\
    (status j' = FAILED -> maxAttempts j' < attempts j').
Proof.
  apply (proj1 (processQueuedJob_overshoots_maxAttempts noRunner someAmbient
                  exhaustedQueued (queueWith exhaustedQueued)
                  eq_refl eq_refl)).
Defined.

Section ProcessJob.

Variable work : nat -> Outcome string.
Variable healed : Worker.WJob -> bool.
Variable amb : Ambient.
Variable toLowerCase : string -> string.
Variable uuid : nat -> string.

Lemma processJobFrom_total (fuel : nat) :
  forall job k sv sl,
    (N.to_nat (Worker.w_maxAttempts job - Worker.w_attempts job) < fuel)%nat ->
    exists run,
      Worker.processJobFrom work healed amb toLowerCase uuid fuel job k sv sl
      = Some run.
Proof.
  induction fuel as [|fuel IH]; intros job k sv sl Hf; [lia|].
  cbn [Worker.processJobFrom].
  destruct (work k) as [r|msg]; [eauto|].
  destruct (Worker.w_attempts (Worker.start amb job)
            <? Worker.w_maxAttempts (Worker.start amb job)) eqn:E.
  - apply IH. apply N.ltb_lt in E. cbn in *. lia.
  - unfold Worker.attemptSelfHealing.
    destruct (Worker.isRetryableError toLowerCase msg); [eauto|].
    destruct (healed _); eauto.
Qed.

Lemma processJob_total job k :
  exists run,
    Worker.processJob work healed amb toLowerCase uuid job k = Some run.
Proof. apply processJobFrom_total. unfold Worker.enough. lia. Qed.

Lemma healingJob_within k : within (Worker.healingJob uuid k).
Proof. unfold within. cbn. lia. Qed.

Lemma processJobFrom_within (fuel : nat) :
  forall job k sv sl run,
    Worker.w_attempts job < Worker.w_maxAttempts job ->
    Forall within sv ->
    Worker.processJobFrom work healed amb toLowerCase uuid fuel job k sv sl
      = Some run ->
    Forall within (Worker.saved run) /\ within (Worker.final run) /\
    Worker.w_maxAttempts (Worker.final run) = Worker.w_maxAttempts job.
Proof.
  induction fuel as [|fuel IH]; intros job k sv sl run Hlt Hsv Hrun;
    [discriminate|].
  cbn [Worker.processJobFrom] in Hrun.
  assert (H1 : within (Worker.start amb job)).
  { unfold within. cbn. lia. }
  destruct (work k) as [r|msg].
  - injection Hrun as <-. cbn [Worker.saved Worker.final].
    assert (H2 : within (Worker.complete amb r (Worker.start amb job)))
      by exact H1.
    split; [|split; [exact H2 | reflexivity]].
    repeat (apply Forall_app; split); auto.
  - destruct (Worker.w_attempts (Worker.start amb job)
              <? Worker.w_maxAttempts (Worker.start amb job)) eqn:E.
    + apply N.ltb_lt in E.
      apply IH in Hrun; [exact Hrun | exact E |].
      repeat (apply Forall_app; split); auto.
    + assert (H2 : within (Worker.healing_exhausted (Worker.start amb job)))
        by exact H1.
      pose proof (healingJob_within k) as H3.
      unfold Worker.attemptSelfHealing in Hrun.
      destruct (Worker.isRetryableError toLowerCase msg);
        [|destruct (healed (Worker.healing_exhausted (Worker.start amb job)))];
        injection Hrun as <-; cbn [Worker.saved Worker.final];
        (split; [|split; [exact H2 | reflexivity]]);
        repeat (apply Forall_app; split); auto.
Qed.

(** [processJob] on a job below its limit: a result exists and every
    saved document has [attempts <= maxAttempts]. *)
Lemma processJob_within job k :
  Worker.w_attempts job < Worker.w_maxAttempts job ->
  exists run,
    Worker.processJob work healed amb toLowerCase uuid job k = Some run /\
    Forall within (Worker.saved run) /\ within (Worker.final run).
Proof.
  intros Hlt. destruct (processJob_total job k) as [run Hrun].
  exists run. split; [exact Hrun|].
  unfold Worker.processJob in Hrun.
  apply processJobFrom_within in Hrun; [|exact Hlt | constructor].
  tauto.
Qed.



End ProcessJob.

(** [retryStrategy] resets the counter to 0 before each call of
    [processJob], so its calls stay within the limit as well. *)
Lemma retryLoop_within work healed amb lower uuid (ds : list N) :
  forall i job k sv sl sr job' sv' sl' k',
    (forall j, job = Some j -> 0 < Worker.w_maxAttempts j) ->
    Forall within sv ->
    Worker.retryLoop work healed amb lower uuid ds i job k sv sl
      = Some (sr, job', sv', sl', k') ->
    Forall within sv'.
Proof.
  induction ds as [|d ds IH]; intros i job k sv sl sr job' sv' sl' k' Hpos Hsv H.
  - cbn in H. injection H as <- <- <- <- <-. exact Hsv.
  - cbn [Worker.retryLoop] in H. destruct job as [j|].
    + destruct (Worker.processJobFrom work healed amb lower uuid
                  (Worker.enough (Worker.resetAttempts j))
                  (Worker.resetAttempts j) k sv (sl ++ [d])) as [run|] eqn:E;
        [|discriminate].
      apply processJobFrom_within in E; [|cbn; now apply Hpos | exact Hsv].
      destruct E as [E1 [_ E3]].
      destruct (Worker.ended run).
      * injection H as <- <- <- <- <-. exact E1.
      * eapply IH; [| exact E1 | exact H].
        intros j' [= <-]. rewrite E3. cbn. now apply Hpos.
    + eapply IH; [| exact Hsv | exact H]. intros j' [=].
Qed.

(* --------------------------------------------------------------------- *)
(** ** Retry backoff *)
(* --------------------------------------------------------------------- *)

Lemma backoffDelay_nextDelay (base : N) (i : nat) :
  Helpers.backoffDelay base i = BackoffSpec.nextDelay base (N.of_nat (S i)).
Proof.
  unfold Helpers.backoffDelay, BackoffSpec.nextDelay.
  rewrite Nat2N.inj_succ, N.sub_1_r, N.pred_succ. reflexivity.
Qed.


Lemma cadence_backoff (base : N) (n : nat) :
  map (Helpers.backoffDelay base) (seq 0 n) = cadence base n.
Proof.
  unfold cadence. rewrite <- seq_shift, map_map.
  apply map_ext. intros i. apply backoffDelay_nextDelay.
Qed.

Section RetryLoop.

Context {A : Type}.
Variable fn : nat -> Outcome A.
Variable maxRetries : nat.
Variable baseDelay : N.

Lemma retryLoop_success (j : nat) :
  forall todo attempt lastError sl a,
    (attempt + todo = maxRetries)%nat -> (j < todo)%nat ->
    throws_from fn attempt j -> fn (attempt + j)%nat = Returned a ->
    Helpers.retryLoop fn maxRetries baseDelay todo attempt lastError sl
      = (sl ++ map (Helpers.backoffDelay baseDelay) (seq attempt j),
         Helpers.Done a).
Proof.
  induction j as [|j IH]; intros todo attempt lastError sl a Hsum Hj Hth Hok.
  - destruct todo as [|todo]; [lia|]. cbn [Helpers.retryLoop].
    rewrite Nat.add_0_r in Hok. rewrite Hok. cbn. now rewrite app_nil_r.
  - destruct todo as [|todo]; [lia|]. cbn [Helpers.retryLoop].
    destruct (Hth 0%nat) as [e He]; [lia|]. rewrite Nat.add_0_r in He.
    rewrite He.
    assert (W : Helpers.willRetry attempt maxRetries = true).
    { unfold Helpers.willRetry. apply Nat.ltb_lt. lia. }
    rewrite W, (IH todo (S attempt) (Some e) _ a).
    + cbn [seq map]. now rewrite <- app_assoc.
    + lia.
    + lia.
    + intros i Hi. destruct (Hth (S i)) as [e' He']; [lia|].
      exists e'. rewrite <- He'. f_equal. lia.
    + rewrite <- Hok. f_equal. lia.
Qed.

Lemma retryLoop_exhausted (todo : nat) :
  forall attempt lastError sl,
    (attempt + todo = maxRetries)%nat ->
    throws_from fn attempt todo ->
    exists last,
      Helpers.retryLoop fn maxRetries baseDelay todo attempt lastError sl
        = (sl ++ map (Helpers.backoffDelay baseDelay) (seq attempt (todo - 1)),
           Helpers.GaveUp last) /\
      (todo <> 0%nat -> last <> None).
Proof.
  induction todo as [|todo IH]; intros attempt lastError sl Hsum Hth.
  - exists lastError. cbn. rewrite app_nil_r. split; [reflexivity | lia].
  - cbn [Helpers.retryLoop].
    destruct (Hth 0%nat) as [e He]; [lia|]. rewrite Nat.add_0_r in He.
    rewrite He.
    assert (Hth' : throws_from fn (S attempt) todo).
    { intros i Hi. destruct (Hth (S i)) as [e' He']; [lia|].
      exists e'. rewrite <- He'. f_equal. lia. }
    destruct todo as [|todo].
    + assert (W : Helpers.willRetry attempt maxRetries = false).
      { unfold Helpers.willRetry. apply Nat.ltb_ge. lia. }
      rewrite W. cbn. rewrite app_nil_r. exists (Some e).
      split; [reflexivity | discriminate].
    + assert (W : Helpers.willRetry attempt maxRetries = true).
      { unfold Helpers.willRetry. apply Nat.ltb_lt. lia. }
      rewrite W.
      destruct (IH (S attempt) (Some e)
                   (sl ++ [Helpers.backoffDelay baseDelay attempt]))
        as [last [E Hl]]; [lia | exact Hth' |].
      exists last. split; [|intros _; apply Hl; lia].
      rewrite E. replace (S (S todo) - 1)%nat with (S todo) by lia.
      replace (S todo - 1)%nat with todo by lia.
      cbn [seq map]. now rewrite <- app_assoc.
Qed.

End RetryLoop.




(** The agent-jobs worker on a job that fails three times with the
    default limit of 3 and an error that is not retryable: two sleeps,
    of 2000 and 4000 ms, and the counter ends at 3.  With a retryable
    error the four sleeps of the self-healing follow. *)
Example processJob_three_failures :
  let job := Worker.mkWJob "j" "repo_sync" PENDING 0 3 0 None None None None None in
  (fun run => (Worker.slept run, Worker.w_attempts (Worker.final run)))
    <$> Worker.processJob (fun _ => Thrown "boom") (fun _ => true) someAmbient
          (fun s => s) (fun _ => "u") job 0
  = Some ([2000; 4000], 3) /\
  (fun run => (Worker.slept run, Worker.w_attempts (Worker.final run)))
    <$> Worker.processJob (fun _ => Thrown "network down") (fun _ => true)
          someAmbient (fun s => s) (fun _ => "u") job 0
  = Some ([2000; 4000; 2000; 4000; 8000; 16000], 3).
Proof. split; reflexivity. Qed.

(* ===================================================================== *)
(** * Further properties of the code *)
(* ===================================================================== *)

(* --------------------------------------------------------------------- *)
(** ** The cron-failure and cohesion-drift trees *)
(* --------------------------------------------------------------------- *)

(** X1. The cron-failure tree on any context: LEARN when
    consecutiveFailures < 3 and ESCALATE when it is >= 3; when the member
    is missing no child matches and, the tree having no fallback, the
    evaluation is unmatched.  The failure count and the severity that
    [handleCronFailure] reports agree with the tree: the issue is HIGH
    exactly when the tree escalates. *)
Theorem cron_failure_tree_decides (ctx : Ctx) :
  (forall n, ctx_consecutiveFailures ctx = Some n -> n < 3 ->
     evaluate cron_failure_tree ctx =
       decided LEARN "Logging failure for pattern analysis" None /\
     EngineScan.cronSeverity n = LOW) /\
  (forall n, ctx_consecutiveFailures ctx = Some n -> 3 <= n ->
     evaluate cron_failure_tree ctx =
       decided ESCALATE "Multiple consecutive failures - needs investigation"
               None /\
     EngineScan.cronSeverity n = HIGH) /\
  (ctx_consecutiveFailures ctx = None ->
     evaluate cron_failure_tree ctx = mkEval false None).
Proof.
  unfold cron_failure_tree, EngineScan.cronSeverity.
  split; [|split].
  - intros n Hn Hlt. rewrite evaluate_unfold. cbn. rewrite Hn. cbn.
    apply N.ltb_lt in Hlt as Hb. rewrite Hb. split; [reflexivity|].
    destruct (N.leb_spec 3 n); [lia | reflexivity].
  - intros n Hn Hle. rewrite evaluate_unfold. cbn. rewrite Hn. cbn.
    apply N.ltb_ge in Hle as Hb. rewrite Hb. cbn.
    apply N.leb_le in Hle as Hc. rewrite Hc. split; reflexivity.
  - intros Hn. rewrite evaluate_unfold. cbn. rewrite Hn. reflexivity.
Qed.

Lemma cron_failure_tree_decides_witness :
  evaluate cron_failure_tree
    (mkCtx None None None None (Some "boom") (Some 1) None None None None)
    = decided LEARN "Logging failure for pattern analysis" None /\
  evaluate cron_failure_tree
    (mkCtx None None None None (Some "boom") (Some 3) None None None None)
    = decided ESCALATE "Multiple consecutive failures - needs investigation"
              None /\
  evaluate cron_failure_tree emptyCtx = mkEval false None.
Proof.
  split; [|split].
  - apply (proj1 (cron_failure_tree_decides _) 1); reflexivity.
  - apply (proj1 (proj2 (cron_failure_tree_decides _)) 3);
      [reflexivity | discriminate].
  - apply (proj2 (proj2 (cron_failure_tree_decides emptyCtx))). reflexivity.
Defined.

(** X2. The cohesion-drift tree on any context with a drift score: the
    three children split the scores without gap or overlap: NOTIFY below
    20, LEARN from 20 to 49, ESCALATE from 50 on. *)
Theorem cohesion_drift_tree_decides (ctx : Ctx) (score : N) :
  ctx_driftScore ctx = Some score ->
  evaluate cohesion_drift_tree ctx =
    if score <? 20 then decided NOTIFY "Minor cohesion drift detected" None
    else if score <? 50
    then decided LEARN "Significant drift - creating recommendations" None
    else decided ESCALATE
           "Critical cohesion drift - immediate attention needed" None.
Proof.
  intros Hs. unfold cohesion_drift_tree. rewrite evaluate_unfold.
  cbn. rewrite Hs. cbn.
  destruct (N.ltb_spec score 20) as [H20|H20]; cbn; [reflexivity|].
  apply N.leb_le in H20 as ->. cbn.
  destruct (N.ltb_spec score 50) as [H50|H50]; cbn; [reflexivity|].
  apply N.leb_le in H50 as ->. reflexivity.
Qed.

Lemma cohesion_drift_tree_decides_witness :
  evaluate cohesion_drift_tree
    (mkCtx None None None None None None (Some 30) None None None)
  = decided LEARN "Significant drift - creating recommendations" None.
Proof.
  apply (cohesion_drift_tree_decides
           (mkCtx None None None None None None (Some 30) None None None) 30).
  reflexivity.
Defined.

(* --------------------------------------------------------------------- *)
(** ** Active issues *)
(* --------------------------------------------------------------------- *)

Lemma getActiveIssues_spec (e : Env) (id : string) (d : IssueDoc) :
  (SelfHealingEngine.issueKey id, d) ∈ EngineScan.getActiveIssues e <->
  AGENT_STATE e !! SelfHealingEngine.issueKey id = Some (VIssue d) /\
  truthy_bool (resolved d) = false.
Proof.
  unfold EngineScan.getActiveIssues. rewrite list_elem_of_omap. split.
  - intros [[k v] [Hin Hf]]. apply elem_of_map_to_list in Hin.
    destruct v as [d'| | |]; try discriminate Hf.
    destruct (JS.startsWith "issue:" k && negb (truthy_bool (resolved d')))
      eqn:E; [|discriminate Hf].
    injection Hf as -> ->. apply andb_true_iff in E as [_ E].
    apply negb_true_iff in E. split; assumption.
  - intros [Hl Hr]. exists (SelfHealingEngine.issueKey id, VIssue d).
    split; [apply elem_of_map_to_list; exact Hl|].
    cbn -[JS.startsWith]. rewrite Hr.
    replace (JS.startsWith "issue:" (SelfHealingEngine.issueKey id))
      with true by reflexivity.
    reflexivity.
Qed.

(** Lookups through the inserts that the engine makes. *)
Ltac through_inserts :=
  repeat (rewrite lookup_insert_eq
          || (rewrite lookup_insert_ne by discriminate)).

Lemma handleIssue_stored_doc (amb : Ambient) (issue : Issue)
  (g : SelfHealingEngine.Engine) :
  let out := SelfHealingEngine.handleIssue amb issue g in
  exists d,
    AGENT_STATE (SelfHealingEngine.env (fst out))
      !! SelfHealingEngine.issueKey (issue_id issue) = Some (VIssue d) /\
    doc_id d = Some (issue_id issue) /\
    truthy_bool (resolved d) = (resolves (snd out) =? 1).
Proof.
  cbv zeta. unfold SelfHealingEngine.handleIssue.
  change (SelfHealingEngine.decisionTrees
            (SelfHealingEngine.recordIssue amb issue g))
    with (SelfHealingEngine.decisionTrees g).
  destruct (SelfHealingEngine.decisionTrees g (issue_type issue)) as [tree|].
  - destruct (evaluate tree (issue_context issue)) as [[] [act|]];
      cbn [matched result fst snd].
    + unfold SelfHealingEngine._executeAction, resolves.
      destruct (action act) as [[]|];
        try (unfold SelfHealingEngine._resetState;
             destruct (issue_type issue);
             destruct (ctx_jobId (issue_context issue)) as [jid|];
             try destruct (String.eqb jid ""));
        cbn -[logKey SelfHealingEngine.issueKey
              SelfHealingEngine.escalationKey N.eqb];
        unfold SelfHealingEngine.getIssueDoc;
        cbn -[logKey SelfHealingEngine.issueKey
              SelfHealingEngine.escalationKey N.eqb];
        through_inserts;
        cbn -[logKey SelfHealingEngine.issueKey
              SelfHealingEngine.escalationKey N.eqb];
        through_inserts;
        eexists; (split; [reflexivity|]); split; reflexivity.
    + cbn -[logKey SelfHealingEngine.issueKey]. through_inserts.
      eexists; (split; [reflexivity|]); split; reflexivity.
    + cbn -[logKey SelfHealingEngine.issueKey]. through_inserts.
      eexists; (split; [reflexivity|]); split; reflexivity.
    + cbn -[logKey SelfHealingEngine.issueKey]. through_inserts.
      eexists; (split; [reflexivity|]); split; reflexivity.
  - cbn -[logKey SelfHealingEngine.issueKey]. through_inserts.
    eexists; (split; [reflexivity|]); split; reflexivity.
Qed.

(** X3. After [handleIssue] the issue is stored under its key with its
    id, and its [resolved] member is true exactly when the reply is a
    SKIP or RESET action.  So the issue is listed by [getActiveIssues],
    and [getStatus] reports [healthy: false], after every other reply:
    RETRY, ESCALATE, LEARN, NOTIFY, a missing tree or an unmatched
    evaluation all leave the issue active. *)
Theorem handled_issue_is_active_unless_resolved (amb : Ambient)
  (issue : Issue) (g : SelfHealingEngine.Engine) :
  let out := SelfHealingEngine.handleIssue amb issue g in
  (exists d,
     AGENT_STATE (SelfHealingEngine.env (fst out))
       !! SelfHealingEngine.issueKey (issue_id issue) = Some (VIssue d) /\
     doc_id d = Some (issue_id issue) /\
     truthy_bool (resolved d) = (resolves (snd out) =? 1)) /\
  ((exists d, (SelfHealingEngine.issueKey (issue_id issue), d)
              ∈ EngineScan.getActiveIssues (SelfHealingEngine.env (fst out)))
   <-> resolves (snd out) = 0) /\
  (resolves (snd out) = 0 ->
   EngineScan.healthy (EngineScan.getStatus (fst out)) = false).
Proof.
  cbv zeta.
  destruct (handleIssue_stored_doc amb issue g) as [d [Hd [Hid Hr]]].
  assert (R : resolves (snd (SelfHealingEngine.handleIssue amb issue g)) = 0
              \/ resolves (snd (SelfHealingEngine.handleIssue amb issue g)) = 1).
  { unfold resolves.
    destruct (action (snd (SelfHealingEngine.handleIssue amb issue g)))
      as [[]|]; auto. }
  assert (A : resolves (snd (SelfHealingEngine.handleIssue amb issue g)) = 0 ->
              (SelfHealingEngine.issueKey (issue_id issue), d)
              ∈ EngineScan.getActiveIssues
                  (SelfHealingEngine.env
                     (fst (SelfHealingEngine.handleIssue amb issue g)))).
  { intros H0. apply getActiveIssues_spec. split; [exact Hd|].
    rewrite Hr, H0. reflexivity. }
  split; [exists d; auto|]. split; [split|].
  - intros [d' Hin]. apply getActiveIssues_spec in Hin as [Hd' Hf].
    rewrite Hd in Hd'. injection Hd' as <-.
    destruct R as [R|R]; [exact R|].
    rewrite Hr, R in Hf. discriminate Hf.
  - intros H0. exists d. apply A, H0.
  - intros H0. unfold EngineScan.getStatus. cbn [EngineScan.healthy].
    apply A in H0.
    destruct (EngineScan.getActiveIssues _) as [|x l]; [|reflexivity].
    inversion H0.
Qed.

(* --------------------------------------------------------------------- *)
(** ** What [handleIssue] writes *)
(* --------------------------------------------------------------------- *)

(** X4. [handleIssue] writes to LEARNING_MEMORY only for a SKIP or a
    LEARN reply: it then stores one Learning, with outcome "skipped" or
    "learned", under the id that [generateId] returns; every other reply
    leaves LEARNING_MEMORY as it was.  The [learnings] counter grows
    only for LEARN, so a Learning stored by SKIP is not counted. *)
Theorem handleIssue_learning_memory (amb : Ambient) (issue : Issue)
  (g : SelfHealingEngine.Engine) :
  let out := SelfHealingEngine.handleIssue amb issue g in
  let before := LEARNING_MEMORY (SelfHealingEngine.env g) in
  LEARNING_MEMORY (SelfHealingEngine.env (fst out)) =
    match action (snd out) with
    | Some SKIP =>
        <[ Helpers.generateId "learning" amb := learningOf amb issue "skipped" ]>
          before
    | Some LEARN =>
        <[ Helpers.generateId "learning" amb := learningOf amb issue "learned" ]>
          before
    | _ => before
    end /\
  SelfHealingEngine.learnings (SelfHealingEngine.stats (fst out)) =
    SelfHealingEngine.learnings (SelfHealingEngine.stats g)
    + match action (snd out) with Some LEARN => 1 | _ => 0 end.
Proof.
  cbv zeta. unfold SelfHealingEngine.handleIssue.
  change (SelfHealingEngine.decisionTrees
            (SelfHealingEngine.recordIssue amb issue g))
    with (SelfHealingEngine.decisionTrees g).
  destruct (SelfHealingEngine.decisionTrees g (issue_type issue)) as [tree|].
  - destruct (evaluate tree (issue_context issue)) as [[] [act|]];
      cbn [matched result fst snd].
    + unfold SelfHealingEngine._executeAction.
      destruct (action act) as [[]|];
        try (unfold SelfHealingEngine._resetState;
             destruct (issue_type issue);
             destruct (ctx_jobId (issue_context issue)) as [jid|];
             try destruct (String.eqb jid ""));
        cbn; split; (reflexivity || lia).
    + cbn. split; [reflexivity | lia].
    + cbn. split; [reflexivity | lia].
    + cbn. split; [reflexivity | lia].
  - cbn. split; [reflexivity | lia].
Qed.

(** X5. [handleIssue] writes to JOB_QUEUE only for a RETRY or a RESET
    reply.  For RETRY it queues one job of type "retry_issue" (priority
    8, pending, no attempt made, limit 3) that names the issue, and the
    stored issue is rewritten from the in-memory issue: it carries the
    delay of the reply (5000 when the reply has none) and no longer has
    the [detectedAt] and [resolved] members.  For RESET it deletes the
    job named by a job-failure issue.  Every other reply leaves
    JOB_QUEUE as it was. *)
Theorem handleIssue_job_queue (amb : Ambient) (issue : Issue)
  (g : SelfHealingEngine.Engine) :
  let out := SelfHealingEngine.handleIssue amb issue g in
  let before := JOB_QUEUE (SelfHealingEngine.env g) in
  JOB_QUEUE (SelfHealingEngine.env (fst out)) =
    match action (snd out) with
    | Some RETRY =>
        <[ Helpers.generateId "job" amb := retryJobOf amb issue ]> before
    | Some RESET =>
        match issue_type issue, ctx_jobId (issue_context issue) with
        | JOB_FAILURE, Some jid =>
            if String.eqb jid "" then before else delete jid before
        | _, _ => before
        end
    | _ => before
    end /\
  (action (snd out) = Some RETRY ->
   exists d,
     AGENT_STATE (SelfHealingEngine.env (fst out))
       !! SelfHealingEngine.issueKey (issue_id issue) = Some (VIssue d) /\
     retryDelay d = Some (default (JS.Num 5000) (delay (snd out))) /\
     retryScheduledAt d = Some (isoNow amb) /\
     detectedAt d = None /\ resolved d = None).
Proof.
  cbv zeta. unfold SelfHealingEngine.handleIssue.
  change (SelfHealingEngine.decisionTrees
            (SelfHealingEngine.recordIssue amb issue g))
    with (SelfHealingEngine.decisionTrees g).
  destruct (SelfHealingEngine.decisionTrees g (issue_type issue)) as [tree|].
  - destruct (evaluate tree (issue_context issue)) as [[] [act|]];
      cbn [matched result fst snd].
    + unfold SelfHealingEngine._executeAction.
      destruct (action act) as [[]|] eqn:Ea;
        try (unfold SelfHealingEngine._resetState;
             destruct (issue_type issue);
             destruct (ctx_jobId (issue_context issue)) as [jid|];
             try destruct (String.eqb jid ""));
        (split; [reflexivity | try discriminate]).
      all: intros _; eexists;
        cbn -[logKey SelfHealingEngine.issueKey];
        rewrite lookup_insert_eq; repeat split; reflexivity.
    + cbn. split; [reflexivity | discriminate].
    + cbn. split; [reflexivity | discriminate].
    + cbn. split; [reflexivity | discriminate].
  - cbn. split; [reflexivity | discriminate].
Qed.

Lemma handleIssue_job_queue_witness :
  exists d,
    AGENT_STATE
      (SelfHealingEngine.env
         (fst (SelfHealingEngine.handleIssue someAmbient
                 (mkIssue "issue_5" JOB_FAILURE MEDIUM "Job j failed: boom"
                          (jobCtx 1 MEDIUM))
                 (SelfHealingEngine.constructor emptyEnv))))
      !! SelfHealingEngine.issueKey "issue_5" = Some (VIssue d) /\
    retryDelay d = Some (JS.Num 2000) /\
    retryScheduledAt d = Some (isoNow someAmbient) /\
    detectedAt d = None /\ resolved d = None.
Proof.
  apply (proj2 (handleIssue_job_queue someAmbient
                  (mkIssue "issue_5" JOB_FAILURE MEDIUM "Job j failed: boom"
                           (jobCtx 1 MEDIUM))
                  (SelfHealingEngine.constructor emptyEnv))).
  reflexivity.
Defined.

(* --------------------------------------------------------------------- *)
(** ** A full scan *)
(* --------------------------------------------------------------------- *)

Lemma handleIssue_counters (amb : Ambient) (issue : Issue)
  (g : SelfHealingEngine.Engine) :
  let out := SelfHealingEngine.handleIssue amb issue g in
  SelfHealingEngine.issuesDetected (SelfHealingEngine.stats (fst out))
    = SelfHealingEngine.issuesDetected (SelfHealingEngine.stats g) + 1 /\
  SelfHealingEngine.issuesResolved (SelfHealingEngine.stats (fst out))
    = SelfHealingEngine.issuesResolved (SelfHealingEngine.stats g)
      + resolves (snd out).
Proof.
  cbv zeta. unfold SelfHealingEngine.handleIssue.
  change (SelfHealingEngine.decisionTrees
            (SelfHealingEngine.recordIssue amb issue g))
    with (SelfHealingEngine.decisionTrees g).
  destruct (SelfHealingEngine.decisionTrees g (issue_type issue)) as [tree|].
  - destruct (evaluate tree (issue_context issue)) as [[] [act|]];
      cbn [matched result fst snd]; try (cbn; split; lia).
    split.
    + unfold SelfHealingEngine._executeAction.
      destruct (action act) as [[]|]; reflexivity.
    + rewrite executeAction_issuesResolved. reflexivity.
  - cbn. split; lia.
Qed.

Lemma resolvedBy_snoc (acts : list ActionResult) (act : ActionResult) :
  resolvedBy (acts ++ [act]) = resolvedBy acts + resolves act.
Proof.
  unfold resolvedBy. induction acts as [|a acts IH]; cbn; [lia|].
  cbn in IH. rewrite IH. lia.
Qed.

Lemma handleAll_counters (issues : list (Ambient * Issue)) :
  forall g acts,
    let out := EngineScan.handleAll issues g acts in
    length (snd out) = (length acts + length issues)%nat /\
    SelfHealingEngine.issuesDetected (SelfHealingEngine.stats (fst out))
      = SelfHealingEngine.issuesDetected (SelfHealingEngine.stats g)
        + N.of_nat (length issues) /\
    SelfHealingEngine.issuesResolved (SelfHealingEngine.stats (fst out))
      + resolvedBy acts
      = SelfHealingEngine.issuesResolved (SelfHealingEngine.stats g)
        + resolvedBy (snd out).
Proof.
  induction issues as [|[amb issue] rest IH]; intros g acts; cbv zeta.
  - cbn. repeat split; lia.
  - cbn [EngineScan.handleAll].
    destruct (SelfHealingEngine.handleIssue amb issue g) as [g1 act] eqn:E.
    pose proof (handleIssue_counters amb issue g) as [D R].
    rewrite E in D, R. cbn [fst snd] in D, R.
    specialize (IH g1 (acts ++ [act])). cbv zeta in IH.
    destruct IH as [L [D' R']].
    rewrite length_app in L. rewrite resolvedBy_snoc in R'.
    cbn [length] in *. repeat split; lia.
Qed.

(** X6. [runFullScan]: [issuesFound] is the number of issues that the
    three scans returned, one reply is recorded for each of them, the
    [issuesDetected] counter grows by [issuesFound], and
    [issuesResolved] grows by the number of SKIP and RESET replies.  A
    scan that finds nothing leaves the counters, the trees,
    LEARNING_MEMORY and JOB_QUEUE as they were and reports no action; it
    still stamps [last_heal_scan]. *)
Theorem runFullScan_counts (t0 t1 : Ambient)
  (jobIssues syncIssues cohesionIssues : list (Ambient * Issue))
  (g : SelfHealingEngine.Engine) :
  let out := EngineScan.runFullScan t0 t1 jobIssues syncIssues cohesionIssues g in
  EngineScan.issuesFound (snd out)
    = (length jobIssues + length syncIssues + length cohesionIssues)%nat /\
  length (EngineScan.actionsTaken (snd out)) = EngineScan.issuesFound (snd out) /\
  SelfHealingEngine.issuesDetected (SelfHealingEngine.stats (fst out))
    = SelfHealingEngine.issuesDetected (SelfHealingEngine.stats g)
      + N.of_nat (EngineScan.issuesFound (snd out)) /\
  SelfHealingEngine.issuesResolved (SelfHealingEngine.stats (fst out))
    = SelfHealingEngine.issuesResolved (SelfHealingEngine.stats g)
      + resolvedBy (EngineScan.actionsTaken (snd out)) /\
  (EngineScan.issuesFound (snd out) = 0%nat ->
   SelfHealingEngine.stats (fst out) = SelfHealingEngine.stats g /\
   EngineScan.actionsTaken (snd out) = [] /\
   LEARNING_MEMORY (SelfHealingEngine.env (fst out))
     = LEARNING_MEMORY (SelfHealingEngine.env g) /\
   JOB_QUEUE (SelfHealingEngine.env (fst out))
     = JOB_QUEUE (SelfHealingEngine.env g) /\
   AGENT_STATE (SelfHealingEngine.env (fst out)) !! "last_heal_scan"
     = Some (VText (isoNow t1))).
Proof.
  cbv zeta.
  assert (F : EngineScan.issuesFound
                (snd (EngineScan.runFullScan t0 t1 jobIssues syncIssues
                        cohesionIssues g))
              = (length jobIssues + length syncIssues
                 + length cohesionIssues)%nat).
  { unfold EngineScan.runFullScan.
    destruct (EngineScan.handleAll jobIssues _ []) as [g1 a1].
    destruct (EngineScan.handleAll syncIssues g1 a1) as [g2 a2].
    destruct (EngineScan.handleAll cohesionIssues g2 a2) as [g3 a3].
    reflexivity. }
  split; [exact F|].
  repeat match goal with |- _ /\ _ => split end.
  4: {
    intros Hz. rewrite F in Hz.
    assert (jobIssues = [] /\ syncIssues = [] /\ cohesionIssues = [])
      as [-> [-> ->]].
    { destruct jobIssues, syncIssues, cohesionIssues; cbn in Hz; try lia; auto. }
    repeat split.
    unfold EngineScan.runFullScan, EngineScan.handleAll,
      SelfHealingEngine.with_env, logEvent, with_AGENT_STATE.
    cbn [AGENT_STATE SelfHealingEngine.env fst snd].
    rewrite lookup_insert_ne by discriminate.
    apply lookup_insert_eq. }
  all: try rewrite F; unfold EngineScan.runFullScan;
    set (g0 := SelfHealingEngine.with_env _ g);
    pose proof (handleAll_counters jobIssues g0 []) as H1; cbv zeta in H1;
    destruct (EngineScan.handleAll jobIssues g0 []) as [g1 a1];
    pose proof (handleAll_counters syncIssues g1 a1) as H2; cbv zeta in H2;
    destruct (EngineScan.handleAll syncIssues g1 a1) as [g2 a2];
    pose proof (handleAll_counters cohesionIssues g2 a2) as H3; cbv zeta in H3;
    destruct (EngineScan.handleAll cohesionIssues g2 a2) as [g3 a3];
    cbn [fst snd] in *;
    destruct H1 as [L1 [D1 R1]], H2 as [L2 [D2 R2]], H3 as [L3 [D3 R3]];
    cbn [EngineScan.issuesFound EngineScan.actionsTaken];
    change (resolvedBy []) with 0 in R1;
    change (SelfHealingEngine.stats g0) with (SelfHealingEngine.stats g) in *;
    cbn [length] in L1; cbn; lia.
Qed.

Lemma runFullScan_counts_witness :
  let out := EngineScan.runFullScan someAmbient someAmbient [] [] []
               (SelfHealingEngine.constructor emptyEnv) in
  SelfHealingEngine.stats (fst out) = SelfHealingEngine.mkStats 0 0 0 0 /\
  EngineScan.actionsTaken (snd out) = [] /\
  LEARNING_MEMORY (SelfHealingEngine.env (fst out)) = ∅ /\
  JOB_QUEUE (SelfHealingEngine.env (fst out)) = ∅ /\
  AGENT_STATE (SelfHealingEngine.env (fst out)) !! "last_heal_scan"
    = Some (VText (isoNow someAmbient)).
Proof.
  apply (proj2 (proj2 (proj2 (proj2
           (runFullScan_counts someAmbient someAmbient [] [] []
              (SelfHealingEngine.constructor emptyEnv)))))).
  reflexivity.
Defined.

(* --------------------------------------------------------------------- *)
(** ** [analyzeTree] *)
(* --------------------------------------------------------------------- *)

Lemma countOf_insert (m : gmap string RepoSyncManager.TableValue)
  (k : string) (v : RepoSyncManager.TableValue) :
  countOf (<[ k := v ]> m)
    + match m !! k with Some (RepoSyncManager.Count n) => n | _ => 0 end
  = countOf m + match v with RepoSyncManager.Count n => n | _ => 0 end.
Proof.
  unfold countOf.
  set (f := fun (_ : string) (v : RepoSyncManager.TableValue) (acc : N) =>
              match v with
              | RepoSyncManager.Count n => n + acc
              | RepoSyncManager.Text _ => acc
              end).
  assert (C : forall (j1 j2 : string) (z1 z2 : RepoSyncManager.TableValue)
                     (y : N), f j1 z1 (f j2 z2 y) = f j2 z2 (f j1 z1 y)).
  { intros j1 j2 [n1|s1] [n2|s2] y; unfold f; lia. }
  destruct (m !! k) as [w|] eqn:E.
  - rewrite <- (insert_delete_id m k w) at 2 by exact E.
    rewrite <- (insert_delete_eq m k v).
    rewrite !(map_fold_insert_L f);
      try (intros; apply C); try apply lookup_delete_eq.
    unfold f at 1 3. destruct v, w; lia.
  - rewrite (map_fold_insert_L f); [| intros; apply C | exact E].
    unfold f at 1. destruct v; lia.
Qed.

Lemma countOf_step (inherited : string -> option string)
  (m : gmap string RepoSyncManager.TableValue) (ext : string) :
  let m' := RepoSyncManager.assign m ext
              (RepoSyncManager.plusOne inherited m ext) in
  countOf m' <= countOf m + 1 /\
  (plain inherited ext -> allCounts m ->
   allCounts m' /\ countOf m' = countOf m + 1).
Proof.
  cbv zeta. unfold RepoSyncManager.assign.
  destruct (String.eqb_spec ext "__proto__") as [->|Hne].
  - split; [lia|]. intros [_ H]. now contradict H.
  - pose proof (countOf_insert m ext (RepoSyncManager.plusOne inherited m ext))
      as H.
    unfold RepoSyncManager.plusOne in *.
    split.
    + destruct (m !! ext) as [[n|s]|].
      * assert (orN (Some n) 0 = n) as E by (destruct n; reflexivity).
        rewrite E in *. lia.
      * destruct (String.eqb s ""); lia.
      * destruct (inherited ext); lia.
    + intros [Hin _] Hall.
      destruct (m !! ext) as [[n|s]|] eqn:E.
      * assert (orN (Some n) 0 = n) as En by (destruct n; reflexivity).
        rewrite En in *. split; [|lia].
        intros k v Hk. destruct (decide (k = ext)) as [->|Hk'].
        -- rewrite lookup_insert_eq in Hk. injection Hk as <-.
           eexists. split; [reflexivity | lia].
        -- rewrite lookup_insert_ne in Hk by auto. eapply Hall, Hk.
      * destruct (Hall ext _ E) as [n [Hn _]]. discriminate Hn.
      * rewrite Hin in *. split; [|lia].
        intros k v Hk. destruct (decide (k = ext)) as [->|Hk'].
        -- rewrite lookup_insert_eq in Hk. injection Hk as <-.
           eexists. split; [reflexivity | lia].
        -- rewrite lookup_insert_ne in Hk by auto. eapply Hall, Hk.
Qed.

Lemma watched_spec (p : string) (pats : list string) :
  RepoSyncManager.watched p pats = true <->
  exists pat, In pat pats /\ contains p pat.
Proof.
  induction pats as [|pat pats IH]; cbn.
  - split; [discriminate | intros [pat [[] _]]].
  - destruct (JS.startsWith pat p || JS.includes p pat) eqn:E.
    + split; [|reflexivity]. intros _. exists pat. split; [now left|].
      apply orb_true_iff in E as [E|E].
      * apply startsWith_spec in E as [post ->]. exists EmptyString, post.
        reflexivity.
      * apply includes_spec, E.
    + rewrite IH. split.
      * intros [q [Hq Hc]]. exists q. split; [now right | exact Hc].
      * intros [q [[<-|Hq] Hc]].
        -- apply includes_spec in Hc. apply orb_false_iff in E as [_ E].
           congruence.
        -- exists q. split; assumption.
Qed.

Lemma analyzeTree_fold (inherited : string -> option string)
  (pats : list string) (tree : list RepoSyncManager.TreeItem) :
  forall a,
    let r := fold_left (RepoSyncManager.analyzeItem inherited pats) tree a in
    RepoSyncManager.totalFiles r
      = RepoSyncManager.totalFiles a
        + N.of_nat (length (List.filter isBlob tree)) /\
    RepoSyncManager.totalDirs r
      = RepoSyncManager.totalDirs a
        + N.of_nat (length (List.filter
                              (fun i => negb (isBlob i) && isTree i) tree)) /\
    RepoSyncManager.watchedFiles r
      = RepoSyncManager.watchedFiles a
        ++ map RepoSyncManager.item_path
             (List.filter
                (fun i => isBlob i
                          && RepoSyncManager.watched
                               (RepoSyncManager.item_path i) pats) tree) /\
    countOf (RepoSyncManager.filesByType r)
      <= countOf (RepoSyncManager.filesByType a)
         + N.of_nat (length (List.filter isBlob tree)) /\
    ((forall item, In item tree -> isBlob item = true ->
        plain inherited
          (RepoSyncManager.extension (RepoSyncManager.item_path item))) ->
     allCounts (RepoSyncManager.filesByType a) ->
     allCounts (RepoSyncManager.filesByType r) /\
     countOf (RepoSyncManager.filesByType r)
       = countOf (RepoSyncManager.filesByType a)
         + N.of_nat (length (List.filter isBlob tree))).
Proof.
  induction tree as [|item tree IH]; intros a; cbv zeta.
  - cbn. rewrite app_nil_r. repeat split; try lia; tauto.
  - cbn [fold_left List.filter].
    specialize (IH (RepoSyncManager.analyzeItem inherited pats a item)).
    cbv zeta in IH. destruct IH as [F [D [W [C P]]]].
    rewrite F, D, W.
    assert (P' : (forall it, In it (item :: tree) -> isBlob it = true ->
                    plain inherited
                      (RepoSyncManager.extension (RepoSyncManager.item_path it))) ->
                 forall it, In it tree -> isBlob it = true ->
                    plain inherited
                      (RepoSyncManager.extension (RepoSyncManager.item_path it))).
    { intros H it Hit. apply H. now right. }
    revert C P. unfold RepoSyncManager.analyzeItem.
    change (String.eqb (RepoSyncManager.item_type item) "blob")
      with (isBlob item).
    change (String.eqb (RepoSyncManager.item_type item) "tree")
      with (isTree item).
    destruct (isBlob item) eqn:B.
    + cbn [negb andb RepoSyncManager.totalFiles RepoSyncManager.totalDirs
           RepoSyncManager.watchedFiles RepoSyncManager.filesByType].
      intros C P.
      destruct (countOf_step inherited (RepoSyncManager.filesByType a)
                  (RepoSyncManager.extension (RepoSyncManager.item_path item)))
        as [S1 S2].
      split; [cbn [length]; lia|]. split; [reflexivity|].
      split.
      { destruct (RepoSyncManager.watched (RepoSyncManager.item_path item) pats);
          cbn [map]; rewrite <- ?app_assoc; reflexivity. }
      split; [cbn [length]; lia|].
      intros Hp Ha.
      destruct S2 as [A1 A2]; [apply Hp; [now left | exact B] | exact Ha |].
      destruct (P (P' Hp) A1) as [Q1 Q2].
      split; [exact Q1|]. rewrite Q2, A2. cbn [length]. lia.
    + cbn [negb andb]. intros C P.
      destruct (isTree item);
        cbn [length RepoSyncManager.totalFiles RepoSyncManager.totalDirs
             RepoSyncManager.watchedFiles RepoSyncManager.filesByType] in *;
        (split; [lia|]); (split; [try reflexivity; lia|]);
        (split; [reflexivity|]); (split; [exact C|]);
        intros Hp Ha; apply P; auto.
Qed.

(** X7. [analyzeTree]: [totalFiles] is the number of blob entries and
    [totalDirs] the number of tree entries (other entries are counted
    nowhere); [watchedFiles] lists, in tree order and once each, the
    paths of the blobs that contain one of the watch patterns.
    [filesByType] is a plain object: when no blob has an extension that
    names a member of [Object.prototype], every member of the table is
    a positive count and the counts add up to [totalFiles]; in general
    they add up to at most [totalFiles], because a file whose extension
    is such a name ("constructor", "toString") leaves a text in the
    table in place of a count. *)
Theorem analyzeTree_counts (inherited : string -> option string)
  (tree : list RepoSyncManager.TreeItem) (pats : list string) :
  let a := RepoSyncManager.analyzeTree inherited tree pats in
  RepoSyncManager.totalFiles a = N.of_nat (length (List.filter isBlob tree)) /\
  RepoSyncManager.totalDirs a
    = N.of_nat (length (List.filter
                          (fun i => negb (isBlob i) && isTree i) tree)) /\
  RepoSyncManager.watchedFiles a
    = map RepoSyncManager.item_path
        (List.filter
           (fun i => isBlob i
                     && RepoSyncManager.watched
                          (RepoSyncManager.item_path i) pats) tree) /\
  (forall p, In p (RepoSyncManager.watchedFiles a) ->
             exists pat, In pat pats /\ contains p pat) /\
  ((forall item, In item tree -> isBlob item = true ->
      plain inherited
        (RepoSyncManager.extension (RepoSyncManager.item_path item))) ->
   allCounts (RepoSyncManager.filesByType a) /\
   countOf (RepoSyncManager.filesByType a) = RepoSyncManager.totalFiles a) /\
  countOf (RepoSyncManager.filesByType a) <= RepoSyncManager.totalFiles a /\
  (forall path text,
     inherited (RepoSyncManager.extension path) = Some text ->
     RepoSyncManager.extension path <> "__proto__" ->
     let one := RepoSyncManager.analyzeTree inherited
                  [RepoSyncManager.mkItem path "blob"] pats in
     RepoSyncManager.filesByType one !! RepoSyncManager.extension path
       = Some (RepoSyncManager.Text (text +:+ "1")) /\
     RepoSyncManager.totalFiles one = 1 /\
     countOf (RepoSyncManager.filesByType one) = 0) /\
  (N.of_nat (length (RepoSyncManager.watchedFiles a))
     <= RepoSyncManager.totalFiles a) /\
  (RepoSyncManager.totalFiles a + RepoSyncManager.totalDirs a
     <= N.of_nat (length tree)).
Proof.
  cbv zeta. unfold RepoSyncManager.analyzeTree.
  pose proof (analyzeTree_fold inherited pats tree
                (RepoSyncManager.mkTreeAnalysis 0 0 [] ∅)) as H.
  cbv zeta in H. destruct H as [F [D [W [C P]]]].
  cbn [RepoSyncManager.totalFiles RepoSyncManager.totalDirs
       RepoSyncManager.watchedFiles RepoSyncManager.filesByType app] in *.
  change (countOf ∅) with 0 in *.
  rewrite F, D, W.
  repeat match goal with |- _ /\ _ => split end;
    try reflexivity; try lia.
  - intros p Hp. apply in_map_iff in Hp as [item [<- Hi]].
    apply filter_In in Hi as [_ Hi]. apply andb_true_iff in Hi as [_ Hi].
    apply watched_spec, Hi.
  - intros Hp. destruct (P Hp) as [Q1 Q2].
    + intros k v Hk. rewrite lookup_empty in Hk. discriminate Hk.
    + split; [exact Q1 | rewrite Q2; lia].
  - intros path text Hin Hne. cbn [fold_left].
    unfold RepoSyncManager.analyzeItem. cbn [RepoSyncManager.item_type].
    change (String.eqb "blob" "blob") with true. cbv iota.
    cbn [RepoSyncManager.filesByType RepoSyncManager.totalFiles
         RepoSyncManager.item_path].
    unfold RepoSyncManager.assign, RepoSyncManager.plusOne.
    destruct (String.eqb_spec (RepoSyncManager.extension path) "__proto__")
      as [E|_]; [now contradict Hne|].
    rewrite lookup_empty, Hin.
    split; [apply lookup_insert_eq|]. split; [reflexivity|].
    pose proof (countOf_insert ∅ (RepoSyncManager.extension path)
                  (RepoSyncManager.Text (text +:+ "1"))) as Hc.
    rewrite lookup_empty in Hc. change (countOf ∅) with 0 in Hc. lia.
  - rewrite length_map.
    assert (L : (length (List.filter
                   (fun i => isBlob i
                             && RepoSyncManager.watched
                                  (RepoSyncManager.item_path i) pats) tree)
                 <= length (List.filter isBlob tree))%nat).
    { clear. induction tree as [|i t IH]; cbn; [lia|].
      destruct (isBlob i); cbn; [|exact IH].
      destruct (RepoSyncManager.watched _ pats); cbn; lia. }
    lia.
  - assert (L : (length (List.filter isBlob tree)
                 + length (List.filter
                             (fun i => negb (isBlob i) && isTree i) tree)
                 <= length tree)%nat).
    { clear. induction tree as [|i t IH]; cbn; [lia|].
      destruct (isBlob i); cbn; [lia|].
      destruct (isTree i); cbn; lia. }
    lia.
Qed.

Lemma includes_dot_cons (c : Ascii.ascii) (t : string) :
  JS.includes (String c t) "." = Ascii.eqb c RepoSyncManager.dot || JS.includes t ".".
Proof.
  cbn [JS.includes JS.startsWith]. rewrite Ascii.eqb_sym.
  change (Ascii.Ascii false true true true false true false false)
    with RepoSyncManager.dot.
  destruct (Ascii.eqb c RepoSyncManager.dot); reflexivity.
Qed.

Lemma lastSegment_no_dot (s : string) :
  JS.includes s "." = false -> RepoSyncManager.lastSegment s = s.
Proof.
  destruct s as [|c t]; [reflexivity|].
  rewrite includes_dot_cons. intros H. apply orb_false_iff in H as [H1 H2].
  cbn [RepoSyncManager.lastSegment]. now rewrite H1, H2.
Qed.

Lemma lastSegment_after_dot (pre ext : string) :
  JS.includes ext "." = false ->
  RepoSyncManager.lastSegment (pre +:+ "." +:+ ext) = ext.
Proof.
  intros H. induction pre as [|c p IH].
  - change (RepoSyncManager.lastSegment (String RepoSyncManager.dot ext) = ext).
    cbn [RepoSyncManager.lastSegment]. rewrite H. reflexivity.
  - change (String c p +:+ "." +:+ ext) with (String c (p +:+ "." +:+ ext)).
    cbn [RepoSyncManager.lastSegment].
    assert (E : JS.includes (p +:+ "." +:+ ext) "." = true).
    { apply includes_spec. exists p, ext. reflexivity. }
    rewrite E. exact IH.
Qed.

Lemma lastSegment_has_no_dot (s : string) :
  JS.includes (RepoSyncManager.lastSegment s) "." = false.
Proof.
  induction s as [|c t IH]; [reflexivity|].
  cbn [RepoSyncManager.lastSegment].
  destruct (JS.includes t ".") eqn:E; [exact IH|].
  destruct (Ascii.eqb c RepoSyncManager.dot) eqn:D; [exact E|].
  rewrite includes_dot_cons, D, E. reflexivity.
Qed.

(** X8. The extension under which [analyzeTree] counts a file is what
    follows the last dot of its path.  It is never empty and never
    contains a dot: a path that ends in a dot, and the empty path, count
    under "none"; a path without any dot counts under the whole path,
    directories included. *)
Theorem extension_cases :
  (forall pre ext,
     JS.includes ext "." = false -> ext <> "" ->
     RepoSyncManager.extension (pre +:+ "." +:+ ext) = ext) /\
  (forall p,
     JS.includes p "." = false -> p <> "" ->
     RepoSyncManager.extension p = p) /\
  (forall pre, RepoSyncManager.extension (pre +:+ ".") = "none") /\
  RepoSyncManager.extension "" = "none" /\
  (forall p, JS.includes (RepoSyncManager.extension p) "." = false /\
             RepoSyncManager.extension p <> "").
Proof.
  unfold RepoSyncManager.extension.
  repeat match goal with |- _ /\ _ => split end.
  - intros pre ext H Hne. rewrite (lastSegment_after_dot pre ext H).
    destruct ext; [congruence | reflexivity].
  - intros p H Hne. rewrite (lastSegment_no_dot p H).
    destruct p; [congruence | reflexivity].
  - intros pre.
    replace (pre +:+ ".") with (pre +:+ "." +:+ "") by reflexivity.
    rewrite lastSegment_after_dot; reflexivity.
  - reflexivity.
  - intros p. split.
    + pose proof (lastSegment_has_no_dot p) as H.
      destruct (RepoSyncManager.lastSegment p); [reflexivity | exact H].
    + destruct (RepoSyncManager.lastSegment p); discriminate.
Qed.

Lemma extension_cases_witness :
  RepoSyncManager.extension ("src/index" +:+ "." +:+ "js") = "js" /\
  RepoSyncManager.extension "src/Makefile" = "src/Makefile".
Proof.
  split.
  - apply (proj1 extension_cases); [reflexivity | discriminate].
  - apply (proj1 (proj2 extension_cases)); [reflexivity | discriminate].
Defined.

(* --------------------------------------------------------------------- *)
(** ** [analyzeCohesion] and the drift it can cause *)
(* --------------------------------------------------------------------- *)

Lemma filter_some {A} (f : A -> bool) (l : list A) :
  (0 <? length (List.filter f l))%nat = true <->
  exists x, In x l /\ f x = true.
Proof.
  rewrite Nat.ltb_lt. split.
  - intros H. destruct (List.filter f l) as [|x r] eqn:E; [cbn in H; lia|].
    exists x. apply filter_In. rewrite E. now left.
  - intros [x Hx]. apply filter_In in Hx.
    destruct (List.filter f l); [destruct Hx | cbn; lia].
Qed.

Lemma filter_not_all {A} (f : A -> bool) (l : list A) :
  (length (List.filter f l) <? length l)%nat = true <->
  exists x, In x l /\ f x = false.
Proof.
  rewrite Nat.ltb_lt. induction l as [|a l IH]; cbn.
  - split; [lia | intros [x [[] _]]].
  - destruct (f a) eqn:E; cbn.
    + rewrite <- Nat.succ_lt_mono, IH. split.
      * intros [x [Hx Hf]]. exists x. auto.
      * intros [x [[<-|Hx] Hf]]; [congruence | exists x; auto].
    + split; [intros _; exists a; auto|].
      intros _. pose proof (filter_length_le f l). lia.
Qed.

Lemma repoOf_In (l : list (string * RepoSyncManager.Scrape)) n d :
  NoDup (map fst l) -> In (n, d) l -> RepoSyncManager.repoOf l n = Some d.
Proof.
  induction l as [|[n' d'] l IH]; intros Hnd Hin; [destruct Hin|].
  cbn in Hnd. inversion Hnd as [|? ? Hnot Hnd']; subst.
  cbn [RepoSyncManager.repoOf]. destruct Hin as [[= -> ->]|Hin].
  - now rewrite String.eqb_refl.
  - destruct (String.eqb_spec n' n) as [->|Hne]; [|now apply IH].
    exfalso. apply Hnot. apply list_elem_of_In, in_map_iff.
    exists (n, d). auto.
Qed.

Lemma reposWithout_some category (l : list (string * RepoSyncManager.Scrape)) :
  NoDup (map fst l) ->
  (0 <? length (RepoSyncManager.reposWithout category l))%nat = true <->
  exists kv, In kv l /\ RepoSyncManager.hasFiles category (snd kv) = false.
Proof.
  intros Hnd. unfold RepoSyncManager.reposWithout. rewrite filter_some. split.
  - intros [n [Hn Hf]]. apply in_map_iff in Hn as [[n' d] [<- Hin]].
    cbn [fst] in Hf. rewrite (repoOf_In l n' d Hnd Hin) in Hf.
    exists (n', d). split; [exact Hin|]. now apply negb_true_iff.
  - intros [[n d] [Hin Hf]]. exists n. split.
    + apply in_map_iff. exists (n, d). auto.
    + rewrite (repoOf_In l n d Hnd Hin). cbn [snd] in Hf. now rewrite Hf.
Qed.

Lemma analyzeCohesion_shape (repoData : list (string * RepoSyncManager.Scrape)) :
  let a := RepoSyncManager.analyzeCohesion repoData in
  let someTrinity :=
    (0 <? length (List.filter
                    (fun kv => RepoSyncManager.hasFiles
                                 RepoSyncManager.p_trinity (snd kv)) repoData))%nat
    && (length (List.filter
                  (fun kv => RepoSyncManager.hasFiles
                               RepoSyncManager.p_trinity (snd kv)) repoData)
        <? length (map fst repoData))%nat in
  let noDocs :=
    (0 <? length (RepoSyncManager.reposWithout RepoSyncManager.p_docs repoData))%nat in
  map RepoSyncManager.inc_type (RepoSyncManager.inconsistencies a)
    = (if someTrinity then ["missing_trinity"] else [])
      ++ (if noDocs then ["missing_docs"] else []) /\
  RepoSyncManager.cohesionScore a
    = 100 - (if someTrinity then 10 else 0) - (if noDocs then 5 else 0).
Proof.
  cbv zeta. unfold RepoSyncManager.analyzeCohesion.
  destruct (_ && _); destruct (1 <? _)%nat;
    destruct (0 <? length (RepoSyncManager.reposWithout _ _))%nat;
    destruct (1 <? _)%nat; split; reflexivity.
Qed.

(** X9. [analyzeCohesion] on the entries of [repoData] (repository
    names are the keys of an object, so they are distinct): it reports
    "missing_trinity" exactly when some repository has Trinity files and
    some other has none, so not when no repository has any; it reports
    "missing_docs" exactly when some repository has no documentation
    files; it reports nothing else, at most these two; and the cohesion
    score is 100 less 10 for the first and 5 for the second, so never
    below 85. *)
Theorem analyzeCohesion_reports
  (repoData : list (string * RepoSyncManager.Scrape)) :
  NoDup (map fst repoData) ->
  let a := RepoSyncManager.analyzeCohesion repoData in
  (reported "missing_trinity" a <->
     (exists kv, In kv repoData /\
        RepoSyncManager.hasFiles RepoSyncManager.p_trinity (snd kv) = true) /\
     (exists kv, In kv repoData /\
        RepoSyncManager.hasFiles RepoSyncManager.p_trinity (snd kv) = false)) /\
  (reported "missing_docs" a <->
     exists kv, In kv repoData /\
        RepoSyncManager.hasFiles RepoSyncManager.p_docs (snd kv) = false) /\
  (forall inc, In inc (RepoSyncManager.inconsistencies a) ->
     RepoSyncManager.inc_type inc = "missing_trinity" \/
     RepoSyncManager.inc_type inc = "missing_docs") /\
  (length (RepoSyncManager.inconsistencies a) <= 2)%nat /\
  85 <= RepoSyncManager.cohesionScore a <= 100 /\
  (RepoSyncManager.cohesionScore a = 100 <->
   RepoSyncManager.inconsistencies a = []).
Proof.
  intros Hnd. cbv zeta.
  pose proof (analyzeCohesion_shape repoData) as [S C]. cbv zeta in S, C.
  pose proof (filter_some
                (fun kv : string * RepoSyncManager.Scrape =>
                   RepoSyncManager.hasFiles RepoSyncManager.p_trinity (snd kv))
                repoData) as T1.
  pose proof (filter_not_all
                (fun kv : string * RepoSyncManager.Scrape =>
                   RepoSyncManager.hasFiles RepoSyncManager.p_trinity (snd kv))
                repoData) as T2.
  pose proof (reposWithout_some RepoSyncManager.p_docs repoData Hnd) as D.
  rewrite length_map in S, C.
  set (incs := RepoSyncManager.inconsistencies
                 (RepoSyncManager.analyzeCohesion repoData)) in *.
  assert (R : forall t, reported t (RepoSyncManager.analyzeCohesion repoData)
                        <-> In t (map RepoSyncManager.inc_type incs)).
  { intros t. unfold reported. fold incs. rewrite in_map_iff.
    split; intros [inc [H1 H2]]; exists inc; auto. }
  assert (L : length incs = length (map RepoSyncManager.inc_type incs))
    by (now rewrite length_map).
  assert (E : incs = [] <-> map RepoSyncManager.inc_type incs = []).
  { destruct incs; cbn; split; congruence. }
  assert (I : forall inc, In inc incs ->
              In (RepoSyncManager.inc_type inc)
                 (map RepoSyncManager.inc_type incs))
    by (intros inc; apply in_map).
  rewrite !R, E, L. clear R E L.
  set (bT := (0 <? length (List.filter _ repoData))%nat
             && (length (List.filter _ repoData) <? length repoData)%nat) in *.
  set (bD := (0 <? length (RepoSyncManager.reposWithout _ repoData))%nat) in *.
  assert (HT : bT = true <->
               (exists kv, In kv repoData /\
                  RepoSyncManager.hasFiles RepoSyncManager.p_trinity (snd kv)
                  = true) /\
               (exists kv, In kv repoData /\
                  RepoSyncManager.hasFiles RepoSyncManager.p_trinity (snd kv)
                  = false)).
  { unfold bT. rewrite andb_true_iff, T1, T2. reflexivity. }
  clearbody bT bD. clear T1 T2.
  rewrite S, C. rewrite S in I. clear S C.
  split; [|split; [|split; [|split; [|split]]]].
  - rewrite <- HT. destruct bT, bD; cbn; intuition discriminate.
  - rewrite <- D. destruct bT, bD; cbn; intuition discriminate.
  - intros inc Hi. apply I in Hi.
    destruct bT, bD; cbn in Hi; intuition congruence.
  - destruct bT, bD; cbn; lia.
  - destruct bT, bD; cbn; lia.
  - destruct bT, bD; cbn; split; (discriminate || reflexivity || lia).
Qed.

Lemma analyzeCohesion_reports_witness :
  (reported "missing_trinity" (RepoSyncManager.analyzeCohesion twoRepos) <->
     (exists kv, In kv twoRepos /\
        RepoSyncManager.hasFiles RepoSyncManager.p_trinity (snd kv) = true) /\
     (exists kv, In kv twoRepos /\
        RepoSyncManager.hasFiles RepoSyncManager.p_trinity (snd kv) = false)) /\
  (reported "missing_docs" (RepoSyncManager.analyzeCohesion twoRepos) <->
     exists kv, In kv twoRepos /\
        RepoSyncManager.hasFiles RepoSyncManager.p_docs (snd kv) = false).
Proof.
  assert (Hnd : NoDup (map fst twoRepos)).
  { apply NoDup_cons. split.
    - intros H. apply list_elem_of_In in H. cbn in H.
      destruct H as [H|[]]. discriminate H.
    - apply NoDup_singleton. }
  pose proof (analyzeCohesion_reports twoRepos Hnd) as H.
  split; [exact (proj1 H) | exact (proj1 (proj2 H))].
Defined.

(** X10. The inconsistencies of [analyzeCohesion] are what
    [runCohesionAnalysis] stores under [cohesion_issues], and
    [_scanForCohesionIssues] turns a stored list of n entries into a
    drift score of 10 n.  Since [analyzeCohesion] reports at most two
    inconsistencies, the drift that the scan computes from them is 10 or
    20, its severity is MEDIUM, and the cohesion-drift tree answers
    NOTIFY or LEARN: this path never reaches the ESCALATE threshold of
    50. *)
Theorem analyzed_drift_never_escalates
  (repoData : list (string * RepoSyncManager.Scrape)) (ctx : Ctx) :
  let incs := RepoSyncManager.inconsistencies
                (RepoSyncManager.analyzeCohesion repoData) in
  match EngineScan.cohesionDrift (Some incs) with
  | None => incs = []
  | Some (score, sev) =>
      sev = MEDIUM /\
      score = 10 * N.of_nat (length incs) /\
      (score = 10 \/ score = 20) /\
      (ctx_driftScore ctx = Some score ->
       action_of (evaluate cohesion_drift_tree ctx)
         = Some (if score =? 10 then NOTIFY else LEARN))
  end.
Proof.
  cbv zeta.
  pose proof (analyzeCohesion_shape repoData) as [S _]. cbv zeta in S.
  assert (L : (length (RepoSyncManager.inconsistencies
                         (RepoSyncManager.analyzeCohesion repoData)) <= 2)%nat).
  { rewrite <- (length_map RepoSyncManager.inc_type), S.
    destruct (_ && _); destruct (0 <? _)%nat; cbn; lia. }
  destruct (RepoSyncManager.inconsistencies
              (RepoSyncManager.analyzeCohesion repoData))
    as [|i1 [|i2 [|i3 rest]]]; cbn in L; try lia.
  - reflexivity.
  - cbn -[evaluate cohesion_drift_tree]. repeat split; auto. intros H.
    unfold cohesion_drift_tree. rewrite evaluate_unfold. cbn. rewrite H.
    reflexivity.
  - cbn -[evaluate cohesion_drift_tree]. repeat split; auto. intros H.
    unfold cohesion_drift_tree. rewrite evaluate_unfold. cbn. rewrite H.
    reflexivity.
Qed.

(* --------------------------------------------------------------------- *)
(** ** The scheduler's job documents *)
(* --------------------------------------------------------------------- *)

Lemma retryStep_effect (amb : Ambient) (e : Env) (r : QuickSelfHeal.Results)
  (k : string) :
  let out := QuickSelfHeal.retryStep amb (e, r) k in
  JOB_QUEUE (fst out)
    = match JOB_QUEUE e !! k with
      | Some job => <[ k := requeued amb job ]> (JOB_QUEUE e)
      | None => JOB_QUEUE e
      end /\
  AGENT_STATE (fst out) = AGENT_STATE e /\
  LEARNING_MEMORY (fst out) = LEARNING_MEMORY e /\
  QuickSelfHeal.issues_detected (snd out)
    = QuickSelfHeal.issues_detected r + N.of_nat (retryableAmong e [k]) /\
  QuickSelfHeal.issues_resolved (snd out)
    = QuickSelfHeal.issues_resolved r + N.of_nat (retryableAmong e [k]).
Proof.
  cbv zeta. unfold QuickSelfHeal.retryStep, retryableAmong, requeued.
  cbn [List.filter]. unfold JobScheduler.updateJob.
  destruct (JOB_QUEUE e !! k) as [job|] eqn:E.
  - destruct (QuickSelfHeal.retryable job); cbn.
    + repeat split; lia.
    + rewrite (insert_id _ _ _ E). repeat split; lia.
  - cbn. repeat split; lia.
Qed.

Lemma retryFailedJobs_fold (amb : Ambient) (keys : list string) :
  forall e r,
    NoDup keys ->
    let out := foldl (QuickSelfHeal.retryStep amb) (e, r) keys in
    (forall k,
       JOB_QUEUE (fst out) !! k
       = if bool_decide (k ∈ keys)
         then requeued amb <$> JOB_QUEUE e !! k
         else JOB_QUEUE e !! k) /\
    AGENT_STATE (fst out) = AGENT_STATE e /\
    LEARNING_MEMORY (fst out) = LEARNING_MEMORY e /\
    QuickSelfHeal.issues_detected (snd out)
      = QuickSelfHeal.issues_detected r + N.of_nat (retryableAmong e keys) /\
    QuickSelfHeal.issues_resolved (snd out)
      = QuickSelfHeal.issues_resolved r + N.of_nat (retryableAmong e keys).
Proof.
  induction keys as [|k0 keys IH]; intros e r Hnd; cbv zeta.
  - cbn. repeat split; lia.
  - apply NoDup_cons in Hnd as [Hk0 Hnd].
    cbn [foldl].
    pose proof (retryStep_effect amb e r k0) as S. cbv zeta in S.
    destruct (QuickSelfHeal.retryStep amb (e, r) k0) as [e1 r1].
    cbn [fst snd] in S. destruct S as [SQ [SA [SL [SD SR]]]].
    specialize (IH e1 r1 Hnd). cbv zeta in IH.
    destruct IH as [IQ [IA [IL [ID IR]]]].
    assert (Same : forall k, k <> k0 -> JOB_QUEUE e1 !! k = JOB_QUEUE e !! k).
    { intros k Hk. rewrite SQ. destruct (JOB_QUEUE e !! k0); [|reflexivity].
      now rewrite lookup_insert_ne. }
    assert (Cnt : retryableAmong e1 keys = retryableAmong e keys).
    { unfold retryableAmong. f_equal. apply filter_ext_in.
      intros k Hk. rewrite Same; [reflexivity|].
      intros ->. apply Hk0. now apply list_elem_of_In. }
    assert (Split : retryableAmong e (k0 :: keys)
                    = (retryableAmong e [k0] + retryableAmong e keys)%nat).
    { unfold retryableAmong. cbn [List.filter].
      destruct (match JOB_QUEUE e !! k0 with
                | Some job => QuickSelfHeal.retryable job
                | None => false
                end); cbn; lia. }
    split; [|repeat split; try congruence; lia].
    intros k. rewrite IQ.
    destruct (decide (k = k0)) as [->|Hne].
    + rewrite (bool_decide_eq_false_2 _ Hk0).
      rewrite bool_decide_eq_true_2 by (left).
      rewrite SQ. destruct (JOB_QUEUE e !! k0) as [job|] eqn:E.
      * now rewrite lookup_insert_eq.
      * now rewrite E.
    + rewrite (Same k Hne).
      destruct (decide (k ∈ keys)) as [Hin|Hnin].
      * rewrite !bool_decide_eq_true_2; [reflexivity | now right | exact Hin].
      * rewrite !bool_decide_eq_false_2; [reflexivity | | exact Hnin].
        intros H. apply elem_of_cons in H as [H|H]; auto.
Qed.

Lemma retryFailedJobs_lookup (amb : Ambient) (e : Env) (k : string) :
  JOB_QUEUE (fst (QuickSelfHeal.retryFailedJobs amb e)) !! k
  = requeued amb <$> JOB_QUEUE e !! k.
Proof.
  unfold QuickSelfHeal.retryFailedJobs.
  pose proof (retryFailedJobs_fold amb (map fst (map_to_list (JOB_QUEUE e)))
                e (QuickSelfHeal.mkResults 0 0 [])
                (NoDup_fst_map_to_list _)) as [Q _].
  rewrite Q. case_bool_decide as Hin; [reflexivity|].
  destruct (JOB_QUEUE e !! k) as [job|] eqn:E; [|reflexivity].
  exfalso. apply Hin. apply list_elem_of_fmap. exists (k, job).
  split; [reflexivity|]. now apply elem_of_map_to_list.
Qed.


Lemma processQueuedJob_throwing (run : Job -> Env -> Env * Outcome string)
  (amb : Ambient) (job stored : Job) (e : Env) :
  JOB_QUEUE e !! job_id job = Some stored ->
  JobScheduler.builtin (job_type job) = false ->
  JobScheduler.processQueuedJob run amb job e
  = (with_JOB_QUEUE
       (fun _ =>
          <[ job_id job :=
               mkJob (job_id stored) (job_type stored)
                     (if maxAttempts job <=? attempts job then FAILED else PENDING)
                     (priority stored) (payload stored) (createdAt stored)
                     (isoNow amb) (attempts job + 1) (maxAttempts stored)
                     (job_result stored)
                     (Some ("Unknown job type: " +:+ job_type job)) ]>
            (JOB_QUEUE e)) e,
     Thrown ("Unknown job type: " +:+ job_type job)).
Proof.
  intros Hget Hb.
  unfold JobScheduler.processQueuedJob, JobScheduler.updateJob,
    JobScheduler.executeJob.
  rewrite Hget, Hb. cbn -[N.leb N.add].
  rewrite lookup_insert_eq. cbn -[N.leb N.add].
  unfold with_JOB_QUEUE. cbn -[N.leb N.add].
  rewrite insert_insert_eq. reflexivity.
Qed.



(** X13. A job of a type that [executeJob] does not know, processed by
    [processQueuedJob] from its stored document, is never picked up
    afterwards by the re-queueing loop of [runQuickSelfHeal]: it is left
    either PENDING, or FAILED with its counter above [maxAttempts], and
    the loop only re-queues failed jobs below the limit. *)
Theorem failed_by_queue_is_not_requeued
  (run : Job -> Env -> Env * Outcome string) (amb amb' : Ambient)
  (job : Job) (e : Env) :
  JOB_QUEUE e !! job_id job = Some job ->
  JobScheduler.builtin (job_type job) = false ->
  let e1 := fst (JobScheduler.processQueuedJob run amb job e) in
  JOB_QUEUE (fst (QuickSelfHeal.retryFailedJobs amb' e1)) !! job_id job
  = JOB_QUEUE e1 !! job_id job.
Proof.
  intros Hget Hb. cbv zeta.
  rewrite retryFailedJobs_lookup.
  rewrite (processQueuedJob_throwing run amb job job e Hget Hb).
  cbn [fst with_JOB_QUEUE JOB_QUEUE]. rewrite lookup_insert_eq. cbn.
  f_equal. unfold requeued, QuickSelfHeal.retryable.
  cbn [status attempts maxAttempts].
  destruct (N.leb_spec (maxAttempts job) (attempts job)) as [H|H].
  - cbn [JobState_eqb andb].
    destruct (N.ltb_spec (attempts job + 1) (maxAttempts job)); [lia|].
    reflexivity.
  - reflexivity.
Qed.

Lemma failed_by_queue_is_not_requeued_witness :
  let e1 := fst (JobScheduler.processQueuedJob noRunner someAmbient
                   exhaustedQueued (queueWith exhaustedQueued)) in
  JOB_QUEUE (fst (QuickSelfHeal.retryFailedJobs someAmbient e1)) !! "job_6"
  = JOB_QUEUE e1 !! "job_6".
Proof.
  apply (failed_by_queue_is_not_requeued noRunner someAmbient someAmbient
           exhaustedQueued (queueWith exhaustedQueued) eq_refl eq_refl).
Defined.


(** X15. [updateJob] on an id without a stored job throws "Job not
    found" and writes nothing.  On a stored job it replaces the members
    named in the update and [updatedAt], keeps the id, type, priority,
    payload, creation time and [maxAttempts] of the stored job, stores
    the result under the same id and leaves every other job alone. *)
Theorem updateJob_merges_or_throws (amb : Ambient) (jobId : string)
  (u : JobScheduler.Updates) (e : Env) :
  let out := JobScheduler.updateJob amb jobId u e in
  (JOB_QUEUE e !! jobId = None ->
     out = (e, Thrown ("Job not found: " +:+ jobId))) /\
  (forall job,
     JOB_QUEUE e !! jobId = Some job ->
     exists job',
       snd out = Returned job' /\
       JOB_QUEUE (fst out) !! jobId = Some job' /\
       job_id job' = job_id job /\ job_type job' = job_type job /\
       priority job' = priority job /\ payload job' = payload job /\
       createdAt job' = createdAt job /\ maxAttempts job' = maxAttempts job /\
       updatedAt job' = isoNow amb /\
       status job' = default (status job) (JobScheduler.upd_status u) /\
       attempts job' = default (attempts job) (JobScheduler.upd_attempts u)) /\
  (forall k, k <> jobId -> JOB_QUEUE (fst out) !! k = JOB_QUEUE e !! k) /\
  AGENT_STATE (fst out) = AGENT_STATE e /\
  LEARNING_MEMORY (fst out) = LEARNING_MEMORY e.
Proof.
  cbv zeta. unfold JobScheduler.updateJob.
  destruct (JOB_QUEUE e !! jobId) as [job|] eqn:E.
  - split; [discriminate|]. split; [|split; [|split; reflexivity]].
    + intros job0 [= <-]. eexists. cbn [fst snd with_JOB_QUEUE JOB_QUEUE].
      rewrite lookup_insert_eq. repeat split; reflexivity.
    + intros k Hk. cbn [fst with_JOB_QUEUE JOB_QUEUE].
      now rewrite lookup_insert_ne.
  - split; [reflexivity|]. split; [discriminate|].
    split; [|split; reflexivity]. reflexivity.
Qed.

Lemma updateJob_merges_or_throws_witness :
  JobScheduler.updateJob someAmbient "job_404"
    (JobScheduler.mkUpdates (Some RUNNING) None None None) emptyEnv
  = (emptyEnv, Thrown ("Job not found: " +:+ "job_404")).
Proof.
  apply (proj1 (updateJob_merges_or_throws someAmbient "job_404"
                  (JobScheduler.mkUpdates (Some RUNNING) None None None)
                  emptyEnv)).
  reflexivity.
Defined.

(* --------------------------------------------------------------------- *)
(** ** The agent-jobs worker: how [processJob] and [retryStrategy] end *)
(* --------------------------------------------------------------------- *)

Section ProcessJobOutcome.

Variable work : nat -> Outcome string.
Variable healed : Worker.WJob -> bool.
Variable amb : Ambient.
Variable toLowerCase : string -> string.
Variable uuid : nat -> string.

Lemma processJobFrom_outcome (fuel : nat) :
  forall job k sv sl run,
    Worker.processJobFrom work healed amb toLowerCase uuid fuel job k sv sl
      = Some run ->
    (k < Worker.executions run)%nat /\
    Worker.w_attempts (Worker.final run)
      = Worker.w_attempts job + N.of_nat (Worker.executions run - k) /\
    (Worker.w_attempts (Worker.final run) <= Worker.w_maxAttempts job \/
     Worker.executions run = S k) /\
    Worker.w_maxAttempts (Worker.final run) = Worker.w_maxAttempts job /\
    (forall i, (k <= i < Worker.executions run - 1)%nat ->
               exists m, work i = Thrown m) /\
    work (Worker.executions run - 1)%nat = Worker.ended run /\
    match Worker.ended run with
    | Returned r =>
        Worker.w_state (Worker.final run) = COMPLETED /\
        Worker.w_result (Worker.final run) = Some r /\
        Worker.w_healingAttempts (Worker.final run)
          = Worker.w_healingAttempts job /\
        length (Worker.saved run)
          = (length sv + 2 * (Worker.executions run - k))%nat
    | Thrown msg =>
        Worker.w_maxAttempts job <= Worker.w_attempts (Worker.final run) /\
        Worker.w_healingAttempts (Worker.final run)
          = Worker.w_healingAttempts job + 1 /\
        In (Worker.healingJob uuid (Worker.executions run - 1))
           (Worker.saved run) /\
        ((Worker.w_state (Worker.final run) = HEALING /\
          length (Worker.saved run)
            = (length sv + 2 * (Worker.executions run - k) + 1)%nat) \/
         (Worker.w_state (Worker.final run) = ESCALATED /\
          Worker.isRetryableError toLowerCase msg = false /\
          Worker.w_escalatedAt (Worker.final run) = Some (isoNow amb) /\
          length (Worker.saved run)
            = (length sv + 2 * (Worker.executions run - k) + 2)%nat))
    end.
Proof.
  induction fuel as [|fuel IH]; intros job k sv sl run Hrun; [discriminate|].
  cbn [Worker.processJobFrom] in Hrun.
  destruct (work k) as [r|msg] eqn:W.
  - injection Hrun as <-.
    cbn [Worker.executions Worker.final Worker.slept Worker.ended Worker.saved].
    replace (S k - k)%nat with 1%nat by lia.
    replace (S k - 1)%nat with k by lia.
    repeat match goal with |- _ /\ _ => split end;
      try reflexivity; try lia; try (now right); try exact W;
      try (intros i Hi; lia); try (rewrite !length_app; cbn; lia).
  - destruct (Worker.w_attempts (Worker.start amb job)
              <? Worker.w_maxAttempts (Worker.start amb job)) eqn:E.
    + apply N.ltb_lt in E. cbn in E.
      apply IH in Hrun.
      destruct Hrun as (H1 & H2 & H3 & H4 & H6 & H7 & H8).
      cbn [Worker.healing_retry Worker.start Worker.w_attempts
           Worker.w_maxAttempts Worker.w_healingAttempts] in H2, H3, H4, H8.
      repeat match goal with |- _ /\ _ => split end.
      * lia.
      * rewrite H2. lia.
      * left. destruct H3 as [H3|H3]; lia.
      * exact H4.
      * intros i Hi. destruct (Nat.eq_dec i k) as [->|Hne]; [eauto|].
        apply H6. lia.
      * exact H7.
      * destruct (Worker.ended run) as [r|m].
        -- destruct H8 as (A & B & C & D).
           rewrite ?length_app in D. cbn [length] in D.
           repeat split; auto. lia.
        -- destruct H8 as (A & B & Hin & [[C D]|(C & R & D & F)]).
           ++ rewrite ?length_app in D. cbn [length] in D.
              repeat split; auto. left. split; [exact C | lia].
           ++ rewrite ?length_app in F. cbn [length] in F.
              repeat split; auto. right. repeat split; auto. lia.
    + apply N.ltb_ge in E. cbn in E.
      unfold Worker.attemptSelfHealing in Hrun.
      destruct (Worker.isRetryableError toLowerCase msg) eqn:R;
        [|destruct (healed (Worker.healing_exhausted (Worker.start amb job)))];
        injection Hrun as <-;
        cbn [Worker.executions Worker.final Worker.slept Worker.ended
             Worker.saved];
        replace (S k - k)%nat with 1%nat by lia;
        replace (S k - 1)%nat with k by lia;
        (repeat match goal with |- _ /\ _ => split end);
        try reflexivity; try (cbn; lia); try (now right); try exact W;
        try (intros i Hi; lia);
        try (rewrite !in_app_iff; cbn [In]; tauto).
      * left. split; [reflexivity|]. rewrite !length_app. cbn. lia.
      * left. split; [reflexivity|]. rewrite !length_app. cbn. lia.
      * right. repeat split; [exact R|]. rewrite !length_app. cbn. lia.
Qed.


Lemma retryLoop_outcome (ds : list N) :
  forall i job k sv sl,
    exists sr job' sv' sl' k',
      Worker.retryLoop work healed amb toLowerCase uuid ds i job k sv sl
        = Some (sr, job', sv', sl', k') /\
      (k <= k')%nat /\
      (forall j, job = Some j ->
         exists j', job' = Some j' /\
           Worker.w_maxAttempts j' = Worker.w_maxAttempts j /\
           (k' - k <= length ds * N.to_nat (N.max 1 (Worker.w_maxAttempts j)))%nat /\
           (Worker.sr_success sr = true ->
              Worker.w_state j' = COMPLETED /\ (k < k')%nat /\
              exists r, work (k' - 1)%nat = Returned r)) /\
      (job = None ->
         job' = None /\ k' = k /\ sv' = sv /\ sl' = sl ++ ds /\
         Worker.sr_success sr = false) /\
      (if Worker.sr_success sr
       then (i < Worker.sr_attempts sr <= i + length ds)%nat
       else Worker.sr_attempts sr = length Worker.delays /\
            (forall n, (k <= n < k')%nat -> exists m, work n = Thrown m)).
Proof.
  induction ds as [|d ds IH]; intros i job k sv sl.
  - cbn [Worker.retryLoop]. do 5 eexists. split; [reflexivity|].
    split; [lia|]. split; [|split].
    + intros j ->. exists j. split; [reflexivity|]. split; [reflexivity|].
      split; [cbn; lia|]. cbn. discriminate.
    + intros ->. rewrite app_nil_r. repeat split.
    + cbn. split; [reflexivity|]. intros n Hn. lia.
  - cbn [Worker.retryLoop]. destruct job as [j|].
    + destruct (processJobFrom_total work healed amb toLowerCase uuid
                  (Worker.enough (Worker.resetAttempts j))
                  (Worker.resetAttempts j) k sv (sl ++ [d])) as [run Hrun].
      { unfold Worker.enough. lia. }
      rewrite Hrun. apply processJobFrom_outcome in Hrun.
      destruct Hrun as (H1 & H2 & H3 & H4 & H6 & H7 & H8).
      cbn [Worker.resetAttempts Worker.w_attempts Worker.w_maxAttempts] in H2, H3, H4, H8.
      assert (Hb : (Worker.executions run - k
                    <= N.to_nat (N.max 1 (Worker.w_maxAttempts j)))%nat).
      { destruct H3 as [H3|H3]; lia. }
      destruct (Worker.ended run) as [r|m] eqn:En.
      * do 5 eexists. split; [reflexivity|]. split; [lia|].
        split; [|split].
        -- intros j0 [= <-]. eexists. split; [reflexivity|].
           split; [exact H4|]. split; [cbn [length]; lia|].
           intros _. split; [tauto|]. split; [lia|]. eauto.
        -- discriminate.
        -- cbn. lia.
      * destruct (IH (S i) (Some (Worker.final run)) (Worker.executions run)
                    (Worker.saved run) (Worker.slept run))
          as (sr & job' & sv' & sl' & k' & E & I1 & I2 & I3 & I4).
        rewrite E. do 5 eexists. split; [reflexivity|]. split; [lia|].
        split; [|split].
        -- intros j0 [= <-].
           destruct (I2 _ eq_refl) as (j' & J1 & J2 & J3 & J4).
           exists j'. split; [exact J1|]. split; [congruence|].
           rewrite H4 in J3. split; [cbn [length]; lia|].
           intros Hs. destruct (J4 Hs) as (A & B & C).
           split; [exact A|]. split; [lia | exact C].
        -- discriminate.
        -- destruct (Worker.sr_success sr).
           ++ cbn [length]. lia.
           ++ destruct I4 as [I4 I5]. split; [exact I4|].
              intros n Hn.
              destruct (Nat.lt_ge_cases n (Worker.executions run - 1)%nat) as [L|L].
              ** apply H6. lia.
              ** destruct (Nat.eq_dec n (Worker.executions run - 1)%nat) as [->|Hne].
                 --- rewrite H7. eauto.
                 --- apply I5. lia.
    + destruct (IH (S i) None k sv (sl ++ [d]))
        as (sr & job' & sv' & sl' & k' & E & I1 & I2 & I3 & I4).
      rewrite E. do 5 eexists. split; [reflexivity|]. split; [exact I1|].
      split; [discriminate|]. split.
      * intros _. destruct (I3 eq_refl) as (A & B & C & D & F).
        repeat split; auto. rewrite D, <- app_assoc. reflexivity.
      * destruct (Worker.sr_success sr); [cbn [length]; lia | exact I4].
Qed.

(** X17. [retryStrategy] always ends, after at most four calls of
    [processJob].  Because it resets [attempts] to 0 before each call,
    it executes the job body at most four times [maxAttempts] (four
    times, when [maxAttempts] is 0).  It reports success exactly when a
    call returned, and then the job is COMPLETED and [attempts] counts
    the calls made; it reports failure with [attempts] 4 after every
    execution threw.  Without a job it executes and saves nothing, but
    still sleeps 2, 4, 8 and 16 seconds before it reports failure. *)
Theorem retryStrategy_outcome (job : option Worker.WJob) (k : nat) :
  exists sr job' sv sl k',
    Worker.retryStrategy work healed amb toLowerCase uuid job k
      = Some (sr, job', sv, sl, k') /\
    (forall j, job = Some j ->
       exists j', job' = Some j' /\
         Worker.w_maxAttempts j' = Worker.w_maxAttempts j /\
         (k' - k <= 4 * N.to_nat (N.max 1 (Worker.w_maxAttempts j)))%nat /\
         (Worker.sr_success sr = true ->
            Worker.w_state j' = COMPLETED /\ (k < k')%nat /\
            exists r, work (k' - 1)%nat = Returned r)) /\
    (job = None ->
       Worker.sr_success sr = false /\ job' = None /\ k' = k /\ sv = [] /\
       sl = [2000; 4000; 8000; 16000]) /\
    (if Worker.sr_success sr
     then (1 <= Worker.sr_attempts sr <= 4)%nat
     else Worker.sr_attempts sr = 4%nat /\
          (forall n, (k <= n < k')%nat -> exists m, work n = Thrown m)).
Proof.
  unfold Worker.retryStrategy.
  destruct (retryLoop_outcome Worker.delays 0 job k [] [])
    as (sr & job' & sv & sl & k' & E & I1 & I2 & I3 & I4).
  exists sr, job', sv, sl, k'. split; [exact E|]. split; [|split].
  - exact I2.
  - intros Hn. destruct (I3 Hn) as (A & B & C & D & F). repeat split; auto.
  - destruct (Worker.sr_success sr); [cbn in I4; lia | exact I4].
Qed.

End ProcessJobOutcome.

Lemma retryStrategy_outcome_witness :
  exists sr job' sv sl k',
    Worker.retryStrategy alwaysThrows (fun _ => true) someAmbient (fun s => s)
      (fun _ => "u") None 0
      = Some (sr, job', sv, sl, k') /\
    Worker.sr_success sr = false /\ sl = [2000; 4000; 8000; 16000].
Proof.
  destruct (retryStrategy_outcome alwaysThrows (fun _ => true) someAmbient
              (fun s => s) (fun _ => "u") None 0)
    as (sr & job' & sv & sl & k' & E & _ & I3 & _).
  exists sr, job', sv, sl, k'. split; [exact E|].
  destruct (I3 eq_refl) as (A & _ & _ & _ & F). split; [exact A | exact F].
Defined.

(* --------------------------------------------------------------------- *)
(** ** The orchestrator: running jobs, the alarm and the status *)
(* --------------------------------------------------------------------- *)

Lemma jobKey_not_lastJobRun id : JobOrchestrator.jobKey id <> "lastJobRun".
Proof. discriminate. Qed.

Lemma executeJob_finished amb work id st job :
  JobOrchestrator.getJob id st = Some job ->
  JobOrchestrator.executeJob amb work id st
  = <[ "lastJobRun" := JobOrchestrator.SInstant (msNow amb) ]>
      (<[ JobOrchestrator.jobKey id := JobOrchestrator.SJob (finished amb work job) ]> st).
Proof.
  intros H. unfold JobOrchestrator.executeJob. rewrite H.
  destruct work; reflexivity.
Qed.

(** X18. A job started through [runJob] and then executed has had one
    added to [attempts] before the outcome is judged: it ends COMPLETED
    when the work returns, and when the work throws it ends FAILED if
    the incremented counter has reached [maxAttempts] and PENDING
    otherwise, with the message stored as its error.  [lastJobRun] is
    set, and no other key of the storage changes.  For an id without a
    stored job [runJob] replies 404 and [executeJob] writes nothing, not
    even [lastJobRun]. *)
Theorem runJob_then_executeJob (amb amb' : Ambient) (work : Outcome unit)
  (id : string) (st : gmap string JobOrchestrator.Stored) :
  let st1 := fst (JobOrchestrator.runJob amb id st) in
  let st2 := JobOrchestrator.executeJob amb' work id st1 in
  (forall job,
     JobOrchestrator.getJob id st = Some job ->
     http_status (snd (JobOrchestrator.runJob amb id st)) = 200 /\
     (exists j2,
        JobOrchestrator.getJob id st2 = Some j2 /\
        JobOrchestrator.o_attempts j2 = JobOrchestrator.o_attempts job + 1 /\
        JobOrchestrator.o_maxAttempts j2 = JobOrchestrator.o_maxAttempts job /\
        JobOrchestrator.o_startedAt j2 = Some (msNow amb) /\
        match work with
        | Returned _ =>
            JobOrchestrator.o_status j2 = COMPLETED /\
            JobOrchestrator.o_completedAt j2 = Some (msNow amb') /\
            JobOrchestrator.o_error j2 = JobOrchestrator.o_error job
        | Thrown msg =>
            JobOrchestrator.o_status j2
              = (if JobOrchestrator.o_maxAttempts job
                    <=? JobOrchestrator.o_attempts job + 1
                 then FAILED else PENDING) /\
            JobOrchestrator.o_completedAt j2 = JobOrchestrator.o_completedAt job /\
            JobOrchestrator.o_error j2 = Some msg
        end) /\
     st2 !! "lastJobRun" = Some (JobOrchestrator.SInstant (msNow amb')) /\
     (forall k, k <> JobOrchestrator.jobKey id -> k <> "lastJobRun" ->
                st2 !! k = st !! k)) /\
  (JobOrchestrator.getJob id st = None ->
     JobOrchestrator.runJob amb id st = (st, JobOrchestrator.notFound) /\
     st2 = st).
Proof.
  cbv zeta. split.
  - intros job Hget. unfold JobOrchestrator.runJob. rewrite Hget.
    cbn [fst snd]. split; [reflexivity|].
    erewrite executeJob_finished by apply getJob_insert.
    split; [|split].
    + eexists. split.
      * unfold JobOrchestrator.getJob.
        rewrite lookup_insert_ne by (apply not_eq_sym, jobKey_not_lastJobRun).
        rewrite lookup_insert_eq. reflexivity.
      * destruct work; cbn; repeat split; reflexivity.
    + apply lookup_insert_eq.
    + intros k Hk Hl. now rewrite !lookup_insert_ne by auto.
  - intros Hnone. unfold JobOrchestrator.runJob, JobOrchestrator.executeJob.
    rewrite Hnone. cbn [fst]. rewrite Hnone. split; reflexivity.
Qed.

Section AlarmLoop.

Variable tick done : string -> Ambient.
Variable work : Outcome unit.

Lemma alarmStep_quiet st k v :
  (forall j, v = JobOrchestrator.SJob j -> due (tick k) j = false) ->
  JobOrchestrator.alarmStep tick done work st (k, v) = st.
Proof.
  intros H. unfold JobOrchestrator.alarmStep. destruct v as [j|t]; [|reflexivity].
  specialize (H j eq_refl). unfold due in H. now rewrite H.
Qed.

Lemma alarmStep_lookup st k0 v0 k :
  (forall j, v0 = JobOrchestrator.SJob j ->
             k0 = JobOrchestrator.jobKey (JobOrchestrator.o_id j)) ->
  k <> k0 -> k <> "lastJobRun" ->
  JobOrchestrator.alarmStep tick done work st (k0, v0) !! k = st !! k.
Proof.
  intros Hown Hk Hl. unfold JobOrchestrator.alarmStep.
  destruct v0 as [j|t]; [|reflexivity].
  destruct (_ && _); [|reflexivity].
  unfold JobOrchestrator.executeJob.
  destruct (JobOrchestrator.getJob _ st); [|reflexivity].
  rewrite lookup_insert_ne by auto.
  rewrite lookup_insert_ne; [reflexivity|].
  rewrite <- (Hown j eq_refl). auto.
Qed.

Lemma alarm_fold_quiet (l : list (string * JobOrchestrator.Stored)) :
  forall st,
    (forall k j, (k, JobOrchestrator.SJob j) ∈ l -> due (tick k) j = false) ->
    foldl (JobOrchestrator.alarmStep tick done work) st l = st.
Proof.
  induction l as [|[k0 v0] l IH]; intros st H; [reflexivity|].
  cbn [foldl]. rewrite alarmStep_quiet.
  - apply IH. intros k j Hin. apply (H k j). now right.
  - intros j ->. apply (H k0 j). now left.
Qed.

Lemma alarm_fold_untouched (l : list (string * JobOrchestrator.Stored)) :
  forall st k,
    ownKeys l -> k <> "lastJobRun" ->
    (forall j, (k, JobOrchestrator.SJob j) ∈ l -> due (tick k) j = false) ->
    foldl (JobOrchestrator.alarmStep tick done work) st l !! k = st !! k.
Proof.
  induction l as [|[k0 v0] l IH]; intros st k Hown Hl H; [reflexivity|].
  cbn [foldl]. rewrite IH.
  - destruct (decide (k = k0)) as [->|Hne].
    + rewrite alarmStep_quiet; [reflexivity|].
      intros j ->. apply H. now left.
    + apply alarmStep_lookup; auto.
      intros j ->. apply Hown. now left.
  - intros k' j Hin. apply Hown. now right.
  - exact Hl.
  - intros j Hin. apply H. now right.
Qed.

(** Once some due job has set [lastJobRun], the value at the end of the
    loop is the completion instant of a due job of the listing. *)
Lemma alarm_fold_lastJobRun (all l : list (string * JobOrchestrator.Stored)) :
  forall st,
    (forall kv, kv ∈ l -> kv ∈ all) ->
    stamped tick done all (st !! "lastJobRun") ->
    stamped tick done all
      (foldl (JobOrchestrator.alarmStep tick done work) st l !! "lastJobRun").
Proof.
  induction l as [|[k0 v0] l IH]; intros st Hsub Hs; [exact Hs|].
  cbn [foldl]. apply IH.
  - intros kv Hin. apply Hsub. now right.
  - unfold JobOrchestrator.alarmStep.
    destruct v0 as [j|t]; [|exact Hs].
    destruct (JobState_eqb (JobOrchestrator.o_status j) PENDING
              && (JobOrchestrator.o_scheduledFor j <=? msNow (tick k0))) eqn:D;
      [|exact Hs].
    unfold JobOrchestrator.executeJob.
    destruct (JobOrchestrator.getJob _ st); [|exact Hs].
    rewrite lookup_insert_eq. exists k0, j. split; [|split; [exact D|reflexivity]].
    apply Hsub. now left.
Qed.

Lemma alarm_fold_executed (all l : list (string * JobOrchestrator.Stored)) :
  forall st k j,
    (forall kv, kv ∈ l -> kv ∈ all) ->
    NoDup (fst <$> l) -> ownKeys l ->
    (k, JobOrchestrator.SJob j) ∈ l -> due (tick k) j = true ->
    st !! k = Some (JobOrchestrator.SJob j) ->
    foldl (JobOrchestrator.alarmStep tick done work) st l !! k
      = Some (JobOrchestrator.SJob (finished (done k) work j)) /\
    stamped tick done all
      (foldl (JobOrchestrator.alarmStep tick done work) st l !! "lastJobRun").
Proof.
  induction l as [|[k0 v0] l IH]; intros st k j Hsub Hnd Hown Hin Hdue Hst.
  - now apply elem_of_nil in Hin.
  - cbn [foldl]. rewrite fmap_cons in Hnd. cbn [fst] in Hnd.
    apply NoDup_cons in Hnd as [Hnotin Hnd].
    assert (Hown' : ownKeys l).
    { intros k' j' H'. apply Hown. now right. }
    assert (Hsub' : forall kv, kv ∈ l -> kv ∈ all).
    { intros kv H'. apply Hsub. now right. }
    apply elem_of_cons in Hin as [[= <- <-]|Hin].
    + assert (Hk : k = JobOrchestrator.jobKey (JobOrchestrator.o_id j)).
      { apply Hown. now left. }
      assert (Hstep : JobOrchestrator.alarmStep tick done work st
                        (k, JobOrchestrator.SJob j)
                      = <[ "lastJobRun" := JobOrchestrator.SInstant (msNow (done k)) ]>
                          (<[ k := JobOrchestrator.SJob (finished (done k) work j) ]> st)).
      { unfold JobOrchestrator.alarmStep. unfold due in Hdue. rewrite Hdue.
        rewrite (executeJob_finished (done k) work _ st j).
        - now rewrite <- Hk.
        - unfold JobOrchestrator.getJob. now rewrite <- Hk, Hst. }
      rewrite Hstep. split.
      * rewrite alarm_fold_untouched; auto.
        -- rewrite lookup_insert_ne
             by (rewrite Hk; apply not_eq_sym, jobKey_not_lastJobRun).
           apply lookup_insert_eq.
        -- rewrite Hk. apply jobKey_not_lastJobRun.
        -- intros j' Hin'. exfalso. apply Hnotin.
           apply list_elem_of_fmap. now exists (k, JobOrchestrator.SJob j').
      * apply alarm_fold_lastJobRun; [exact Hsub'|].
        rewrite lookup_insert_eq. exists k, j.
        split; [apply Hsub; now left | split; [exact Hdue | reflexivity]].
    + assert (Hk : k = JobOrchestrator.jobKey (JobOrchestrator.o_id j)).
      { apply Hown. now right. }
      assert (Hne : k <> k0).
      { intros ->. apply Hnotin. apply list_elem_of_fmap.
        now exists (k0, JobOrchestrator.SJob j). }
      apply IH; auto.
      rewrite alarmStep_lookup; auto.
      * intros j0 ->. apply Hown. now left.
      * rewrite Hk. apply jobKey_not_lastJobRun.
Qed.

End AlarmLoop.

Lemma wellKeyed_spec st k j :
  wellKeyed st = true ->
  st !! k = Some (JobOrchestrator.SJob j) ->
  k = JobOrchestrator.jobKey (JobOrchestrator.o_id j).
Proof.
  unfold wellKeyed. rewrite forallb_forall. intros H Hst.
  specialize (H (k, JobOrchestrator.SJob j)).
  apply String.eqb_eq. apply H.
  apply list_elem_of_In, elem_of_map_to_list. exact Hst.
Qed.

Lemma list_jobs_spec st k v :
  (k, v) ∈ OrchestratorStatus.list_jobs st
  <-> JS.startsWith "job:" k = true /\ st !! k = Some v.
Proof.
  unfold OrchestratorStatus.list_jobs.
  rewrite list_elem_of_filter, elem_of_map_to_list. cbn [fst].
  rewrite Is_true_true. reflexivity.
Qed.

Lemma list_jobs_NoDup st : NoDup (fst <$> OrchestratorStatus.list_jobs st).
Proof.
  unfold OrchestratorStatus.list_jobs.
  eapply sublist_NoDup; [apply (NoDup_fst_map_to_list st)|].
  apply fmap_sublist, sublist_filter.
Qed.

Lemma startsWith_jobKey id : JS.startsWith "job:" (JobOrchestrator.jobKey id) = true.
Proof. apply startsWith_spec. now exists id. Qed.

(** X19. [alarm] lists the jobs once and reads the clock anew in every
    iteration.  On a storage in which every job sits under the key of
    its own id it executes exactly the jobs that are pending and whose
    time has come at the instant their own iteration reads, each once (a
    job that fails below its limit goes back to pending but is not run
    again by the same alarm), and stamps each with the instant it reads
    on completion; every other job is left as it was.  So a job that
    is not yet due when the alarm starts is still executed if it has
    become due by the time the loop reaches it.  Keys that are neither a
    job key nor [lastJobRun] are untouched; when some job was executed
    [lastJobRun] holds the completion instant of an executed job, and
    when none was the storage is unchanged. *)
Theorem alarm_executes_due_pending_jobs (tick done : string -> Ambient)
  (work : Outcome unit) (st : gmap string JobOrchestrator.Stored) :
  wellKeyed st = true ->
  let st' := JobOrchestrator.alarm tick done work st in
  (forall id job,
     JobOrchestrator.getJob id st = Some job ->
     JobOrchestrator.getJob id st'
       = Some (if due (tick (JobOrchestrator.jobKey id)) job
               then finished (done (JobOrchestrator.jobKey id)) work job
               else job)) /\
  (forall k, k <> "lastJobRun" -> (forall id, k <> JobOrchestrator.jobKey id) ->
             st' !! k = st !! k) /\
  ((exists id job, JobOrchestrator.getJob id st = Some job /\
                   due (tick (JobOrchestrator.jobKey id)) job = true) ->
     exists id job,
       JobOrchestrator.getJob id st = Some job /\
       due (tick (JobOrchestrator.jobKey id)) job = true /\
       st' !! "lastJobRun"
         = Some (JobOrchestrator.SInstant
                   (msNow (done (JobOrchestrator.jobKey id))))) /\
  ((forall id job, JobOrchestrator.getJob id st = Some job ->
                   due (tick (JobOrchestrator.jobKey id)) job = false) ->
     st' = st).
Proof.
  intros Hwk. cbv zeta.
  change (JobOrchestrator.alarm tick done work st)
    with (foldl (JobOrchestrator.alarmStep tick done work) st
            (OrchestratorStatus.list_jobs st)).
  assert (Hown : ownKeys (OrchestratorStatus.list_jobs st)).
  { intros k j Hin. apply list_jobs_spec in Hin as [_ Hin].
    now apply wellKeyed_spec with st. }
  assert (Hget : forall id job,
             JobOrchestrator.getJob id st = Some job ->
             st !! JobOrchestrator.jobKey id = Some (JobOrchestrator.SJob job)).
  { intros id job. unfold JobOrchestrator.getJob.
    destruct (st !! JobOrchestrator.jobKey id) as [[j|t]|]; congruence. }
  repeat match goal with |- _ /\ _ => split end.
  - intros id job Hj. pose proof (Hget id job Hj) as Hst.
    unfold JobOrchestrator.getJob at 1.
    destruct (due (tick (JobOrchestrator.jobKey id)) job) eqn:Hdue.
    + destruct (alarm_fold_executed tick done work
                  (OrchestratorStatus.list_jobs st)
                  (OrchestratorStatus.list_jobs st)
                  st (JobOrchestrator.jobKey id) job) as [E _]; auto.
      * apply list_jobs_NoDup.
      * apply list_jobs_spec. split; [apply startsWith_jobKey | exact Hst].
      * now rewrite E.
    + rewrite alarm_fold_untouched;
        [now rewrite Hst | exact Hown | apply jobKey_not_lastJobRun |].
      intros j Hin. apply list_jobs_spec in Hin as [_ Hin]. congruence.
  - intros k Hl Hk. apply alarm_fold_untouched; auto.
    intros j Hin. apply list_jobs_spec in Hin as [_ Hin].
    exfalso. apply (Hk (JobOrchestrator.o_id j)).
    now apply wellKeyed_spec with st.
  - intros (id & job & Hj & Hdue). pose proof (Hget id job Hj) as Hst.
    destruct (alarm_fold_executed tick done work
                (OrchestratorStatus.list_jobs st)
                (OrchestratorStatus.list_jobs st)
                st (JobOrchestrator.jobKey id) job) as [_ E]; auto.
    + apply list_jobs_NoDup.
    + apply list_jobs_spec. split; [apply startsWith_jobKey | exact Hst].
    + destruct E as (k' & j' & Hin' & Hd' & E).
      apply list_jobs_spec in Hin' as [_ Hin'].
      pose proof (wellKeyed_spec st k' j' Hwk Hin') as Hk'.
      exists (JobOrchestrator.o_id j'), j'. rewrite <- Hk'.
      split; [|split; [exact Hd' | exact E]].
      unfold JobOrchestrator.getJob. now rewrite <- Hk', Hin'.
  - intros Hquiet. apply alarm_fold_quiet.
    intros k j Hin. apply list_jobs_spec in Hin as [_ Hin].
    pose proof (wellKeyed_spec st k j Hwk Hin) as Hk.
    rewrite Hk. apply (Hquiet (JobOrchestrator.o_id j)).
    unfold JobOrchestrator.getJob. now rewrite <- Hk, Hin.
Qed.

Lemma alarm_executes_due_pending_jobs_witness :
  JobOrchestrator.o_status
    <$> JobOrchestrator.getJob "a"
          (JobOrchestrator.alarm (fun _ => someAmbient) (fun _ => laterAmbient)
             (Returned tt) orchestratorStore)
  = Some (if due someAmbient
               (JobOrchestrator.mkOJob "a" "cron" 10 PENDING 5 0 3
                                       None None None None None)
          then COMPLETED else PENDING).
Proof.
  rewrite (proj1 (alarm_executes_due_pending_jobs (fun _ => someAmbient)
                    (fun _ => laterAmbient) (Returned tt)
                    orchestratorStore eq_refl) "a" _ eq_refl).
  destruct (due someAmbient _); reflexivity.
Defined.

Lemma partition_by_status (vs : list JobOrchestrator.Stored) :
  length vs
  = (length (List.filter (OrchestratorStatus.hasStatus PENDING) vs)
     + length (List.filter (OrchestratorStatus.hasStatus RUNNING) vs)
     + length (List.filter (OrchestratorStatus.hasStatus COMPLETED) vs)
     + length (List.filter (OrchestratorStatus.hasStatus FAILED) vs)
     + length (List.filter uncounted vs))%nat.
Proof.
  induction vs as [|v vs IH]; [reflexivity|].
  cbn [List.filter length]. rewrite IH. unfold uncounted.
  destruct v as [j|t]; cbn; [destruct (JobOrchestrator.o_status j)|]; cbn; lia.
Qed.

(** X20. In the reply of the orchestrator's [getStatus] the four counts
    never add up to more than [totalJobs], and the difference is the
    number of listed documents whose status is none of pending, running,
    completed and failed: a cancelled job is counted in the total and in
    no other member. *)
Theorem getStatus_counts (st : gmap string JobOrchestrator.Stored) :
  let s := OrchestratorStatus.getStatus st in
  OrchestratorStatus.totalJobs s
  = (OrchestratorStatus.pending s + OrchestratorStatus.running s
     + OrchestratorStatus.completed s + OrchestratorStatus.failed s
     + length (List.filter uncounted (OrchestratorStatus.listJobs st)))%nat /\
  (forall id job,
     JobOrchestrator.getJob id st = Some job ->
     JobOrchestrator.o_status job = CANCELLED ->
     (OrchestratorStatus.pending s + OrchestratorStatus.running s
      + OrchestratorStatus.completed s + OrchestratorStatus.failed s
      < OrchestratorStatus.totalJobs s)%nat).
Proof.
  cbv zeta. unfold OrchestratorStatus.getStatus.
  cbn [OrchestratorStatus.totalJobs OrchestratorStatus.pending
       OrchestratorStatus.running OrchestratorStatus.completed
       OrchestratorStatus.failed].
  split; [apply partition_by_status|].
  intros id job Hj Hc.
  rewrite (partition_by_status (OrchestratorStatus.listJobs st)).
  assert (Hin : In (JobOrchestrator.SJob job)
                   (List.filter uncounted (OrchestratorStatus.listJobs st))).
  { apply filter_In. split.
    - unfold OrchestratorStatus.listJobs. apply in_map_iff.
      exists (JobOrchestrator.jobKey id, JobOrchestrator.SJob job).
      split; [reflexivity|]. apply list_elem_of_In, list_jobs_spec.
      split; [apply startsWith_jobKey|].
      unfold JobOrchestrator.getJob in Hj.
      destruct (st !! JobOrchestrator.jobKey id) as [[j|t]|]; congruence.
    - unfold uncounted. cbn. now rewrite Hc. }
  destruct (List.filter uncounted (OrchestratorStatus.listJobs st));
    [destruct Hin | cbn [length]; lia].
Qed.

(* --------------------------------------------------------------------- *)
(** ** helpers.js: [truncate] and [retryWithBackoff] *)
(* --------------------------------------------------------------------- *)

Lemma length_append (a b : string) :
  String.length (a +:+ b) = (String.length a + String.length b)%nat.
Proof.
  induction a as [|c a IH]; [reflexivity|].
  change (String c a +:+ b) with (String c (a +:+ b)).
  cbn [String.length]. now rewrite IH.
Qed.

Lemma length_substring_0 (n : nat) :
  forall s, String.length (String.substring 0 n s) = Nat.min n (String.length s).
Proof.
  induction n as [|n IH]; intros [|c s]; cbn; try reflexivity.
  now rewrite IH.
Qed.

(** X21. [truncate] returns a string of at most [maxLength] characters
    unchanged; a longer one is cut to its first [maxLength - 3]
    characters followed by "...", which has exactly [maxLength]
    characters when [maxLength >= 3].  When [maxLength < 3] the cut is
    empty and the result is "...", longer than the limit asked for.
    Truncating a second time changes nothing. *)
Theorem truncate_length (str : string) (maxLength : Z) :
  let r := HelpersText.truncate str maxLength in
  ((Z.of_nat (String.length str) <= maxLength)%Z -> r = str) /\
  ((maxLength < Z.of_nat (String.length str))%Z ->
     r = HelpersText.substring0 (maxLength - 3) str +:+ "..." /\
     Z.of_nat (String.length r) = Z.max maxLength 3 /\
     ((maxLength < 3)%Z -> r = "...")) /\
  (Z.of_nat (String.length r) <= Z.max maxLength 3)%Z /\
  HelpersText.truncate r maxLength = r.
Proof.
  cbv zeta.
  assert (Hlong : (maxLength < Z.of_nat (String.length str))%Z ->
                  HelpersText.truncate str maxLength
                  = HelpersText.substring0 (maxLength - 3) str +:+ "..." /\
                  Z.of_nat (String.length (HelpersText.truncate str maxLength))
                  = Z.max maxLength 3).
  { intros H. unfold HelpersText.truncate.
    destruct (Z.leb_spec (Z.of_nat (String.length str)) maxLength); [lia|].
    split; [reflexivity|].
    unfold HelpersText.substring0.
    rewrite length_append, length_substring_0. cbn [String.length]. lia. }
  assert (Hshort : (Z.of_nat (String.length str) <= maxLength)%Z ->
                   HelpersText.truncate str maxLength = str).
  { intros H. unfold HelpersText.truncate.
    destruct (Z.leb_spec (Z.of_nat (String.length str)) maxLength); [reflexivity|lia]. }
  assert (Hsmall : (maxLength < 3)%Z -> forall s,
                   HelpersText.substring0 (maxLength - 3) s = "").
  { intros H s. unfold HelpersText.substring0.
    replace (Z.to_nat (maxLength - 3)) with 0%nat by lia.
    destruct s; reflexivity. }
  split; [exact Hshort|]. split; [|split].
  - intros H. destruct (Hlong H) as [E L]. split; [exact E|]. split; [exact L|].
    intros H3. rewrite E, (Hsmall H3). reflexivity.
  - destruct (Z.le_gt_cases (Z.of_nat (String.length str)) maxLength) as [H|H].
    + rewrite (Hshort H). lia.
    + destruct (Hlong H) as [_ L]. lia.
  - destruct (Z.le_gt_cases (Z.of_nat (String.length str)) maxLength) as [H|H].
    + rewrite (Hshort H). exact (Hshort H).
    + destruct (Hlong H) as [E L].
      destruct (Z.le_gt_cases 3 maxLength) as [H3|H3].
      * unfold HelpersText.truncate at 1.
        destruct (Z.leb_spec
                    (Z.of_nat (String.length (HelpersText.truncate str maxLength)))
                    maxLength); [reflexivity | lia].
      * rewrite E, (Hsmall H3). change ("" +:+ "...") with "...".
        unfold HelpersText.truncate.
        destruct (Z.leb_spec (Z.of_nat (String.length "...")) maxLength);
          [reflexivity|].
        now rewrite (Hsmall H3).
Qed.

Section RetryOutcome.

Context {A : Type}.
Variable fn : nat -> Outcome A.

Lemma first_return (n : nat) :
  throws_from fn 0 n \/
  exists j a, (j < n)%nat /\ throws_from fn 0 j /\ fn j = Returned a.
Proof.
  induction n as [|n [IH|(j & a & Hj & Hth & Hok)]].
  - left. intros i Hi. lia.
  - destruct (fn n) as [a|e] eqn:E.
    + right. exists n, a. repeat split; [lia | exact IH | exact E].
    + left. intros i Hi. destruct (Nat.eq_dec i n) as [->|Hne]; [eauto|].
      apply IH. lia.
  - right. exists j, a. repeat split; [lia | exact Hth | exact Hok].
Qed.

Lemma retryLoop_last (maxRetries : nat) (baseDelay : N) (todo : nat) :
  forall attempt lastError sl sl' last,
    Helpers.retryLoop fn maxRetries baseDelay todo attempt lastError sl
      = (sl', Helpers.GaveUp last) ->
    match todo with
    | O => last = lastError
    | S t => exists e, fn (attempt + t)%nat = Thrown e /\ last = Some e
    end.
Proof.
  induction todo as [|todo IH]; intros attempt lastError sl sl' last H.
  - cbn in H. congruence.
  - cbn [Helpers.retryLoop] in H. destruct (fn attempt) as [a|e] eqn:E;
      [discriminate|].
    apply IH in H. destruct todo as [|t].
    + exists e. rewrite Nat.add_0_r. split; [exact E | exact H].
    + destruct H as [e' [H1 H2]]. exists e'. split; [|exact H2].
      rewrite <- H1. f_equal. lia.
Qed.

Lemma cadence_total (base : N) (n : nat) :
  foldr N.add 0 (cadence base n) = base * (2 ^ N.of_nat n - 1).
Proof.
  rewrite <- cadence_backoff.
  induction n as [|n IH]; [cbn; lia|].
  rewrite seq_S, map_app, foldr_app. cbn [map foldr plus].
  assert (G : forall l a, foldr N.add a l = foldr N.add 0 l + a).
  { clear. induction l as [|x l IHl]; intros a; cbn [foldr]; [lia|].
    rewrite IHl. lia. }
  rewrite G, IH. unfold Helpers.backoffDelay.
  rewrite Nat2N.inj_succ, N.pow_succ_r'.
  pose proof (N.pow_nonzero 2 (N.of_nat n) ltac:(lia)). nia.
Qed.

(** X22. What [retryWithBackoff] returns tells what happened.  The
    delays it slept are those of attempts 1, 2, ... in order, one per
    call that threw and was followed by another call, so together they
    are [baseDelay * (2^n - 1)] for [n] sleeps and there are at most
    [maxRetries - 1] of them.  A value is returned by the first call
    that does not throw.  It gives up only after [maxRetries] calls that
    all threw, and rethrows the error of the last one; with
    [maxRetries = 0] it calls nothing and throws [undefined]. *)
Theorem retryWithBackoff_outcome (maxRetries : nat) (baseDelay : N) :
  let out := Helpers.retryWithBackoff fn maxRetries baseDelay in
  let n := length (fst out) in
  fst out = cadence baseDelay n /\
  (n <= maxRetries - 1)%nat /\
  foldr N.add 0 (fst out) = baseDelay * (2 ^ N.of_nat n - 1) /\
  throws_from fn 0 n /\
  match snd out with
  | Helpers.Done a => (n < maxRetries)%nat /\ fn n = Returned a
  | Helpers.GaveUp last =>
      n = (maxRetries - 1)%nat /\ throws_from fn 0 maxRetries /\
      match maxRetries with
      | O => last = None
      | S m => exists e, fn m = Thrown e /\ last = Some e
      end
  end.
Proof.
  cbv zeta. unfold Helpers.retryWithBackoff.
  destruct (first_return maxRetries) as [Hth|(j & a & Hj & Hth & Hok)].
  - destruct (retryLoop_exhausted fn maxRetries baseDelay maxRetries 0 None [])
      as [last [E _]]; [lia | exact Hth |].
    pose proof (retryLoop_last maxRetries baseDelay maxRetries 0 None [] _ _ E)
      as Hlast.
    rewrite E. cbn [fst snd app]. rewrite cadence_backoff.
    assert (L : length (cadence baseDelay (maxRetries - 1)) = (maxRetries - 1)%nat).
    { unfold cadence. now rewrite length_map, length_seq. }
    rewrite L. repeat match goal with |- _ /\ _ => split end;
      try reflexivity; try lia; try exact Hth.
    + apply cadence_total.
    + intros i Hi. apply Hth. lia.
    + destruct maxRetries; exact Hlast.
  - rewrite (retryLoop_success fn maxRetries baseDelay j maxRetries 0 None [] a);
      [| lia | exact Hj | exact Hth | exact Hok].
    cbn [fst snd app]. rewrite cadence_backoff.
    assert (L : length (cadence baseDelay j) = j).
    { unfold cadence. now rewrite length_map, length_seq. }
    rewrite L. repeat match goal with |- _ /\ _ => split end;
      try reflexivity; try lia; try exact Hth; try exact Hok.
    apply cadence_total.
Qed.

End RetryOutcome.

(* --------------------------------------------------------------------- *)
(** ** The API worker: jobs routes and queue consumer *)
(* --------------------------------------------------------------------- *)

(** X23. Through the API a created job can be read back at once under
    the id of the 201 reply, and after DELETE the same GET replies 404.
    DELETE never replies 404 itself: for an id that has no job it still
    answers "cancelled" and changes nothing; it leaves every other job
    readable. *)
Theorem api_job_round_trip (amb : Ambient) (body : JobScheduler.Options)
  (e : Env) :
  let out := ApiJobs.createJob amb body e in
  let job := snd (JobScheduler.createJob amb body e) in
  snd out = ApiJobs.mkJobReply 201 (Some job) None /\
  ApiJobs.getJob (job_id job) (fst out)
    = ApiJobs.mkJobReply 200 (Some job) None /\
  ApiJobs.getJob (job_id job) (fst (Api.cancelJob (job_id job) (fst out)))
    = ApiJobs.mkJobReply 404 None (Some "Job not found") /\
  (forall id,
     JOB_QUEUE e !! id = None ->
     http_status (snd (Api.cancelJob id e)) = 200 /\
     fst (Api.cancelJob id e) = e) /\
  (forall id k, k <> id ->
     ApiJobs.getJob k (fst (Api.cancelJob id e)) = ApiJobs.getJob k e).
Proof.
  cbv zeta. repeat match goal with |- _ /\ _ => split end.
  - reflexivity.
  - unfold ApiJobs.getJob, ApiJobs.createJob. cbn [fst snd].
    unfold JobScheduler.createJob. cbn [fst snd].
    unfold logEvent, with_AGENT_STATE, with_JOB_QUEUE.
    cbn [JOB_QUEUE job_id]. now rewrite lookup_insert_eq.
  - unfold ApiJobs.getJob, Api.cancelJob. cbn [fst with_JOB_QUEUE JOB_QUEUE].
    now rewrite lookup_delete_eq.
  - intros id Hnone. split; [reflexivity|].
    unfold Api.cancelJob, with_JOB_QUEUE. cbn [fst].
    rewrite delete_id by exact Hnone. now destruct e.
  - intros id k Hk. unfold ApiJobs.getJob, Api.cancelJob.
    cbn [fst with_JOB_QUEUE JOB_QUEUE]. now rewrite lookup_delete_ne.
Qed.

Lemma logKey_event_inj (amb : Ambient) (a b : string) :
  logKey amb a = logKey amb b -> a = b.
Proof.
  unfold logKey. intros H.
  repeat match type of H with
         | _ +:+ _ = _ +:+ _ => apply String.app_inj in H
         end.
  exact H.
Qed.

Section Consumer.

Variable run : Job -> Env -> Env * Outcome string.
Variable jobOf : SelfHealingEngine.Message -> Job.

(** X24. The queue consumer settles a message by what [processQueuedJob]
    did: it acknowledges after a return, asks for a retry after a throw
    while [retryCount < 3], and from [retryCount] 3 on hands the message
    to [handleDeadLetter] and acknowledges.  After a throw the error is
    logged under [queue_error].  The consumer itself writes neither
    JOB_QUEUE nor LEARNING_MEMORY, and a dead-lettered message leaves an
    active issue behind: the engine has no tree for dead letters, so
    nothing resolves it. *)
Theorem deliver_settles (amb : Ambient) (m : SelfHealingEngine.Message)
  (e : Env) :
  let p := JobScheduler.processQueuedJob run amb (jobOf m) e in
  let out := QueueConsumer.deliver run jobOf amb m e in
  JOB_QUEUE (fst out) = JOB_QUEUE (fst p) /\
  LEARNING_MEMORY (fst out) = LEARNING_MEMORY (fst p) /\
  match snd p with
  | Returned _ => out = (fst p, QueueConsumer.Ack)
  | Thrown err =>
      snd out = (if SelfHealingEngine.msg_retryCount m <? 3
                 then QueueConsumer.Retry else QueueConsumer.Ack) /\
      AGENT_STATE (fst out) !! logKey amb "queue_error"
        = Some (VLog (mkLogEntry (isoNow amb) "error" "queue_error"
                        [("messageId", SelfHealingEngine.msg_id m);
                         ("error", err)])) /\
      (SelfHealingEngine.msg_retryCount m < 3 ->
         forall k, k <> logKey amb "queue_error" ->
                   AGENT_STATE (fst out) !! k = AGENT_STATE (fst p) !! k) /\
      (3 <= SelfHealingEngine.msg_retryCount m ->
         exists d,
           (SelfHealingEngine.issueKey (Helpers.generateId "issue" amb), d)
             ∈ EngineScan.getActiveIssues (fst out) /\
           doc_type d = Some DEAD_LETTER)
  end.
Proof.
  cbv zeta. unfold QueueConsumer.deliver.
  destruct (JobScheduler.processQueuedJob run amb (jobOf m) e) as [e1 [r|err]].
  - cbn [fst snd]. repeat split.
  - cbn [fst snd].
    destruct (N.ltb_spec (SelfHealingEngine.msg_retryCount m) 3) as [Hlt|Hge];
      cbn [fst snd].
    + split; [reflexivity|]. split; [reflexivity|].
      split; [reflexivity|]. split; [apply lookup_insert_eq|].
      split; [|lia]. intros _ k Hk. now apply logEvent_AGENT_STATE.
    + split; [reflexivity|]. split; [reflexivity|].
      split; [reflexivity|]. split.
      * unfold SelfHealingEngine.handleDeadLetter, SelfHealingEngine.handleIssue.
        cbn -[logKey SelfHealingEngine.issueKey].
        rewrite lookup_insert_ne
          by (intros H; apply logKey_event_inj in H; discriminate H).
        rewrite lookup_insert_ne
          by (intros H; apply logKey_event_inj in H; discriminate H).
        rewrite lookup_insert_ne by apply not_eq_sym, logKey_issueKey.
        apply lookup_insert_eq.
      * split; [lia|]. intros _.
        eexists. split.
        -- apply getActiveIssues_spec. split.
           ++ unfold SelfHealingEngine.handleDeadLetter,
                SelfHealingEngine.handleIssue.
              cbn -[logKey SelfHealingEngine.issueKey].
              rewrite !lookup_insert_ne by apply logKey_issueKey.
              apply lookup_insert_eq.
           ++ reflexivity.
        -- reflexivity.
Qed.

(** X25. A job that was deleted through the API while its message was
    still queued is never executed: every delivery throws "Job not
    found" before the job body is reached, whatever the bodies would do,
    and no job document comes back.  The message is retried while
    [retryCount < 3] and dead-lettered after that. *)
Theorem cancelled_job_is_never_executed (amb : Ambient)
  (m : SelfHealingEngine.Message) (e : Env)
  (run' : Job -> Env -> Env * Outcome string) :
  let id := job_id (jobOf m) in
  let e' := fst (Api.cancelJob id e) in
  let out := QueueConsumer.deliver run jobOf amb m e' in
  JobScheduler.processQueuedJob run amb (jobOf m) e'
    = (e', Thrown ("Job not found: " +:+ id)) /\
  out = QueueConsumer.deliver run' jobOf amb m e' /\
  snd out = (if SelfHealingEngine.msg_retryCount m <? 3
             then QueueConsumer.Retry else QueueConsumer.Ack) /\
  JOB_QUEUE (fst out) = JOB_QUEUE e' /\
  JOB_QUEUE (fst out) !! id = None.
Proof.
  cbv zeta.
  assert (P : forall r,
            JobScheduler.processQueuedJob r amb (jobOf m)
              (fst (Api.cancelJob (job_id (jobOf m)) e))
            = (fst (Api.cancelJob (job_id (jobOf m)) e),
               Thrown ("Job not found: " +:+ job_id (jobOf m)))).
  { intros r. unfold JobScheduler.processQueuedJob, JobScheduler.updateJob,
      Api.cancelJob.
    cbn [fst with_JOB_QUEUE JOB_QUEUE]. now rewrite lookup_delete_eq. }
  split; [apply P|].
  unfold QueueConsumer.deliver. rewrite !P.
  split; [reflexivity|].
  destruct (SelfHealingEngine.msg_retryCount m <? 3); cbn [fst snd].
  - repeat split. unfold Api.cancelJob. cbn. apply lookup_delete_eq.
  - repeat split. unfold Api.cancelJob. cbn. apply lookup_delete_eq.
Qed.

End Consumer.

(* --------------------------------------------------------------------- *)
(** ** From the scan to the retry job *)
(* --------------------------------------------------------------------- *)

Lemma scanned_failure_evaluates (amb : Ambient) (job : Job) :
  attempts job < 3 ->
  evaluate job_failure_tree
    (issue_context (SelfHealingEngine.jobFailureIssue amb job))
  = decided RETRY "Scheduling retry" (Some (JS.Num (2 ^ attempts job * 1000))).
Proof.
  intros Hlt. unfold job_failure_tree. rewrite evaluate_unfold.
  cbn -[N.pow N.mul]. apply N.ltb_lt in Hlt. rewrite Hlt. reflexivity.
Qed.

(** X26. A failed job with fewer than 3 attempts that the scan reports
    is answered with RETRY, and the retry that [handleIssue] schedules
    is a new job of type "retry_issue" under a new id; the failed job's
    own document is not touched.  [executeJob] has no case for that
    type: when the retry job is processed it throws "Unknown job type:
    retry_issue" whatever the built-in bodies do, and it is stored with
    one attempt, pending again.  The scheduled retry never re-runs the
    job that failed. *)
Theorem scheduled_retry_is_never_executed
  (run : Job -> Env -> Env * Outcome string) (amb amb' : Ambient)
  (job : Job) (g : SelfHealingEngine.Engine) :
  SelfHealingEngine.decisionTrees g = _buildDecisionTrees ->
  attempts job < 3 ->
  let issue := SelfHealingEngine.jobFailureIssue amb job in
  let out := SelfHealingEngine.handleIssue amb issue g in
  let e1 := SelfHealingEngine.env (fst out) in
  let retry := retryJobOf amb issue in
  action (snd out) = Some RETRY /\
  delay (snd out) = Some (JS.Num (2 ^ attempts job * 1000)) /\
  JOB_QUEUE e1 = <[ job_id retry := retry ]> (JOB_QUEUE (SelfHealingEngine.env g)) /\
  (forall k, k <> job_id retry ->
             JOB_QUEUE e1 !! k = JOB_QUEUE (SelfHealingEngine.env g) !! k) /\
  snd (JobScheduler.processQueuedJob run amb' retry e1)
    = Thrown "Unknown job type: retry_issue" /\
  exists j',
    JOB_QUEUE (fst (JobScheduler.processQueuedJob run amb' retry e1))
      !! job_id retry = Some j' /\
    status j' = PENDING /\ attempts j' = 1 /\
    job_error j' = Some "Unknown job type: retry_issue".
Proof.
  intros Htrees Hlt. cbv zeta.
  assert (Hq : JOB_QUEUE
                 (SelfHealingEngine.env
                    (fst (SelfHealingEngine.handleIssue amb
                            (SelfHealingEngine.jobFailureIssue amb job) g)))
               = <[ job_id (retryJobOf amb (SelfHealingEngine.jobFailureIssue amb job))
                    := retryJobOf amb (SelfHealingEngine.jobFailureIssue amb job) ]>
                   (JOB_QUEUE (SelfHealingEngine.env g)) /\
               snd (SelfHealingEngine.handleIssue amb
                      (SelfHealingEngine.jobFailureIssue amb job) g)
               = mkActionResult (Some true) (Some RETRY) (Some "Scheduling retry")
                   (Some (JS.Num (2 ^ attempts job * 1000))) None).
  { unfold SelfHealingEngine.handleIssue.
    change (SelfHealingEngine.decisionTrees
              (SelfHealingEngine.recordIssue amb
                 (SelfHealingEngine.jobFailureIssue amb job) g))
      with (SelfHealingEngine.decisionTrees g).
    rewrite Htrees.
    change (_buildDecisionTrees
              (issue_type (SelfHealingEngine.jobFailureIssue amb job)))
      with (Some job_failure_tree).
    cbv iota beta.
    rewrite (scanned_failure_evaluates amb job Hlt).
    cbn [matched result decided fst snd]. split; reflexivity. }
  destruct Hq as [Hq Hr]. rewrite Hr.
  split; [reflexivity|]. split; [reflexivity|]. split; [exact Hq|].
  split.
  - intros k Hk. rewrite Hq. now rewrite lookup_insert_ne by auto.
  - erewrite processQueuedJob_throwing;
      [| rewrite Hq; apply lookup_insert_eq | reflexivity].
    cbn [fst snd]. split; [reflexivity|].
    eexists. cbn [with_JOB_QUEUE JOB_QUEUE]. rewrite lookup_insert_eq.
    repeat split; reflexivity.
Qed.

Lemma scheduled_retry_is_never_executed_witness :
  let job := mkJob "job_7" "health_check" FAILED 5 [] "2024-01-01T00:00:00.000Z"
                   "2024-01-01T00:05:00.000Z" 2 3 None (Some "boom") in
  let issue := SelfHealingEngine.jobFailureIssue someAmbient job in
  snd (JobScheduler.processQueuedJob noRunner someAmbient
         (retryJobOf someAmbient issue)
         (SelfHealingEngine.env
            (fst (SelfHealingEngine.handleIssue someAmbient issue
                    (SelfHealingEngine.constructor emptyEnv)))))
  = Thrown "Unknown job type: retry_issue".
Proof.
  exact (proj1 (proj2 (proj2 (proj2 (proj2
           (scheduled_retry_is_never_executed noRunner someAmbient someAmbient
              (mkJob "job_7" "health_check" FAILED 5 []
                     "2024-01-01T00:00:00.000Z" "2024-01-01T00:05:00.000Z"
                     2 3 None (Some "boom"))
              (SelfHealingEngine.constructor emptyEnv) eq_refl eq_refl)))))).
Defined.

(* --------------------------------------------------------------------- *)
(** ** The SelfHealer Durable Object: status and escalation *)
(* --------------------------------------------------------------------- *)

Lemma entries_insert {V} (m : gmap string V) (k : string) (x : V) :
  map_to_list (<[ k := x ]> m) ≡ₚ (k, x) :: map_to_list (delete k m) /\
  map_to_list m
    ≡ₚ match m !! k with Some v => [(k, v)] | None => [] end
       ++ map_to_list (delete k m).
Proof.
  split.
  - rewrite <- insert_delete_eq. apply map_to_list_insert, lookup_delete_eq.
  - destruct (m !! k) as [v|] eqn:E.
    + symmetry. apply map_to_list_delete, E.
    + now rewrite delete_id by exact E.
Qed.

Lemma filter_cons_bool {A} (g : A -> bool) (y : A) (l : list A) :
  filter (fun x => g x) (y :: l)
  = if g y then y :: filter (fun x => g x) l else filter (fun x => g x) l.
Proof.
  rewrite filter_cons. destruct (g y).
  - now rewrite decide_True by exact I.
  - now rewrite decide_False by (intros []).
Qed.

Lemma filter_all {A} (l : list A) : filter (fun _ : A => true) l = l.
Proof.
  induction l as [|y l IH]; [reflexivity|].
  rewrite (filter_cons_bool (fun _ => true)). now rewrite IH.
Qed.

Lemma tally_insert (prefix : string) (f : SelfHealer.Stored -> bool)
  (m : gmap string SelfHealer.Stored) (k : string) (x : SelfHealer.Stored) :
  (tally prefix f (<[ k := x ]> m) + adds prefix f k (m !! k)
   = tally prefix f m + adds prefix f k (Some x))%nat.
Proof.
  unfold tally, SelfHealerStatus.listPrefix.
  destruct (entries_insert m k x) as [E1 E2].
  rewrite E1, E2. unfold adds.
  rewrite filter_app, fmap_app, filter_app, length_app.
  rewrite (filter_cons_bool (fun kv => JS.startsWith prefix (fst kv))).
  cbn [fst].
  destruct (m !! k) as [v|].
  - rewrite (filter_cons_bool (fun kv => JS.startsWith prefix (fst kv))).
    cbn [fst]. rewrite filter_nil.
    destruct (JS.startsWith prefix k); cbn [andb].
    + rewrite !fmap_cons, fmap_nil, !(filter_cons_bool f), filter_nil.
      cbn [snd]. destruct (f x), (f v); cbn [length]; lia.
    + rewrite fmap_nil, filter_nil. cbn [length]. lia.
  - rewrite filter_nil, fmap_nil, filter_nil.
    destruct (JS.startsWith prefix k); cbn [andb].
    + rewrite fmap_cons, (filter_cons_bool f). cbn [snd].
      destruct (f x); cbn [length]; lia.
    + cbn [length]. lia.
Qed.

(** X27. Escalating a stored issue through the SelfHealer object does
    not change its health: the counts of active and of resolved issues
    and the [healthy] flag stay as they were.  [escalatedIssues] grows
    by one unless the issue was already escalated, and [totalLearnings]
    grows by one unless a learning of the same millisecond is already
    stored, which the new one then overwrites.  For an id without a
    stored issue the reply is 404 and nothing is written. *)
Theorem escalateIssue_keeps_health (amb : Ambient) (id : string)
  (reason : option string) (st : gmap string SelfHealer.Stored)
  (issue : SelfHealer.HIssue) :
  st !! ("issue:" +:+ id) = Some (SelfHealer.SIssue issue) ->
  let s := SelfHealerStatus.getStatus st in
  let s' := SelfHealerStatus.getStatus
              (fst (SelfHealer.escalateIssue amb id reason st)) in
  SelfHealerStatus.activeIssues s' = SelfHealerStatus.activeIssues s /\
  SelfHealerStatus.resolvedIssues s' = SelfHealerStatus.resolvedIssues s /\
  SelfHealerStatus.healthy s' = SelfHealerStatus.healthy s /\
  SelfHealerStatus.escalatedIssues s'
    = (SelfHealerStatus.escalatedIssues s
       + if SelfHealer.h_escalated issue then 0 else 1)%nat /\
  SelfHealerStatus.totalLearnings s'
    = (SelfHealerStatus.totalLearnings s
       + match st !! learningKey amb with Some _ => 0 | None => 1 end)%nat /\
  SelfHealerStatus.lastHealingRun s' = SelfHealerStatus.lastHealingRun s /\
  (forall id', st !! ("issue:" +:+ id') = None ->
     SelfHealer.escalateIssue amb id' reason st
     = (st, mkResponse 404 [("error", "Issue not found")])).
Proof.
  intros Hst. cbv zeta.
  unfold SelfHealer.escalateIssue at 1 2 3 4 5 6. rewrite Hst. cbn [fst].
  unfold SelfHealer.createLearning.
  fold (learningKey amb).
  set (issue' := SelfHealer.mkHIssue _ _ _ _ _ _ _ _).
  set (l := SelfHealer.SLearning _).
  set (st1 := <[ "issue:" +:+ id := SelfHealer.SIssue issue' ]> st).
  assert (Hne : learningKey amb <> "issue:" +:+ id) by discriminate.
  assert (Hl1 : st1 !! learningKey amb = st !! learningKey amb).
  { unfold st1. now rewrite lookup_insert_ne by auto. }
  assert (T : forall p f,
            (tally p f (<[ learningKey amb := l ]> st1)
             + adds p f (learningKey amb) (st !! learningKey amb)
             + adds p f ("issue:" +:+ id) (Some (SelfHealer.SIssue issue))
             = tally p f st
               + adds p f ("issue:" +:+ id) (Some (SelfHealer.SIssue issue'))
               + adds p f (learningKey amb) (Some l))%nat).
  { intros p f.
    pose proof (tally_insert p f st1 (learningKey amb) l) as A.
    pose proof (tally_insert p f st ("issue:" +:+ id) (SelfHealer.SIssue issue')) as B.
    fold st1 in B. rewrite Hl1 in A. rewrite Hst in B. lia. }
  assert (Pi : JS.startsWith "issue:" ("issue:" +:+ id) = true).
  { apply startsWith_spec. now exists id. }
  assert (Pl : JS.startsWith "issue:" (learningKey amb) = false) by reflexivity.
  assert (Qi : JS.startsWith "learning:" ("issue:" +:+ id) = false) by reflexivity.
  assert (Ql : JS.startsWith "learning:" (learningKey amb) = true).
  { apply startsWith_spec. now exists ("learning_" +:+ pretty (msNow amb)). }
  assert (Ha : tally "issue:" (fun v => negb (SelfHealerStatus.isResolved v))
                 (<[ learningKey amb := l ]> st1)
               = tally "issue:" (fun v => negb (SelfHealerStatus.isResolved v)) st).
  { pose proof (T "issue:" (fun v => negb (SelfHealerStatus.isResolved v))) as H.
    unfold adds in H. rewrite Pi, Pl in H. cbn [andb] in H.
    cbn [SelfHealerStatus.isResolved] in H.
    change (SelfHealer.h_resolved issue') with (SelfHealer.h_resolved issue) in H.
    destruct (st !! learningKey amb); lia. }
  assert (Hr : tally "issue:" SelfHealerStatus.isResolved
                 (<[ learningKey amb := l ]> st1)
               = tally "issue:" SelfHealerStatus.isResolved st).
  { pose proof (T "issue:" SelfHealerStatus.isResolved) as H.
    unfold adds in H. rewrite Pi, Pl in H. cbn [andb] in H.
    cbn [SelfHealerStatus.isResolved] in H.
    change (SelfHealer.h_resolved issue') with (SelfHealer.h_resolved issue) in H.
    destruct (st !! learningKey amb); lia. }
  assert (He : tally "issue:" SelfHealerStatus.isEscalated
                 (<[ learningKey amb := l ]> st1)
               = (tally "issue:" SelfHealerStatus.isEscalated st
                  + if SelfHealer.h_escalated issue then 0 else 1)%nat).
  { pose proof (T "issue:" SelfHealerStatus.isEscalated) as H.
    unfold adds in H. rewrite Pi, Pl in H. cbn [andb] in H.
    cbn [SelfHealerStatus.isEscalated] in H.
    change (SelfHealer.h_escalated issue') with true in H.
    destruct (st !! learningKey amb), (SelfHealer.h_escalated issue); lia. }
  assert (Hn : tally "learning:" (fun _ => true)
                 (<[ learningKey amb := l ]> st1)
               = (tally "learning:" (fun _ => true) st
                  + match st !! learningKey amb with Some _ => 0 | None => 1 end)%nat).
  { pose proof (T "learning:" (fun _ => true)) as H.
    unfold adds in H. rewrite Qi, Ql in H. cbn [andb] in H.
    destruct (st !! learningKey amb); lia. }
  assert (Hall : forall m : gmap string SelfHealer.Stored,
            length (SelfHealerStatus.listPrefix "learning:" m)
            = tally "learning:" (fun _ => true) m).
  { intros m. unfold tally. now rewrite filter_all, length_fmap. }
  unfold SelfHealerStatus.getStatus.
  cbn [SelfHealerStatus.activeIssues SelfHealerStatus.resolvedIssues
       SelfHealerStatus.healthy SelfHealerStatus.escalatedIssues
       SelfHealerStatus.totalLearnings SelfHealerStatus.lastHealingRun].
  unfold SelfHealerStatus.listIssues. fold (learningKey amb).
  change (length (filter (fun i => negb (SelfHealerStatus.isResolved i))
                    (snd <$> SelfHealerStatus.listPrefix "issue:" ?m)))
    with (tally "issue:" (fun v => negb (SelfHealerStatus.isResolved v)) m).
  repeat match goal with
  | |- context [length (filter ?f (snd <$> SelfHealerStatus.listPrefix ?p ?m))] =>
      change (length (filter f (snd <$> SelfHealerStatus.listPrefix p m)))
        with (tally p f m)
  end.
  rewrite !Hall.
  repeat match goal with |- _ /\ _ => split end.
  - exact Ha.
  - exact Hr.
  - now rewrite Ha.
  - exact He.
  - exact Hn.
  - rewrite lookup_insert_ne by discriminate.
    unfold st1. now rewrite lookup_insert_ne by discriminate.
  - intros id' Hnone. unfold SelfHealer.escalateIssue. now rewrite Hnone.
Qed.

Lemma escalateIssue_keeps_health_witness :
  SelfHealerStatus.healthy
    (SelfHealerStatus.getStatus
       (fst (SelfHealer.escalateIssue someAmbient "i1" (Some "stuck") healerStore)))
  = SelfHealerStatus.healthy (SelfHealerStatus.getStatus healerStore).
Proof.
  exact (proj1 (proj2 (proj2
           (escalateIssue_keeps_health someAmbient "i1" (Some "stuck") healerStore
              _ eq_refl)))).
Defined.
